(** * Initial node synchronisation of pglogical: [pglogical_init_replica.c]

    A shallow embedding of the bootstrap of a subscriber node.  The C code
    talks to the outside world all the time (libpq sessions, child
    processes, the local backend); every such call is an [event] that
    records the arguments and the answer, and the answers come from a
    [world] whose functions see the whole history of earlier events.  The
    C functions become computations in a small error/trace monad [M]. *)

From Stdlib Require Import ZArith List String Ascii Bool Lia DecimalString Sorted.
Import ListNotations.

Local Open Scope Z_scope.

(** ** Strings as the code formats them *)

Notation "s1 +++ s2" := (String.append s1 s2)
  (at level 60, right associativity) : string_scope.
Local Open Scope string_scope.
Local Open Scope list_scope.

(** The double quote and the newline, for format strings that hold them. *)
Definition dq : string := String (ascii_of_nat 34) EmptyString.
Definition nl : string := String (ascii_of_nat 10) EmptyString.

(** [%d] of [printf]. *)
Definition fmt_d (z : Z) : string := NilZero.string_of_int (Z.to_int z).

(** Concatenation of a list of strings, left to right. *)
Fixpoint concat_strings (l : list string) : string :=
  match l with
  | [] => EmptyString
  | s :: l' => s +++ concat_strings l'
  end.

(** [contains sub s]: [sub] occurs in [s] (used to inspect messages). *)
Fixpoint contains (sub s : string) : bool :=
  if String.prefix sub s then true
  else match s with
       | EmptyString => false
       | String _ s' => contains sub s'
       end.

(** [snprintf(buf, size, ...)]: at most [size - 1] characters of the
    formatted text are stored, what is beyond is cut off. *)
Definition snprintf (size : Z) (text : string) : string :=
  substring 0 (Z.to_nat (size - 1)) text.
Arguments snprintf size text : simpl never.

(** ** Data model *)

(** Modelled from the spec: the header pglogical_node.h with the
    [NODE_STATUS_*] constants is not among the sources; the spec gives
    NodeStatus as the ordered enumeration
    INIT, SYNC_SCHEMA, SLOTS, CATCHUP, CONNECT_BACK, READY.  The [char]
    values outside these six, which the source sends to the [default]
    branch of its entry switch, have no constructor. *)
Inductive NodeStatus : Type :=
| NODE_STATUS_INIT
| NODE_STATUS_SYNC_SCHEMA
| NODE_STATUS_SLOTS
| NODE_STATUS_CATCHUP
| NODE_STATUS_CONNECT_BACK
| NODE_STATUS_READY.

Definition NodeStatus_eqb (a b : NodeStatus) : bool :=
  match a, b with
  | NODE_STATUS_INIT, NODE_STATUS_INIT
  | NODE_STATUS_SYNC_SCHEMA, NODE_STATUS_SYNC_SCHEMA
  | NODE_STATUS_SLOTS, NODE_STATUS_SLOTS
  | NODE_STATUS_CATCHUP, NODE_STATUS_CATCHUP
  | NODE_STATUS_CONNECT_BACK, NODE_STATUS_CONNECT_BACK
  | NODE_STATUS_READY, NODE_STATUS_READY => true
  | _, _ => false
  end.

(** Position of a status in the order of the state machine. *)
Definition status_rank (s : NodeStatus) : nat :=
  match s with
  | NODE_STATUS_INIT => 0
  | NODE_STATUS_SYNC_SCHEMA => 1
  | NODE_STATUS_SLOTS => 2
  | NODE_STATUS_CATCHUP => 3
  | NODE_STATUS_CONNECT_BACK => 4
  | NODE_STATUS_READY => 5
  end.

(** Modelled from the spec: the [NODE_ROLE_*] constants are declared in the
    same missing header; the spec gives role in {origin, subscriber}. *)
Inductive NodeRole : Type :=
| NODE_ROLE_ORIGIN
| NODE_ROLE_SUBSCRIBER.

Record PGLogicalNode : Type := {
  node_id : Z;
  node_name : string;
  node_role : NodeRole;
  node_status : NodeStatus;
  node_dsn : string
}.

Record PGLogicalRepSet : Type := { repset_name : string }.

Record PGLogicalConnection : Type := {
  origin : PGLogicalNode;
  target : PGLogicalNode;
  replication_sets : list PGLogicalRepSet
}.

Record RangeVar : Type := { schemaname : string; relname : string }.

Definition XLogRecPtr := Z.
Definition RepOriginId := Z.
Definition InvalidRepOriginId : RepOriginId := 0.

(** ** libpq values *)

(** A session handle. *)
Definition PGconn := nat.

Inductive ConnStatusType : Type := CONNECTION_OK | CONNECTION_BAD.

Inductive ExecStatusType : Type :=
| PGRES_EMPTY_QUERY
| PGRES_COMMAND_OK
| PGRES_TUPLES_OK
| PGRES_COPY_OUT
| PGRES_COPY_IN
| PGRES_BAD_RESPONSE
| PGRES_NONFATAL_ERROR
| PGRES_FATAL_ERROR.

Definition ExecStatusType_eqb (a b : ExecStatusType) : bool :=
  match a, b with
  | PGRES_EMPTY_QUERY, PGRES_EMPTY_QUERY
  | PGRES_COMMAND_OK, PGRES_COMMAND_OK
  | PGRES_TUPLES_OK, PGRES_TUPLES_OK
  | PGRES_COPY_OUT, PGRES_COPY_OUT
  | PGRES_COPY_IN, PGRES_COPY_IN
  | PGRES_BAD_RESPONSE, PGRES_BAD_RESPONSE
  | PGRES_NONFATAL_ERROR, PGRES_NONFATAL_ERROR
  | PGRES_FATAL_ERROR, PGRES_FATAL_ERROR => true
  | _, _ => false
  end.

Definition PQresStatus (s : ExecStatusType) : string :=
  match s with
  | PGRES_EMPTY_QUERY => "PGRES_EMPTY_QUERY"
  | PGRES_COMMAND_OK => "PGRES_COMMAND_OK"
  | PGRES_TUPLES_OK => "PGRES_TUPLES_OK"
  | PGRES_COPY_OUT => "PGRES_COPY_OUT"
  | PGRES_COPY_IN => "PGRES_COPY_IN"
  | PGRES_BAD_RESPONSE => "PGRES_BAD_RESPONSE"
  | PGRES_NONFATAL_ERROR => "PGRES_NONFATAL_ERROR"
  | PGRES_FATAL_ERROR => "PGRES_FATAL_ERROR"
  end.

Record PGresult : Type := {
  PQresultStatus : ExecStatusType;
  PQresultErrorMessage : string;
  PQtuples : list (list string)
}.

Definition PQntuples (res : PGresult) : nat := List.length (PQtuples res).

(** [PQgetvalue] is NULL when the row or the column does not exist. *)
Definition PQgetvalue (res : PGresult) (row col : nat) : option string :=
  match nth_error (PQtuples res) row with
  | Some r => nth_error r col
  | None => None
  end.

(** What [PQgetCopyData] returns once the rows are exhausted:
    -1 at the end of the copy, -2 on an error, 0 when nothing is ready. *)
Inductive CopyEnd : Type := COPY_DONE | COPY_FAILED | COPY_IN_PROGRESS.

Definition CopyEnd_code (e : CopyEnd) : Z :=
  match e with
  | COPY_DONE => -1
  | COPY_FAILED => -2
  | COPY_IN_PROGRESS => 0
  end.

(** What [popen] of [<tool> -V], [fgets] and
    [sscanf(.., "%*s %*s %d.%d", &pre_dot, &post_dot)] give together. *)
Inductive VersionProbe : Type :=
| PROBE_NO_OUTPUT                      (* popen or fgets returned NULL *)
| PROBE_NO_MATCH                       (* sscanf did not return 2 *)
| PROBE_VERSION (pre_dot post_dot : Z).

(** ** Error reports *)

Inductive ErrorLevel : Type := INFO | WARNING | ERROR | FATAL.

Record ErrorData : Type := {
  elevel : ErrorLevel;
  message : string;
  detail : string
}.

(** ** Events: every call on the outside world, with its answer *)

Inductive event : Type :=
| EvElog (lvl : ErrorLevel) (msg : string)
| EvFindMyExec (argv0 : string) (dir : option string)
| EvPopen (cmd : string) (reply : VersionProbe)
| EvSystem (command : string) (res : Z)
| EvStrerror (text : string)
| EvPQconnectdb (conninfo : string) (conn : PGconn)
| EvPQstatus (conn : PGconn) (st : ConnStatusType)
| EvPQerrorMessage (conn : PGconn) (text : string)
| EvPQfinish (conn : PGconn)
| EvPQexec (conn : PGconn) (query : string) (res : PGresult)
| EvPQescapeIdentifier (conn : PGconn) (str : string) (escaped : string)
| EvPQescapeLiteral (conn : PGconn) (str : string) (escaped : string)
| EvPQgetCopyData (conn : PGconn) (bytes : Z) (buffer : string)
| EvPQputCopyData (conn : PGconn) (buffer : string) (nbytes : Z) (res : Z)
| EvPQputCopyEnd (conn : PGconn) (res : Z)
| EvCheckForInterrupts (raised : option ErrorData)
| EvStartTransactionCommand
| EvCommitTransactionCommand
| EvGetDatabaseName (dbname : string)
| EvReplOriginByName (roname : string) (res : RepOriginId)
| EvReplOriginCreate (roname : string) (res : RepOriginId)
| EvReplOriginAdvance (node : RepOriginId) (remote_commit local_commit : XLogRecPtr)
                      (go_backward wal_log : bool)
| EvSetNodeStatus (nodeid : Z) (status : NodeStatus)
| EvSetRemoteNodeStatus (conn : PGconn) (nodename : string) (status : NodeStatus).

Definition history := list event.

(** ** The outside world

    Build constants, process globals, pure library functions, and the
    answers of everything the code calls.  An answer may depend on all
    that happened before ([history]), so the same call can be answered
    differently each time. *)
Record world : Type := {
  (* build constants (pg_config.h, pglogical.h, port.h) *)
  PG_VERSION_NUM : Z;
  EXTENSION_NAME : string;
  EXE : string;
  MAXPGPATH : Z;
  (* process globals *)
  my_exec_path : string;
  (* pure functions of libpq, of the backend and of the extension *)
  w_PQescapeIdentifier : PGconn -> string -> string;
  w_PQescapeLiteral : PGconn -> string -> string;
  gen_slot_name : string -> PGLogicalNode -> PGLogicalNode -> string;
  pg_lsn_in : string -> ErrorData + XLogRecPtr;
  (* the order in which the compiled code evaluates the arguments of a
     call, which C leaves unspecified: true when the first argument is
     evaluated first *)
  w_args_in_order : history -> bool;
  (* find_my_exec, then the directory of the binary made canonical
     (last_dir_separator, canonicalize_path); None when find_my_exec fails.
     The directory is what find_my_exec left in a buffer of MAXPGPATH
     bytes: it has fewer than MAXPGPATH characters *)
  w_find_my_exec : history -> string -> option string;
  (* popen, fgets and sscanf of the version line of a command *)
  w_popen_version : history -> string -> VersionProbe;
  (* exit status of system(), text of errno *)
  w_system : history -> string -> Z;
  w_strerror : history -> string;
  (* libpq sessions *)
  w_PQconnectdb : history -> string -> PGconn;
  w_PQstatus : history -> PGconn -> ConnStatusType;
  w_PQerrorMessage : history -> PGconn -> string;
  w_PQexec : history -> PGconn -> string -> PGresult;
  (* the rows that the COPY OUT just started will hand to PQgetCopyData,
     and what PQgetCopyData returns after the last of them *)
  w_copy_out_rows : history -> PGconn -> list string * CopyEnd;
  w_PQputCopyData : history -> PGconn -> string -> Z -> Z;
  w_PQputCopyEnd : history -> PGconn -> Z;
  (* a cancel or termination request pending at CHECK_FOR_INTERRUPTS *)
  w_interrupts : history -> option ErrorData;
  (* the local backend *)
  w_get_database_name : history -> string;
  w_replorigin_by_name : history -> string -> RepOriginId;
  w_replorigin_create : history -> string -> RepOriginId;
  w_XactLastCommitEnd : history -> XLogRecPtr
}.

(** ** The monad: a result, and the events emitted on the way

    A computation reads the history so far and gives its outcome with the
    events it added.  [elog(ERROR)] and above do not return to the caller:
    they end every enclosing computation, as the longjmp of the backend
    does. *)

Inductive outcome (A : Type) : Type :=
| Ok (a : A)
| Raised (e : ErrorData)      (* elog/ereport at ERROR or above: non-local exit *)
| Crashed.                    (* a NULL pointer handed to a string function *)
Arguments Ok {A} a.
Arguments Raised {A} e.
Arguments Crashed {A}.

Definition M (A : Type) : Type := history -> outcome A * list event.

Definition ret {A} (a : A) : M A := fun _ => (Ok a, []).

Definition bind {A B} (m : M A) (f : A -> M B) : M B :=
  fun h =>
    match m h with
    | (Ok a, e1) => let (r, e2) := f a (h ++ e1) in (r, e1 ++ e2)
    | (Raised x, e1) => (Raised x, e1)
    | (Crashed, e1) => (Crashed, e1)
    end.

Notation "x <- m ;; k" := (bind m (fun x => k))
  (at level 100, m at next level, right associativity).
Notation "m ;; k" := (bind m (fun _ => k))
  (at level 100, right associativity).
Notation "' pat <- m ;; k" := (bind m (fun x => match x with pat => k end))
  (at level 100, pat pattern, m at next level, right associativity).

Arguments bind {A B} m f h : simpl never.

Definition raise {A} (e : ErrorData) : M A := fun _ => (Raised e, []).
Definition crash {A} : M A := fun _ => (Crashed, []).
Definition emit (e : event) : M unit := fun _ => (Ok tt, [e]).

(** Read something of the world without leaving an event. *)
Definition ask {A} (answer : history -> A) : M A := fun h => (Ok (answer h), []).

(** A call on the world: ask the answer at the current history, record
    call and answer. *)
Definition call {A} (answer : history -> A) (ev : A -> event) : M A :=
  fun h => let a := answer h in (Ok a, [ev a]).

(** [foreach (lc, l) body]. *)
Fixpoint foreach {A} (l : list A) (body : A -> M unit) : M unit :=
  match l with
  | [] => ret tt
  | x :: l' => body x ;; foreach l' body
  end.

(** [ereport]: at ERROR and FATAL control leaves the function; below, the
    report is logged and execution goes on. *)
Definition ereport (lvl : ErrorLevel) (msg det : string) : M unit :=
  match lvl with
  | ERROR | FATAL => raise {| elevel := lvl; message := msg; detail := det |}
  | _ => emit (EvElog lvl msg)
  end.

Definition elog (lvl : ErrorLevel) (msg : string) : M unit :=
  ereport lvl msg EmptyString.

(** [uint32] assignment of an [int] expression. *)
Definition to_uint32 (z : Z) : Z := z mod 2 ^ 32.

(** ** The program *)

Section Program.

Variable w : world.

(** *** Calls on libc, libpq and the backend *)

Definition find_my_exec (argv0 : string) : M (option string) :=
  call (fun h => w_find_my_exec w h argv0) (EvFindMyExec argv0).

Definition popen_version (cmd : string) : M VersionProbe :=
  call (fun h => w_popen_version w h cmd) (EvPopen cmd).

Definition system (command : string) : M Z :=
  call (fun h => w_system w h command) (EvSystem command).

(** [%m]: the text of [errno]. *)
Definition strerror_errno : M string := call (w_strerror w) EvStrerror.

Definition PQconnectdb (conninfo : string) : M PGconn :=
  call (fun h => w_PQconnectdb w h conninfo) (EvPQconnectdb conninfo).

Definition PQstatus (conn : PGconn) : M ConnStatusType :=
  call (fun h => w_PQstatus w h conn) (EvPQstatus conn).

Definition PQerrorMessage (conn : PGconn) : M string :=
  call (fun h => w_PQerrorMessage w h conn) (EvPQerrorMessage conn).

Definition PQfinish (conn : PGconn) : M unit := emit (EvPQfinish conn).

Definition PQexec (conn : PGconn) (query : string) : M PGresult :=
  call (fun h => w_PQexec w h conn query) (EvPQexec conn query).

Definition PQescapeIdentifier (conn : PGconn) (str : string) : M string :=
  call (fun _ => w_PQescapeIdentifier w conn str) (EvPQescapeIdentifier conn str).

Definition PQescapeLiteral (conn : PGconn) (str : string) : M string :=
  call (fun _ => w_PQescapeLiteral w conn str) (EvPQescapeLiteral conn str).

Definition PQputCopyData (conn : PGconn) (buffer : string) (nbytes : Z) : M Z :=
  call (fun h => w_PQputCopyData w h conn buffer nbytes)
       (EvPQputCopyData conn buffer nbytes).

Definition PQputCopyEnd (conn : PGconn) : M Z :=
  call (fun h => w_PQputCopyEnd w h conn) (EvPQputCopyEnd conn).

(** [CHECK_FOR_INTERRUPTS()]: a pending cancel or termination request is
    raised here. *)
Definition CHECK_FOR_INTERRUPTS : M unit :=
  r <- call (w_interrupts w) EvCheckForInterrupts ;;
  match r with
  | Some e => raise e
  | None => ret tt
  end.

Definition StartTransactionCommand : M unit := emit EvStartTransactionCommand.
Definition CommitTransactionCommand : M unit := emit EvCommitTransactionCommand.

Definition get_database_name : M string :=
  call (w_get_database_name w) EvGetDatabaseName.

Definition replorigin_by_name (roname : string) : M RepOriginId :=
  call (fun h => w_replorigin_by_name w h roname) (EvReplOriginByName roname).

Definition replorigin_create (roname : string) : M RepOriginId :=
  call (fun h => w_replorigin_create w h roname) (EvReplOriginCreate roname).

Definition replorigin_advance (node : RepOriginId)
    (remote_commit local_commit : XLogRecPtr) (go_backward wal_log : bool) : M unit :=
  emit (EvReplOriginAdvance node remote_commit local_commit go_backward wal_log).

Definition set_node_status (nodeid : Z) (status : NodeStatus) : M unit :=
  emit (EvSetNodeStatus nodeid status).

Definition set_remote_node_status (conn : PGconn) (nodename : string)
    (status : NodeStatus) : M unit :=
  emit (EvSetRemoteNodeStatus conn nodename status).

(** Two arguments of one call that are calls themselves: C does not say
    which is evaluated first, the compiled code does. *)
Definition args2 {A B} (first : M A) (second : M B) : M (A * B) :=
  in_order <- ask (w_args_in_order w) ;;
  if in_order : bool then
    a <- first ;; b <- second ;; ret (a, b)
  else
    b <- second ;; a <- first ;; ret (a, b).

(** *** find_other_exec_version

    Returns the C return value, [*version] and [retpath]; [*version] is
    left unset (0 here, never read by the callers) when the value is not 0.
    Both [retpath] and [cmd] are buffers of MAXPGPATH bytes: the name of
    the program is appended to the directory with what room
    [MAXPGPATH - strlen(retpath)] leaves, and the command is cut at
    MAXPGPATH. *)
Definition find_other_exec_version (argv0 target : string) : M (Z * Z * string) :=
  found <- find_my_exec argv0 ;;
  match found with
  | None => ret (-1, 0, EmptyString)
  | Some dir =>
      let retpath :=
        dir +++ snprintf (MAXPGPATH w - Z.of_nat (String.length dir))
                         ("/" +++ target +++ EXE w) in
      let cmd := snprintf (MAXPGPATH w) (dq +++ retpath +++ dq +++ " -V") in
      reply <- popen_version cmd ;;
      match reply with
      | PROBE_NO_OUTPUT => ret (-1, 0, retpath)
      | PROBE_NO_MATCH => ret (-2, 0, retpath)
      | PROBE_VERSION pre_dot post_dot =>
          ret (0, to_uint32 ((pre_dot * 100 + post_dot) * 100), retpath)
      end
  end.

Definition wrong_major_version (tool : string) (version : Z) : string :=
  "bdr node init found " +++ tool +++ " with wrong major version "
  +++ fmt_d (version / 100 / 100) +++ "." +++ fmt_d (version / 100 mod 100)
  +++ ", expected "
  +++ fmt_d (PG_VERSION_NUM w / 100 / 100) +++ "."
  +++ fmt_d (PG_VERSION_NUM w / 100 mod 100).

Definition dump_command (pg_dump snapshot dsn : string) : string :=
  pg_dump +++ " --snapshot=" +++ dq +++ snapshot +++ dq +++ " -F c -f "
  +++ dq +++ "/tmp/pglogical.dump" +++ dq +++ " " +++ dq +++ dsn +++ dq.

Definition restore_command (pg_restore section dsn : string) : string :=
  pg_restore +++ " --section=" +++ dq +++ section +++ dq
  +++ " --exit-on-error -1 -d " +++ dq +++ dsn +++ dq +++ " "
  +++ dq +++ "/tmp/pglogical.dump" +++ dq.

Definition could_not_execute (command errno_text : string) : string :=
  "could not execute command " +++ dq +++ command +++ dq +++ ": " +++ errno_text.

(** *** dump_structure *)
Definition dump_structure (conn : PGLogicalConnection) (snapshot : string) : M unit :=
  '(rc, version, pg_dump) <- find_other_exec_version (my_exec_path w) "pg_dump" ;;
  (if (rc =? 0)%Z then ret tt
   else elog ERROR ("bdr node init failed to find pg_dump relative to binary "
                    +++ my_exec_path w)) ;;
  (if (version / 100 =? PG_VERSION_NUM w / 100)%Z then ret tt
   else elog ERROR (wrong_major_version "pg_dump" version)) ;;
  let command := dump_command pg_dump snapshot (node_dsn (origin conn)) in
  res <- system command ;;
  if (res =? 0)%Z then ret tt
  else (m <- strerror_errno ;; ereport ERROR (could_not_execute command m) EmptyString).

(** *** restore_structure *)
Definition restore_structure (conn : PGLogicalConnection) (section : string) : M unit :=
  '(rc, version, pg_restore) <- find_other_exec_version (my_exec_path w) "pg_restore" ;;
  (if (rc =? 0)%Z then ret tt
   else elog ERROR ("bdr node init failed to find pg_restore relative to binary "
                    +++ my_exec_path w)) ;;
  (if (version / 100 =? PG_VERSION_NUM w / 100)%Z then ret tt
   else elog ERROR (wrong_major_version "pg_restore" version)) ;;
  let command := restore_command pg_restore section (node_dsn (target conn)) in
  res <- system command ;;
  if (res =? 0)%Z then ret tt
  else (m <- strerror_errno ;; ereport ERROR (could_not_execute command m) EmptyString).

(** *** pg_connect: standard connection, FATAL on failure *)
Definition pg_connect (connstring connname : string) : M PGconn :=
  let dsn := connstring +++ " fallback_application_name='" +++ connname +++ "'" in
  conn <- PQconnectdb dsn ;;
  st <- PQstatus conn ;;
  match st with
  | CONNECTION_OK => ret conn
  | _ =>
      m <- PQerrorMessage conn ;;
      ereport FATAL ("could not connect to the postgresql server: " +++ m)
                    ("dsn was: " +++ dsn) ;;
      ret conn
  end.

(** *** pg_connect_replica: replication connection, FATAL on failure *)
Definition pg_connect_replica (connstring connname : string) : M PGconn :=
  let dsn := connstring +++ " replication=database fallback_application_name='"
             +++ connname +++ "'" in
  conn <- PQconnectdb dsn ;;
  st <- PQstatus conn ;;
  match st with
  | CONNECTION_OK => ret conn
  | _ =>
      m <- PQerrorMessage conn ;;
      ereport FATAL
        ("could not connect to the postgresql server in replication mode: " +++ m)
        ("dsn was: " +++ dsn) ;;
      ret conn
  end.

Definition session_settings : string :=
  "SET DATESTYLE = ISO;" +++ nl
  +++ "SET INTERVALSTYLE = POSTGRES;" +++ nl
  +++ "SET extra_float_digits TO 3;" +++ nl
  +++ "SET statement_timeout = 0;" +++ nl
  +++ "SET lock_timeout = 0;" +++ nl.

(** *** start_copy_origin_tx *)
Definition start_copy_origin_tx (conn : PGconn) (snapshot : string) : M unit :=
  let query :=
    "BEGIN TRANSACTION ISOLATION LEVEL REPEATABLE READ, READ ONLY;" +++ nl
    +++ "SET TRANSACTION SNAPSHOT '" +++ snapshot +++ "';" +++ nl
    +++ session_settings in
  res <- PQexec conn query ;;
  if ExecStatusType_eqb (PQresultStatus res) PGRES_COMMAND_OK then ret tt
  else elog ERROR ("BEGIN on origin node failed: " +++ PQresultErrorMessage res).

(** *** start_copy_target_tx: the template has no [%s], the snapshot
    argument is not used. *)
Definition start_copy_target_tx (conn : PGconn) (snapshot : string) : M unit :=
  let query :=
    "BEGIN TRANSACTION ISOLATION LEVEL READ COMMITTED;" +++ nl
    +++ session_settings in
  res <- PQexec conn query ;;
  if ExecStatusType_eqb (PQresultStatus res) PGRES_COMMAND_OK then ret tt
  else elog ERROR ("BEGIN on target node failed: " +++ PQresultErrorMessage res).

(** *** copy_table_data *)

(** The [while ((bytes = PQgetCopyData(origin_conn, &copybuf, false)) > 0)]
    loop.  [rows] are the rows the origin still has to deliver, [last] what
    PQgetCopyData returns after them; a row is returned with its length.
    The value is [bytes] when the loop is left. *)
Fixpoint copy_rows (origin_conn target_conn : PGconn)
    (rows : list string) (last : CopyEnd) : M Z :=
  match rows with
  | [] =>
      emit (EvPQgetCopyData origin_conn (CopyEnd_code last) EmptyString) ;;
      ret (CopyEnd_code last)
  | copybuf :: rows' =>
      let bytes := Z.of_nat (String.length copybuf) in
      emit (EvPQgetCopyData origin_conn bytes copybuf) ;;
      if (0 <? bytes)%Z then
        r <- PQputCopyData target_conn copybuf bytes ;;
        (if (r =? 1)%Z then ret tt
         else m <- PQerrorMessage target_conn ;;
              ereport ERROR "writing to target table failed"
                            ("destination connection reported: " +++ m)) ;;
        CHECK_FOR_INTERRUPTS ;;
        copy_rows origin_conn target_conn rows' last
      else ret bytes
  end.

Definition table_copy_failed (query errtext : string) : M unit :=
  ereport ERROR "table copy failed" ("Query '" +++ query +++ "': " +++ errtext).

(** The two PQescapeIdentifier of each query are arguments of one
    appendStringInfo. *)
Definition copy_table_data (origin_conn target_conn : PGconn)
    (schemaname relname : string) : M unit :=
  (* Build COPY TO query. *)
  '(s, r) <- args2 (PQescapeIdentifier origin_conn schemaname)
                   (PQescapeIdentifier origin_conn relname) ;;
  let query := "COPY " +++ s +++ "." +++ r +++ " TO stdout" in
  (* Execute COPY TO. *)
  res <- PQexec origin_conn query ;;
  (if ExecStatusType_eqb (PQresultStatus res) PGRES_COPY_OUT then ret tt
   else m <- PQerrorMessage origin_conn ;; table_copy_failed query m) ;;
  (* Build COPY FROM query. *)
  '(s, r) <- args2 (PQescapeIdentifier origin_conn schemaname)
                   (PQescapeIdentifier origin_conn relname) ;;
  let query := "COPY " +++ s +++ "." +++ r +++ " FROM stdin" in
  (* Execute COPY FROM. *)
  res <- PQexec target_conn query ;;
  (if ExecStatusType_eqb (PQresultStatus res) PGRES_COPY_IN then ret tt
   else m <- PQerrorMessage origin_conn ;; table_copy_failed query m) ;;
  '(rows, last) <- ask (fun h => w_copy_out_rows w h origin_conn) ;;
  bytes <- copy_rows origin_conn target_conn rows last ;;
  (if (bytes =? -1)%Z then ret tt
   else m <- PQerrorMessage origin_conn ;;
        ereport ERROR "reading from origin table failed"
                      ("source connection returned " +++ fmt_d bytes +++ ": " +++ m)) ;;
  (* Send local finish *)
  e <- PQputCopyEnd target_conn ;;
  if (e =? 1)%Z then ret tt
  else m <- PQerrorMessage target_conn ;;
       ereport ERROR "sending copy-completion to destination connection failed"
                     ("destination connection reported: " +++ m).

(** *** get_copy_tables *)

(** The array literal: an opening brace, every set name, a closing brace. *)
Definition repsetarr (replication_sets : list PGLogicalRepSet) : string :=
  "{" +++ concat_strings (map repset_name replication_sets) +++ "}".

Definition copy_tables_query (array_literal : string) : string :=
  "SELECT nspname, relname FROM " +++ EXTENSION_NAME w
  +++ ".tables WHERE set_name = ANY(" +++ array_literal +++ ")".

(** [for (i = 0; i < PQntuples(res); i++)] over the rows [idx]; pstrdup of
    a NULL field does not return. *)
Fixpoint result_tables (res : PGresult) (idx : list nat) : M (list RangeVar) :=
  match idx with
  | [] => ret []
  | i :: idx' =>
      match PQgetvalue res i 0, PQgetvalue res i 1 with
      | Some nspname, Some rel =>
          tables <- result_tables res idx' ;;
          ret ({| schemaname := nspname; relname := rel |} :: tables)
      | _, _ => crash
      end
  end.

Definition get_copy_tables (origin_conn : PGconn)
    (replication_sets : list PGLogicalRepSet) : M (list RangeVar) :=
  lit <- PQescapeLiteral origin_conn (repsetarr replication_sets) ;;
  let query := copy_tables_query lit in
  res <- PQexec origin_conn query ;;
  (if ExecStatusType_eqb (PQresultStatus res) PGRES_TUPLES_OK then ret tt
   else elog ERROR "could not get table list") ;;
  result_tables res (seq 0 (PQntuples res)).

(** *** copy_node_data *)
Definition copy_node_data (conn : PGLogicalConnection) (snapshot : string) : M unit :=
  (* Connect to origin node. *)
  origin_conn <- pg_connect (node_dsn (origin conn)) (EXTENSION_NAME w +++ "_init") ;;
  start_copy_origin_tx origin_conn snapshot ;;
  (* Get tables to copy from origin node. *)
  tables <- get_copy_tables origin_conn (replication_sets conn) ;;
  (* Connect to target node. *)
  target_conn <- pg_connect (node_dsn (target conn)) (EXTENSION_NAME w +++ "_init") ;;
  start_copy_target_tx target_conn snapshot ;;
  (* Copy every table. *)
  foreach tables (fun rv =>
    copy_table_data origin_conn target_conn (schemaname rv) (relname rv) ;;
    CHECK_FOR_INTERRUPTS) ;;
  (* Close the transaction and connection on origin node. *)
  res <- PQexec origin_conn "ROLLBACK" ;;
  (if ExecStatusType_eqb (PQresultStatus res) PGRES_COMMAND_OK then ret tt
   else elog WARNING ("ROLLBACK on origin node failed: " +++ PQresultErrorMessage res)) ;;
  PQfinish origin_conn ;;
  (* Close the transaction and connection on target node. *)
  res <- PQexec target_conn "COMMIT" ;;
  (if ExecStatusType_eqb (PQresultStatus res) PGRES_COMMAND_OK then ret tt
   else elog ERROR ("COMMIT on target node failed: " +++ PQresultErrorMessage res)) ;;
  PQfinish target_conn.

(** *** ensure_replication_slot_snapshot: the snapshot name and [*lsn] *)
Definition slot_command (slot_name : string) : string :=
  "CREATE_REPLICATION_SLOT " +++ dq +++ slot_name +++ dq
  +++ " LOGICAL " +++ "pg_logical_output".

Definition ensure_replication_slot_snapshot (origin_conn : PGconn)
    (slot_name : string) : M (string * XLogRecPtr) :=
  let query := slot_command slot_name in
  res <- PQexec origin_conn query ;;
  (* TODO: check and handle already existing slot. *)
  (if ExecStatusType_eqb (PQresultStatus res) PGRES_TUPLES_OK then ret tt
   else elog FATAL ("could not send replication command " +++ dq +++ query +++ dq
                    +++ ": status " +++ PQresStatus (PQresultStatus res)
                    +++ ": " +++ PQresultErrorMessage res +++ nl)) ;;
  match PQgetvalue res 0 1 with
  | None => crash
  | Some lsn_text =>
      match pg_lsn_in w lsn_text with
      | inl e => raise e
      | inr lsn =>
          match PQgetvalue res 0 2 with
          | None => crash
          | Some snapshot => ret (snapshot, lsn)
          end
      end
  end.

(** *** ensure_replication_origin *)
Definition ensure_replication_origin (slot_name : string) : M RepOriginId :=
  roident <- replorigin_by_name slot_name ;;
  if (roident =? InvalidRepOriginId)%Z then replorigin_create slot_name
  else ret roident.

(** *** make_other_slots: TODO in the source *)
Definition make_other_slots (target : PGLogicalNode) : Z := 0.

Definition nonrecoverable : string :=
  "node initialization failed during nonrecoverable step, please try the setup again".

Definition only_subscriber : string :=
  "only subscriber node can be replication target".

(** *** pglogical_init_replica

    Every [if (status == ...)] block yields the value of the local
    [status] after it. *)
Definition pglogical_init_replica (conn : PGLogicalConnection) : M unit :=
  let target := target conn in
  let status := node_status target in
  match status with
  (* We can recover from crashes during these. *)
  | NODE_STATUS_INIT
  | NODE_STATUS_SLOTS
  | NODE_STATUS_CATCHUP
  | NODE_STATUS_CONNECT_BACK => ret tt
  | _ => elog ERROR nonrecoverable
  end ;;
  status <-
    (if NodeStatus_eqb status NODE_STATUS_INIT then
       elog INFO "initializing node" ;;
       StartTransactionCommand ;;
       dbname <- get_database_name ;;
       let slot_name := gen_slot_name w dbname (origin conn) target in
       origin_conn_repl <- pg_connect_replica (node_dsn (origin conn))
                                              (EXTENSION_NAME w +++ "_snapshot") ;;
       '(snapshot, lsn) <- ensure_replication_slot_snapshot origin_conn_repl slot_name ;;
       originid <- ensure_replication_origin slot_name ;;
       local_commit <- ask (w_XactLastCommitEnd w) ;;
       replorigin_advance originid lsn local_commit true true ;;
       CommitTransactionCommand ;;
       set_node_status (node_id target) NODE_STATUS_SYNC_SCHEMA ;;
       elog INFO "synchronizing schemas" ;;
       (* Dump structure to temp storage. *)
       dump_structure conn snapshot ;;
       (* Restore base pre-data structure (types, tables, etc). *)
       restore_structure conn "pre-data" ;;
       (* Copy data. *)
       copy_node_data conn snapshot ;;
       (* Restore post-data structure (indexes, constraints, etc). *)
       restore_structure conn "post-data" ;;
       set_node_status (node_id target) NODE_STATUS_SLOTS ;;
       ret NODE_STATUS_SLOTS
     else ret status) ;;
  status <-
    (if NodeStatus_eqb status NODE_STATUS_SLOTS then
       let _ := make_other_slots target in
       set_node_status (node_id target) NODE_STATUS_CATCHUP ;;
       ret NODE_STATUS_CATCHUP
     else ret status) ;;
  status <-
    (if NodeStatus_eqb status NODE_STATUS_CATCHUP then
       match node_role target with
       | NODE_ROLE_SUBSCRIBER => ret tt   (* Nothing to do here for subscriber. *)
       | _ => elog ERROR only_subscriber  (* Rest is not supported yet. *)
       end ;;
       set_node_status (node_id target) NODE_STATUS_CONNECT_BACK ;;
       ret NODE_STATUS_CONNECT_BACK
     else ret status) ;;
  if NodeStatus_eqb status NODE_STATUS_CONNECT_BACK then
    match node_role target with
    | NODE_ROLE_SUBSCRIBER => ret tt
    | _ => elog ERROR only_subscriber
    end ;;
    let status := NODE_STATUS_READY in
    set_node_status (node_id target) status ;;
    origin_conn <- pg_connect (node_dsn (origin conn)) (EXTENSION_NAME w +++ "_init") ;;
    set_remote_node_status origin_conn (node_name target) status ;;
    PQfinish origin_conn ;;
    elog INFO "finished init_replica, ready to enter normal replication"
  else ret tt.

End Program.

(** ** Properties of runs *)

(** How a run ended, whatever it returned. *)
Inductive exit_kind : Type := Returned | Threw (e : ErrorData) | Died.

Definition exit_of {A} (r : outcome A) : exit_kind :=
  match r with
  | Ok _ => Returned
  | Raised e => Threw e
  | Crashed => Died
  end.

(** A property of runs ([exit_kind] and emitted events) that every run of
    [m] has. *)
Definition sat {A} (Q : exit_kind -> list event -> Prop) (m : M A) : Prop :=
  forall h, Q (exit_of (fst (m h))) (snd (m h)).

(** Properties that pass through sequencing. *)
Record sequential (Q : exit_kind -> list event -> Prop) : Prop := {
  seq_nil : Q Returned [];
  seq_app : forall e1 e2 x, Q Returned e1 -> Q x e2 -> Q x (e1 ++ e2)
}.

Definition all_events (P : event -> bool) : exit_kind -> list event -> Prop :=
  fun _ evs => forallb P evs = true.

(** Every event a run of [m] emits is of the class [P]. *)
Definition emits {A} (P : event -> bool) (m : M A) : Prop :=
  forall h, forallb P (snd (m h)) = true.

(** ** A concrete world, for running the model

    PostgreSQL 9.4 on both sides, libpq's quoting rules, and sessions that
    answer by the kind of statement they receive. *)

Module Scenario.

(** Every occurrence of [c] doubled. *)
Fixpoint double_char (c : ascii) (s : string) : string :=
  match s with
  | EmptyString => EmptyString
  | String a s' =>
      if Ascii.eqb a c then String a (String a (double_char c s'))
      else String a (double_char c s')
  end.

Definition backslash : ascii := ascii_of_nat 92.
Definition quote : ascii := ascii_of_nat 39.
Definition dquote : ascii := ascii_of_nat 34.

(** libpq: an identifier goes between double quotes, inner ones doubled. *)
Definition escape_identifier (s : string) : string :=
  dq +++ double_char dquote s +++ dq.

(** libpq: a literal goes between single quotes, inner quotes and
    backslashes doubled, with the E prefix when it holds a backslash. *)
Definition escape_literal (s : string) : string :=
  if contains (String backslash EmptyString) s
  then " E'" +++ double_char backslash (double_char quote s) +++ "'"
  else "'" +++ double_char quote s +++ "'".

Definition hex_digit (c : ascii) : option Z :=
  let n := Z.of_nat (nat_of_ascii c) in
  if ((48 <=? n) && (n <=? 57))%Z then Some (n - 48)
  else if ((65 <=? n) && (n <=? 70))%Z then Some (n - 55)
  else if ((97 <=? n) && (n <=? 102))%Z then Some (n - 87)
  else None.

Fixpoint hex_value (acc : Z) (s : string) : option Z :=
  match s with
  | EmptyString => Some acc
  | String c s' =>
      match hex_digit c with
      | Some d => hex_value (acc * 16 + d) s'
      | None => None
      end
  end.

Fixpoint split_at (c : ascii) (s : string) : option (string * string) :=
  match s with
  | EmptyString => None
  | String a s' =>
      if Ascii.eqb a c then Some (EmptyString, s')
      else match split_at c s' with
           | Some (l, r) => Some (String a l, r)
           | None => None
           end
  end.

Definition hex_field (s : string) : option Z :=
  if ((1 <=? String.length s) && (String.length s <=? 8))%nat
  then hex_value 0 s else None.

(** The text form of an LSN: two hexadecimal numbers around a slash. *)
Definition lsn_in (s : string) : ErrorData + XLogRecPtr :=
  let bad := {| elevel := ERROR;
                message := "invalid input syntax for type pg_lsn: " +++ dq +++ s +++ dq;
                detail := EmptyString |} in
  match split_at "/"%char s with
  | Some (hi, lo) =>
      match hex_field hi, hex_field lo with
      | Some id, Some off => inr (Z.lor (Z.shiftl id 32) off)
      | _, _ => inl bad
      end
  | None => inl bad
  end.

Definition slot_name_of (dbname : string) (o t : PGLogicalNode) : string :=
  "pgl_" +++ dbname +++ "_" +++ node_name o +++ "_" +++ node_name t.

Definition is_connect (e : event) : bool :=
  match e with EvPQconnectdb _ _ => true | _ => false end.

(** The statement of the last COPY ... TO stdout of the history. *)
Fixpoint last_copy_out (h : history) (seen : string) : string :=
  match h with
  | [] => seen
  | EvPQexec _ q _ :: h' =>
      last_copy_out h' (if contains "TO stdout" q then q else seen)
  | _ :: h' => last_copy_out h' seen
  end.

Definition result (st : ExecStatusType) (err : string) (rows : list (list string)) : PGresult :=
  {| PQresultStatus := st; PQresultErrorMessage := err; PQtuples := rows |}.

(** The answer of a session, by the first word of the statement. *)
Definition exec (rollback commit : PGresult) (tables : list (list string))
    (query : string) : PGresult :=
  if String.prefix "BEGIN" query then result PGRES_COMMAND_OK EmptyString []
  else if String.prefix "SELECT" query then result PGRES_TUPLES_OK EmptyString tables
  else if String.prefix "COPY" query then
    if contains "TO stdout" query then result PGRES_COPY_OUT EmptyString []
    else result PGRES_COPY_IN EmptyString []
  else if String.prefix "CREATE_REPLICATION_SLOT" query then
    result PGRES_TUPLES_OK EmptyString
           [["pgl_postgres_provider_subscriber"; "0/16B3748"; "000003E9-1";
             "pg_logical_output"]]
  else if String.prefix "ROLLBACK" query then rollback
  else if String.prefix "COMMIT" query then commit
  else result PGRES_FATAL_ERROR "syntax error" [].

Definition done : PGresult := result PGRES_COMMAND_OK EmptyString [].

(** [tool]: what the tools print as their version; [rows]: the rows of a
    table, found by its COPY statement; [put]: the answer of the target to
    a row. *)
Definition a_world (tool : VersionProbe) (rollback commit : PGresult)
    (tables : list (list string)) (rows : string -> list string * CopyEnd)
    (put : string -> Z) : world :=
  {| PG_VERSION_NUM := 90405;
     EXTENSION_NAME := "pglogical";
     EXE := EmptyString;
     MAXPGPATH := 1024;
     my_exec_path := "/usr/lib/postgresql/9.4/bin/postgres";
     w_PQescapeIdentifier := fun _ => escape_identifier;
     w_PQescapeLiteral := fun _ => escape_literal;
     gen_slot_name := slot_name_of;
     pg_lsn_in := lsn_in;
     w_args_in_order := fun _ => false;
     w_find_my_exec := fun _ _ => Some "/usr/lib/postgresql/9.4/bin";
     w_popen_version := fun _ _ => tool;
     w_system := fun _ _ => 0;
     w_strerror := fun _ => "No such file or directory";
     w_PQconnectdb := fun h _ => S (List.length (filter is_connect h));
     w_PQstatus := fun _ _ => CONNECTION_OK;
     w_PQerrorMessage := fun _ _ => "server closed the connection unexpectedly";
     w_PQexec := fun _ _ q => exec rollback commit tables q;
     w_copy_out_rows := fun h _ => rows (last_copy_out h EmptyString);
     w_PQputCopyData := fun _ _ buf _ => put buf;
     w_PQputCopyEnd := fun _ _ => 1;
     w_interrupts := fun _ => None;
     w_get_database_name := fun _ => "postgres";
     w_replorigin_by_name := fun _ _ => 0;
     w_replorigin_create := fun _ _ => 1;
     w_XactLastCommitEnd := fun _ => 0 |}.

Definition provider (st : NodeStatus) : PGLogicalNode :=
  {| node_id := 1; node_name := "provider"; node_role := NODE_ROLE_ORIGIN;
     node_status := st; node_dsn := "host=origin dbname=postgres" |}.

Definition subscriber (st : NodeStatus) : PGLogicalNode :=
  {| node_id := 2; node_name := "subscriber"; node_role := NODE_ROLE_SUBSCRIBER;
     node_status := st; node_dsn := "host=target dbname=postgres" |}.

Definition connection (st : NodeStatus) (sets : list string) : PGLogicalConnection :=
  {| origin := provider NODE_STATUS_READY;
     target := subscriber st;
     replication_sets := map Build_PGLogicalRepSet sets |}.

(** The origin of the spec's scenario: accounts with three rows, orders
    with none. *)
Definition two_tables : list (list string) :=
  [["public"; "accounts"]; ["public"; "orders"]].

Definition table_rows (copy_statement : string) : list string * CopyEnd :=
  if contains "accounts" copy_statement
  then (["alice" +++ nl; "bob" +++ nl; "carol" +++ nl], COPY_DONE)
  else ([], COPY_DONE).

Definition healthy : world :=
  a_world (PROBE_VERSION 9 4) done done two_tables table_rows (fun _ => 1).

(** The tools of the previous major release next to a 9.4 server. *)
Definition old_tools : world :=
  a_world (PROBE_VERSION 9 3) done done two_tables table_rows (fun _ => 1).

(** The connection to the target drops while the second row of orders is
    written. *)
Definition order_rows (copy_statement : string) : list string * CopyEnd :=
  if contains "accounts" copy_statement
  then (["alice" +++ nl; "bob" +++ nl; "carol" +++ nl], COPY_DONE)
  else (["widget" +++ nl; "gadget" +++ nl; "gizmo" +++ nl], COPY_DONE).

Definition dropped : world :=
  a_world (PROBE_VERSION 9 4) done done two_tables order_rows
          (fun buf => if String.eqb buf ("gadget" +++ nl) then -1 else 1).

(** The origin fails after the first row of orders. *)
Definition cut_rows (copy_statement : string) : list string * CopyEnd :=
  if contains "accounts" copy_statement
  then (["alice" +++ nl; "bob" +++ nl; "carol" +++ nl], COPY_DONE)
  else (["widget" +++ nl], COPY_FAILED).

Definition origin_cut : world :=
  a_world (PROBE_VERSION 9 4) done done two_tables cut_rows (fun _ => 1).

(** A session that has lost its server answers every command with an
    error. *)
Definition refused : PGresult :=
  result PGRES_FATAL_ERROR "no connection to the server" [].

Definition rollback_refused : world :=
  a_world (PROBE_VERSION 9 4) refused done two_tables table_rows (fun _ => 1).

Definition commit_refused : world :=
  a_world (PROBE_VERSION 9 4) done refused two_tables table_rows (fun _ => 1).

End Scenario.

(** ** Vocabulary of the statements *)

(** The error of the entry guard of [pglogical_init_replica]. *)
Definition nonrecoverable_error : ErrorData :=
  {| elevel := ERROR; message := nonrecoverable; detail := EmptyString |}.

(** The major version of the running server: the first two numbers of
    PG_VERSION_NUM. *)
Definition server_major (w : world) : Z * Z :=
  (PG_VERSION_NUM w / 10000, PG_VERSION_NUM w / 100 mod 100).

(** The error of the version check for a tool that printed
    [pre_dot.post_dot]. *)
Definition wrong_major_error (w : world) (tool : string) (pre_dot post_dot : Z) : ErrorData :=
  {| elevel := ERROR;
     message := wrong_major_version w tool (to_uint32 ((pre_dot * 100 + post_dot) * 100));
     detail := EmptyString |}.


(** The elements of the text between the braces of a one-dimensional array
    literal with no quoting, as the server reads it: the pieces between the
    commas. *)
Fixpoint array_items (body : string) : list string :=
  match body with
  | EmptyString => [EmptyString]
  | String c body' =>
      if Ascii.eqb c ","%char then EmptyString :: array_items body'
      else match array_items body' with
           | x :: l => String c x :: l
           | [] => [String c EmptyString]
           end
  end.


(** Classes of events. *)
Definition is_exec (e : event) : bool :=
  match e with EvPQexec _ _ _ => true | _ => false end.

Definition is_rollback (e : event) : bool :=
  match e with EvPQexec _ q _ => String.eqb q "ROLLBACK" | _ => false end.

Definition is_set_status (e : event) : bool :=
  match e with EvSetNodeStatus _ _ => true | _ => false end.

Definition is_advance (e : event) : bool :=
  match e with EvReplOriginAdvance _ _ _ _ _ => true | _ => false end.

Definition is_not (P : event -> bool) : event -> bool := fun e => negb (P e).

(** The statuses written by [set_node_status], in the order of writing. *)
Fixpoint statuses (evs : list event) : list NodeStatus :=
  match evs with
  | [] => []
  | EvSetNodeStatus _ s :: evs' => s :: statuses evs'
  | _ :: evs' => statuses evs'
  end.

(** [value] went through an escaping primitive of session [c] and the
    result is part of [query]. *)
Definition escaped_in (evs : list event) (c : PGconn) (value query : string) : Prop :=
  exists esc,
    (In (EvPQescapeIdentifier c value esc) evs \/ In (EvPQescapeLiteral c value esc) evs)
    /\ contains esc query = true.


(** A failure at the level of a chunk of a streamed copy: PQgetCopyData
    that ends the loop with anything but -1, PQputCopyData or PQputCopyEnd
    that does not return 1. *)
Definition chunk_failure (e : event) : bool :=
  match e with
  | EvPQgetCopyData _ bytes _ => (bytes <=? 0)%Z && negb (bytes =? -1)%Z
  | EvPQputCopyData _ _ _ res => negb (res =? 1)%Z
  | EvPQputCopyEnd _ res => negb (res =? 1)%Z
  | _ => false
  end.

(** The session on which the chunk failed. *)
Definition chunk_session (e : event) : PGconn :=
  match e with
  | EvPQgetCopyData c _ _ | EvPQputCopyData c _ _ _ | EvPQputCopyEnd c _ => c
  | _ => 0%nat
  end.

(** The error reported for a failed chunk, [text] being the error message
    of the session. *)
Definition chunk_error (e : event) (text : string) : ErrorData :=
  match e with
  | EvPQgetCopyData _ bytes _ =>
      {| elevel := ERROR;
         message := "reading from origin table failed";
         detail := "source connection returned " +++ fmt_d bytes +++ ": " +++ text |}
  | EvPQputCopyEnd _ _ =>
      {| elevel := ERROR;
         message := "sending copy-completion to destination connection failed";
         detail := "destination connection reported: " +++ text |}
  | _ =>
      {| elevel := ERROR;
         message := "writing to target table failed";
         detail := "destination connection reported: " +++ text |}
  end.

(** Every failed chunk is the last thing that happened but for the reading
    of the error message of its session, and the run ends in the error
    made of that message. *)
Definition aborts_on_chunk_failure : exit_kind -> list event -> Prop :=
  fun x evs =>
    forall f, In f evs -> chunk_failure f = true ->
    exists pre text,
      evs = pre ++ [f; EvPQerrorMessage (chunk_session f) text]
      /\ x = Threw (chunk_error f text).


(** What the finalisation of the copy leaves after a ROLLBACK that
    answered [res]. *)
Definition command_ok (res : PGresult) : bool :=
  ExecStatusType_eqb (PQresultStatus res) PGRES_COMMAND_OK.

Definition rollback_warning (res : PGresult) : list event :=
  if command_ok res then []
  else [EvElog WARNING ("ROLLBACK on origin node failed: " +++ PQresultErrorMessage res)].

Definition commit_failed (res : PGresult) : ErrorData :=
  {| elevel := ERROR;
     message := "COMMIT on target node failed: " +++ PQresultErrorMessage res;
     detail := EmptyString |}.


(** ** Vocabulary of the further properties *)

(** The path of a tool next to the server binary, and the command that
    asks its version, each as its buffer of MAXPGPATH bytes holds it. *)
Definition tool_path (w : world) (dir tool : string) : string :=
  dir +++ snprintf (MAXPGPATH w - Z.of_nat (String.length dir)) ("/" +++ tool +++ EXE w).

Definition version_command (w : world) (path : string) : string :=
  snprintf (MAXPGPATH w) (dq +++ path +++ dq +++ " -V").

(** The error of dump_structure and restore_structure for a tool that was
    not located or whose version was not read. *)
Definition not_found_error (w : world) (tool : string) : ErrorData :=
  {| elevel := ERROR;
     message := "bdr node init failed to find " +++ tool
                +++ " relative to binary " +++ my_exec_path w;
     detail := EmptyString |}.

(** The error for a command that [system] ran with a non-zero status. *)
Definition command_failed (command errno_text : string) : ErrorData :=
  {| elevel := ERROR;
     message := could_not_execute command errno_text;
     detail := EmptyString |}.

(** The tool was not located, printed nothing, or printed no version. *)
Definition tool_not_probed (e : event) : bool :=
  match e with
  | EvFindMyExec _ None => true
  | EvPopen _ PROBE_NO_OUTPUT => true
  | EvPopen _ PROBE_NO_MATCH => true
  | _ => false
  end.

Definition is_system (e : event) : bool :=
  match e with EvSystem _ _ => true | _ => false end.


(** Every event of the class [bad] ends the run: [R] relates what came
    before it, the event, what came after it and how the run ended. *)
Definition ends_run (bad : event -> bool)
    (R : list event -> event -> list event -> exit_kind -> Prop)
    : exit_kind -> list event -> Prop :=
  fun x evs =>
    forall f, In f evs -> bad f = true ->
    exists pre post, evs = pre ++ f :: post /\ R pre f post x.

(** After a probe that failed: nothing more happens, and the run ends in
    the not-found error of the tool that was looked for. *)
Definition probe_failure (w : world)
    : list event -> event -> list event -> exit_kind -> Prop :=
  fun _ f post x =>
    post = []
    /\ exists tool,
         (tool = "pg_dump" \/ tool = "pg_restore")
         /\ x = Threw (not_found_error w tool)
         /\ forall cmd reply, f = EvPopen cmd reply ->
                              exists dir, cmd = version_command w (tool_path w dir tool).


(** A session that did not come up. *)
Definition connection_bad (e : event) : bool :=
  match e with
  | EvPQstatus _ CONNECTION_OK => false
  | EvPQstatus _ _ => true
  | _ => false
  end.

Definition status_session (e : event) : PGconn :=
  match e with EvPQstatus c _ => c | _ => 0%nat end.

(** The FATAL report of pg_connect and pg_connect_replica. *)
Definition could_not_connect (replication : bool) (conninfo text : string) : ErrorData :=
  {| elevel := FATAL;
     message := (if replication
                 then "could not connect to the postgresql server in replication mode: "
                 else "could not connect to the postgresql server: ") +++ text;
     detail := "dsn was: " +++ conninfo |}.

(** After the status of a session that did not come up: the session is
    the one just opened, its error message is read and the run ends in the
    FATAL report that carries this message and the connection string. *)
Definition connection_failure : list event -> event -> list event -> exit_kind -> Prop :=
  fun pre f post x =>
    exists pre' conninfo text replication,
      pre = pre' ++ [EvPQconnectdb conninfo (status_session f)]
      /\ post = [EvPQerrorMessage (status_session f) text]
      /\ x = Threw (could_not_connect replication conninfo text).

(** A reply that is none of the four a statement of the bootstrap can be
    answered with when it worked. *)
Definition statement_failed (res : PGresult) : bool :=
  match PQresultStatus res with
  | PGRES_COMMAND_OK | PGRES_TUPLES_OK | PGRES_COPY_OUT | PGRES_COPY_IN => false
  | _ => true
  end.

(** A statement other than ROLLBACK that failed. *)
Definition failed_statement (e : event) : bool :=
  match e with
  | EvPQexec _ q res => negb (String.eqb q "ROLLBACK") && statement_failed res
  | _ => false
  end.

Definition statement_failure : list event -> event -> list event -> exit_kind -> Prop :=
  fun _ f post x =>
    (post = [] \/ exists c text, post = [EvPQerrorMessage c text])
    /\ exists e, x = Threw e /\ (elevel e = ERROR \/ elevel e = FATAL).


(** The chunks that PQgetCopyData handed over (a positive length), and the
    chunks that were passed to PQputCopyData, each with its length, in the
    order of the calls. *)
Fixpoint chunks_read (evs : list event) : list (string * Z) :=
  match evs with
  | [] => []
  | EvPQgetCopyData _ bytes buffer :: evs' =>
      if (0 <? bytes)%Z then (buffer, bytes) :: chunks_read evs' else chunks_read evs'
  | _ :: evs' => chunks_read evs'
  end.

Fixpoint chunks_written (evs : list event) : list (string * Z) :=
  match evs with
  | [] => []
  | EvPQputCopyData _ buffer nbytes _ :: evs' => (buffer, nbytes) :: chunks_written evs'
  | _ :: evs' => chunks_written evs'
  end.

Definition is_chunk (e : event) : bool :=
  match e with
  | EvPQgetCopyData _ _ _ | EvPQputCopyData _ _ _ _ => true
  | _ => false
  end.

Definition forwarded : exit_kind -> list event -> Prop :=
  fun _ evs => chunks_written evs = chunks_read evs.


(** What one chunk that went through leaves: it is read from the origin,
    written whole to the target and accepted, and no interrupt is
    pending. *)
Definition chunk_events (oc tc : PGconn) (buffer : string) : list event :=
  [EvPQgetCopyData oc (Z.of_nat (String.length buffer)) buffer;
   EvPQputCopyData tc buffer (Z.of_nat (String.length buffer)) 1;
   EvCheckForInterrupts None].

Definition copy_to_statement (s r : string) : string :=
  "COPY " +++ s +++ "." +++ r +++ " TO stdout".

Definition copy_from_statement (s r : string) : string :=
  "COPY " +++ s +++ "." +++ r +++ " FROM stdin".

(** The escaping of the two names of a table on session [oc], in the
    order in which the compiled code makes the two calls. *)
Definition escaped_names (oc : PGconn) (schemaname relname s r : string)
    (in_order : bool) : list event :=
  if in_order
  then [EvPQescapeIdentifier oc schemaname s; EvPQescapeIdentifier oc relname r]
  else [EvPQescapeIdentifier oc relname r; EvPQescapeIdentifier oc schemaname s].

(** The events of copy_table_data up to the start of the stream, for a
    table whose escaped names are [s] and [r]. *)
Definition copy_opening (oc tc : PGconn) (schemaname relname s r : string)
    (order_out order_in : bool) (res_out res_in : PGresult) : list event :=
  escaped_names oc schemaname relname s r order_out
  ++ [EvPQexec oc (copy_to_statement s r) res_out]
  ++ escaped_names oc schemaname relname s r order_in
  ++ [EvPQexec tc (copy_from_statement s r) res_in].

(** The table named by a row of a reply: its first two fields. *)
Definition row_names (rv : RangeVar) : list string := [schemaname rv; relname rv].

Definition no_table_list : ErrorData :=
  {| elevel := ERROR; message := "could not get table list"; detail := EmptyString |}.

(** The FATAL report of a replication command that was not answered with
    rows. *)
Definition slot_command_failed (query : string) (res : PGresult) : ErrorData :=
  {| elevel := FATAL;
     message := "could not send replication command " +++ dq +++ query +++ dq
                +++ ": status " +++ PQresStatus (PQresultStatus res)
                +++ ": " +++ PQresultErrorMessage res +++ nl;
     detail := EmptyString |}.

Definition begin_origin (snapshot : string) : string :=
  "BEGIN TRANSACTION ISOLATION LEVEL REPEATABLE READ, READ ONLY;" +++ nl
  +++ "SET TRANSACTION SNAPSHOT '" +++ snapshot +++ "';" +++ nl
  +++ session_settings.

Definition begin_target : string :=
  "BEGIN TRANSACTION ISOLATION LEVEL READ COMMITTED;" +++ nl
  +++ session_settings.

(** The connection string of pg_connect for a dsn and a connection name. *)
Definition connect_string (dsn name : string) : string :=
  dsn +++ " fallback_application_name='" +++ name +++ "'".

(** The events of the last phase from the writing of READY on, for a
    connection back to the origin that gave session [c] in state [st]. *)
Definition ready_events (w : world) (conn : PGLogicalConnection) (c : PGconn)
    (st : ConnStatusType) (tail : list event) : list event :=
  [EvSetNodeStatus (node_id (target conn)) NODE_STATUS_READY;
   EvPQconnectdb (connect_string (node_dsn (origin conn)) (EXTENSION_NAME w +++ "_init")) c;
   EvPQstatus c st]
  ++ tail.

(** What follows the state of that connection, and how the bootstrap
    ends. *)
Definition ready_outcome (w : world) (conn : PGLogicalConnection) (c : PGconn)
    (st : ConnStatusType) (tail : list event) (r : outcome unit) : Prop :=
  (st = CONNECTION_OK
   /\ tail = [EvSetRemoteNodeStatus c (node_name (target conn)) NODE_STATUS_READY;
              EvPQfinish c;
              EvElog INFO "finished init_replica, ready to enter normal replication"]
   /\ r = Ok tt)
  \/ (st <> CONNECTION_OK
      /\ exists text,
           tail = [EvPQerrorMessage c text]
           /\ r = Raised (could_not_connect false
                            (connect_string (node_dsn (origin conn))
                                            (EXTENSION_NAME w +++ "_init")) text)).

(** The statuses that a bootstrap entered at [st], a phase it can resume
    from, has left to write. *)
Definition resumed_statuses (st : NodeStatus) : list NodeStatus :=
  match st with
  | NODE_STATUS_SLOTS => [NODE_STATUS_CATCHUP; NODE_STATUS_CONNECT_BACK; NODE_STATUS_READY]
  | NODE_STATUS_CATCHUP => [NODE_STATUS_CONNECT_BACK; NODE_STATUS_READY]
  | NODE_STATUS_CONNECT_BACK => [NODE_STATUS_READY]
  | _ => []
  end.

Definition only_subscriber_error : ErrorData :=
  {| elevel := ERROR; message := only_subscriber; detail := EmptyString |}.

Definition is_remote_status (e : event) : bool :=
  match e with EvSetRemoteNodeStatus _ _ _ => true | _ => false end.

Definition is_ready_written (e : event) : bool :=
  match e with EvSetNodeStatus _ NODE_STATUS_READY => true | _ => false end.


(** ** Worlds and connections with a fault *)

Module Faults.

(** A connection whose target has the role of an origin. *)
Definition misassigned (st : NodeStatus) : PGLogicalConnection :=
  {| origin := Scenario.provider NODE_STATUS_READY;
     target := Scenario.provider st;
     replication_sets := [{| repset_name := "default" |}] |}.

(** [base] with sessions in the state [status] and requests to cancel
    answered by [interrupts]. *)
Definition with_sessions (base : world) (status : history -> PGconn -> ConnStatusType)
    (interrupts : history -> option ErrorData) : world :=
  {| PG_VERSION_NUM := PG_VERSION_NUM base;
     EXTENSION_NAME := EXTENSION_NAME base;
     EXE := EXE base;
     MAXPGPATH := MAXPGPATH base;
     my_exec_path := my_exec_path base;
     w_PQescapeIdentifier := w_PQescapeIdentifier base;
     w_PQescapeLiteral := w_PQescapeLiteral base;
     gen_slot_name := gen_slot_name base;
     pg_lsn_in := pg_lsn_in base;
     w_args_in_order := w_args_in_order base;
     w_find_my_exec := w_find_my_exec base;
     w_popen_version := w_popen_version base;
     w_system := w_system base;
     w_strerror := w_strerror base;
     w_PQconnectdb := w_PQconnectdb base;
     w_PQstatus := status;
     w_PQerrorMessage := w_PQerrorMessage base;
     w_PQexec := w_PQexec base;
     w_copy_out_rows := w_copy_out_rows base;
     w_PQputCopyData := w_PQputCopyData base;
     w_PQputCopyEnd := w_PQputCopyEnd base;
     w_interrupts := interrupts;
     w_get_database_name := w_get_database_name base;
     w_replorigin_by_name := w_replorigin_by_name base;
     w_replorigin_create := w_replorigin_create base;
     w_XactLastCommitEnd := w_XactLastCommitEnd base |}.

(** The tools print a line that holds no version. *)
Definition unversioned_tools : world :=
  Scenario.a_world PROBE_NO_MATCH Scenario.done Scenario.done
                   Scenario.two_tables Scenario.table_rows (fun _ => 1).

(** The target cannot be reached: its session, the third to be opened,
    does not come up. *)
Definition target_down : world :=
  with_sessions Scenario.healthy
    (fun _ c => if Nat.eqb c 3 then CONNECTION_BAD else CONNECTION_OK)
    (fun _ => None).

Definition query_canceled : ErrorData :=
  {| elevel := ERROR;
     message := "canceling statement due to user request";
     detail := EmptyString |}.

(** The user cancels once two chunks are written. *)
Definition cancelled : world :=
  with_sessions Scenario.healthy
    (fun _ _ => CONNECTION_OK)
    (fun h => if (2 <=? List.length (chunks_written h))%nat
              then Some query_canceled else None).

(** [base] with statements answered by [exec]. *)
Definition with_statements (base : world)
    (exec : history -> PGconn -> string -> PGresult) : world :=
  {| PG_VERSION_NUM := PG_VERSION_NUM base;
     EXTENSION_NAME := EXTENSION_NAME base;
     EXE := EXE base;
     MAXPGPATH := MAXPGPATH base;
     my_exec_path := my_exec_path base;
     w_PQescapeIdentifier := w_PQescapeIdentifier base;
     w_PQescapeLiteral := w_PQescapeLiteral base;
     gen_slot_name := gen_slot_name base;
     pg_lsn_in := pg_lsn_in base;
     w_args_in_order := w_args_in_order base;
     w_find_my_exec := w_find_my_exec base;
     w_popen_version := w_popen_version base;
     w_system := w_system base;
     w_strerror := w_strerror base;
     w_PQconnectdb := w_PQconnectdb base;
     w_PQstatus := w_PQstatus base;
     w_PQerrorMessage := w_PQerrorMessage base;
     w_PQexec := exec;
     w_copy_out_rows := w_copy_out_rows base;
     w_PQputCopyData := w_PQputCopyData base;
     w_PQputCopyEnd := w_PQputCopyEnd base;
     w_interrupts := w_interrupts base;
     w_get_database_name := w_get_database_name base;
     w_replorigin_by_name := w_replorigin_by_name base;
     w_replorigin_create := w_replorigin_create base;
     w_XactLastCommitEnd := w_XactLastCommitEnd base |}.

(** [base] compiled with another order of evaluation of arguments. *)
Definition with_order (base : world) (in_order : history -> bool) : world :=
  {| PG_VERSION_NUM := PG_VERSION_NUM base;
     EXTENSION_NAME := EXTENSION_NAME base;
     EXE := EXE base;
     MAXPGPATH := MAXPGPATH base;
     my_exec_path := my_exec_path base;
     w_PQescapeIdentifier := w_PQescapeIdentifier base;
     w_PQescapeLiteral := w_PQescapeLiteral base;
     gen_slot_name := gen_slot_name base;
     pg_lsn_in := pg_lsn_in base;
     w_args_in_order := in_order;
     w_find_my_exec := w_find_my_exec base;
     w_popen_version := w_popen_version base;
     w_system := w_system base;
     w_strerror := w_strerror base;
     w_PQconnectdb := w_PQconnectdb base;
     w_PQstatus := w_PQstatus base;
     w_PQerrorMessage := w_PQerrorMessage base;
     w_PQexec := w_PQexec base;
     w_copy_out_rows := w_copy_out_rows base;
     w_PQputCopyData := w_PQputCopyData base;
     w_PQputCopyEnd := w_PQputCopyEnd base;
     w_interrupts := w_interrupts base;
     w_get_database_name := w_get_database_name base;
     w_replorigin_by_name := w_replorigin_by_name base;
     w_replorigin_create := w_replorigin_create base;
     w_XactLastCommitEnd := w_XactLastCommitEnd base |}.

Definition denied : PGresult :=
  Scenario.result PGRES_FATAL_ERROR "permission denied for relation accounts" [].

(** The target does not let the tables be written. *)
Definition read_only_target : world :=
  with_statements Scenario.healthy
    (fun h c q => if contains "FROM stdin" q then denied
                  else w_PQexec Scenario.healthy h c q).

End Faults.


(** The connection string of pg_connect_replica. *)
Definition replication_string (dsn name : string) : string :=
  dsn +++ " replication=database fallback_application_name='" +++ name +++ "'".

(** The opening and the closing of a session. *)
Definition is_session (e : event) : bool :=
  match e with
  | EvPQconnectdb _ _ | EvPQfinish _ => true
  | _ => false
  end.

(** The sessions of a copy that returns: both are opened, the origin
    first, then both are closed, the origin first. *)
Definition copy_sessions (w : world) (conn : PGLogicalConnection) (oc tc : PGconn)
    : list event :=
  [EvPQconnectdb (connect_string (node_dsn (origin conn)) (EXTENSION_NAME w +++ "_init")) oc;
   EvPQconnectdb (connect_string (node_dsn (target conn)) (EXTENSION_NAME w +++ "_init")) tc;
   EvPQfinish oc;
   EvPQfinish tc].


(** What outlasts a bootstrap that fails: a status written, the advance
    of the replication origin and the commit that makes it durable, a
    command run by [system], the status set on the origin. *)
Definition is_durable (e : event) : bool :=
  match e with
  | EvSetNodeStatus _ _ | EvSetRemoteNodeStatus _ _ _
  | EvReplOriginAdvance _ _ _ _ _ | EvCommitTransactionCommand
  | EvSystem _ _ => true
  | _ => false
  end.

(** The error of copy_table_data for a COPY statement that was not
    accepted. *)
Definition table_copy_error (query text : string) : ErrorData :=
  {| elevel := ERROR;
     message := "table copy failed";
     detail := "Query '" +++ query +++ "': " +++ text |}.

(** The three connection strings of a bootstrap. *)
Definition bootstrap_conninfo (w : world) (conn : PGLogicalConnection) : list string :=
  [replication_string (node_dsn (origin conn)) (EXTENSION_NAME w +++ "_snapshot");
   connect_string (node_dsn (origin conn)) (EXTENSION_NAME w +++ "_init");
   connect_string (node_dsn (target conn)) (EXTENSION_NAME w +++ "_init")].

Definition connects_within (known : list string) : exit_kind -> list event -> Prop :=
  fun _ evs => forall conninfo c, In (EvPQconnectdb conninfo c) evs -> In conninfo known.


(** Every event of the class [mark] comes right after events of which [R]
    holds. *)
Definition each_preceded (mark : event -> bool) (R : list event -> Prop)
    : exit_kind -> list event -> Prop :=
  fun _ evs => forall pre f post, evs = pre ++ f :: post -> mark f = true -> R pre.

Definition is_copy_end (e : event) : bool :=
  match e with EvPQputCopyEnd _ _ => true | _ => false end.

(** The origin has just ended its stream: the last PQgetCopyData gave
    -1. *)
Definition stream_ended (pre : list event) : Prop :=
  exists pre' oc buffer, pre = pre' ++ [EvPQgetCopyData oc (-1) buffer].

(** Status writes on the target node only, and READY only on the
    origin. *)
Definition is_status_event (e : event) : bool :=
  match e with
  | EvSetNodeStatus _ _ | EvSetRemoteNodeStatus _ _ _ => true
  | _ => false
  end.

Definition status_of_target (conn : PGLogicalConnection) : exit_kind -> list event -> Prop :=
  fun _ evs =>
    (forall nodeid s, In (EvSetNodeStatus nodeid s) evs -> nodeid = node_id (target conn))
    /\ (forall c nodename s,
          In (EvSetRemoteNodeStatus c nodename s) evs ->
          nodename = node_name (target conn) /\ s = NODE_STATUS_READY).


(** The statuses of the state machine in its order, and those that come
    after a status. *)
Definition all_statuses : list NodeStatus :=
  [NODE_STATUS_INIT; NODE_STATUS_SYNC_SCHEMA; NODE_STATUS_SLOTS;
   NODE_STATUS_CATCHUP; NODE_STATUS_CONNECT_BACK; NODE_STATUS_READY].

Definition later_statuses (st : NodeStatus) : list NodeStatus :=
  filter (fun s => (status_rank st <? status_rank s)%nat) all_statuses.


(** ** Where interrupts are checked *)

(** A chunk or an end of copy that the target accepted. *)
Definition accepted_write (e : event) : bool :=
  match e with
  | EvPQputCopyData _ _ _ res | EvPQputCopyEnd _ res => (res =? 1)%Z
  | _ => false
  end.

Definition is_check (e : event) : bool :=
  match e with EvCheckForInterrupts _ => true | _ => false end.

(** A request to cancel or to terminate found pending. *)
Definition interrupt_pending (e : event) : bool :=
  match e with EvCheckForInterrupts (Some _) => true | _ => false end.

Definition is_write_or_check (e : event) : bool :=
  match e with
  | EvPQputCopyData _ _ _ _ | EvPQputCopyEnd _ _ | EvCheckForInterrupts _ => true
  | _ => false
  end.

(** Of every event of the class [mark], [R] holds with what comes after
    it and how the run ends. *)
Definition each_followed (mark : event -> bool)
    (R : event -> list event -> exit_kind -> Prop) : exit_kind -> list event -> Prop :=
  fun x evs => forall pre f post, evs = pre ++ f :: post -> mark f = true -> R f post x.

(** The next event is a check for interrupts. *)
Definition check_follows : event -> list event -> exit_kind -> Prop :=
  fun _ post _ => exists raised post', post = EvCheckForInterrupts raised :: post'.

(** The last event is a write that the target accepted. *)
Definition after_write (pre : list event) : Prop :=
  exists pre' p, pre = pre' ++ [p] /\ accepted_write p = true.

(** Nothing follows, and the run ends in the error of the request. *)
Definition request_raised : event -> list event -> exit_kind -> Prop :=
  fun f post x => post = [] /\ forall e, f = EvCheckForInterrupts (Some e) -> x = Threw e.

Definition checks_interrupts : exit_kind -> list event -> Prop :=
  fun x evs =>
    each_followed accepted_write check_follows x evs
    /\ each_preceded is_check after_write x evs
    /\ each_followed interrupt_pending request_raised x evs.


(** ** The dialogue with the sessions *)

(** What passes between the bootstrap and its sessions: a session is
    opened with a connection string, a statement is sent on a session, a
    session is closed. *)
Inductive exchange : Type :=
| Opened (conninfo : string) (c : PGconn)
| Sent (c : PGconn) (query : string)
| Closed (c : PGconn).

Fixpoint dialogue (evs : list event) : list exchange :=
  match evs with
  | [] => []
  | EvPQconnectdb conninfo c :: evs' => Opened conninfo c :: dialogue evs'
  | EvPQexec c q _ :: evs' => Sent c q :: dialogue evs'
  | EvPQfinish c :: evs' => Closed c :: dialogue evs'
  | _ :: evs' => dialogue evs'
  end.

Definition is_dialogue (e : event) : bool :=
  match e with
  | EvPQconnectdb _ _ | EvPQexec _ _ _ | EvPQfinish _ => true
  | _ => false
  end.

(** The two statements that copy one table, the first on [oc], the second
    on [tc], the names escaped on [oc]. *)
Definition table_exchange (w : world) (oc tc : PGconn) (rv : RangeVar) : list exchange :=
  let s := w_PQescapeIdentifier w oc (schemaname rv) in
  let r := w_PQescapeIdentifier w oc (relname rv) in
  [Sent oc (copy_to_statement s r); Sent tc (copy_from_statement s r)].

(** The dialogue of a copy of [tables] that returns: [oc] is the session
    opened on the dsn of the origin, [tc] the one opened on the dsn of the
    target. *)
Definition copy_dialogue (w : world) (conn : PGLogicalConnection) (snapshot : string)
    (oc tc : PGconn) (tables : list RangeVar) : list exchange :=
  [Opened (connect_string (node_dsn (origin conn)) (EXTENSION_NAME w +++ "_init")) oc;
   Sent oc (begin_origin snapshot);
   Sent oc (copy_tables_query w (w_PQescapeLiteral w oc (repsetarr (replication_sets conn))));
   Opened (connect_string (node_dsn (target conn)) (EXTENSION_NAME w +++ "_init")) tc;
   Sent tc begin_target]
  ++ flat_map (table_exchange w oc tc) tables
  ++ [Sent oc "ROLLBACK"; Closed oc; Sent tc "COMMIT"; Closed tc].

(** ** The steps of the schema synchronisation *)

(** The events of the search for a tool and of its run. *)
Definition is_tool_event (e : event) : bool :=
  match e with
  | EvFindMyExec _ _ | EvPopen _ _ | EvSystem _ _ | EvStrerror _ => true
  | _ => false
  end.


(** The transfer of the rows. *)
Definition is_row_copy (e : event) : bool :=
  match e with
  | EvPQgetCopyData _ _ _ | EvPQputCopyData _ _ _ _ | EvPQputCopyEnd _ _ => true
  | _ => false
  end.

(** The work of the schema synchronisation: tools and rows. *)
Definition is_sync_work (e : event) : bool := is_tool_event e || is_row_copy e.

(** The events of a copy: calls on libpq, checks for interrupts, and the
    warning of a ROLLBACK that failed. *)
Definition is_copy_event (e : event) : bool :=
  match e with
  | EvPQconnectdb _ _ | EvPQstatus _ _ | EvPQerrorMessage _ _ | EvPQfinish _
  | EvPQexec _ _ _ | EvPQescapeIdentifier _ _ _ | EvPQescapeLiteral _ _ _
  | EvPQgetCopyData _ _ _ | EvPQputCopyData _ _ _ _ | EvPQputCopyEnd _ _
  | EvCheckForInterrupts _ | EvElog WARNING _ => true
  | _ => false
  end.

(** A COMMIT that succeeded. *)
Definition is_committed (e : event) : bool :=
  match e with
  | EvPQexec _ q res => String.eqb q "COMMIT" && command_ok res
  | _ => false
  end.






(** The events of a copy that returned: its dialogue is that of the copy
    of the tables that the reply to the query for the tables names. *)
Definition copy_finished (w : world) (conn : PGLogicalConnection) (snapshot : string)
    (e : list event) : Prop :=
  forallb is_copy_event e = true
  /\ exists oc tc reply tables,
       dialogue e = copy_dialogue w conn snapshot oc tc tables
       /\ In (EvPQexec oc (copy_tables_query w (w_PQescapeLiteral w oc
                             (repsetarr (replication_sets conn)))) reply) e
       /\ map row_names tables = map (firstn 2) (PQtuples reply).






(** * Theorems *)

(** ** Reasoning about runs *)

Section Runs.

Lemma bind_run {A B} (m : M A) (f : A -> M B) (h : history) :
  bind m f h =
  match m h with
  | (Ok a, e1) => let (r, e2) := f a (h ++ e1) in (r, e1 ++ e2)
  | (Raised x, e1) => (Raised x, e1)
  | (Crashed, e1) => (Crashed, e1)
  end.
Proof. reflexivity. Qed.

(** A run of [m ;; f] either went through [m] and on into [f], or stopped
    in [m]. *)
Lemma bind_inv {A B} (m : M A) (f : A -> M B) h r evs :
  bind m f h = (r, evs) ->
  (exists a e1 e2, m h = (Ok a, e1) /\ f a (h ++ e1) = (r, e2) /\ evs = e1 ++ e2)
  \/ (exists x, m h = (Raised x, evs) /\ r = Raised x)
  \/ (m h = (Crashed, evs) /\ r = Crashed).
Proof.
  rewrite bind_run. destruct (m h) as [[a|x|] e1].
  - destruct (f a (h ++ e1)) as [r' e2] eqn:E. intros [= <- <-].
    left. exists a, e1, e2. auto.
  - intros [= <- <-]. right. left. exists x. auto.
  - intros [= <- <-]. right. right. auto.
Qed.

End Runs.

Section Sat.

Variable Q : exit_kind -> list event -> Prop.
Hypothesis Qseq : sequential Q.

Lemma sat_ret {A} (a : A) : sat Q (ret a).
Proof. intros h. apply (seq_nil _ Qseq). Qed.

Lemma sat_bind {A B} (m : M A) (f : A -> M B) :
  sat Q m -> (forall a, sat Q (f a)) -> sat Q (bind m f).
Proof.
  intros Hm Hf h. rewrite bind_run. specialize (Hm h).
  destruct (m h) as [[a|x|] e1]; cbn in *; auto.
  specialize (Hf a (h ++ e1)). destruct (f a (h ++ e1)) as [r e2]; cbn in *.
  apply (seq_app _ Qseq); auto.
Qed.

Lemma sat_foreach {A} (l : list A) (body : A -> M unit) :
  (forall x, sat Q (body x)) -> sat Q (foreach l body).
Proof.
  intros Hb. induction l as [|x l IH]; cbn [foreach].
  - apply sat_ret.
  - apply sat_bind; auto.
Qed.

End Sat.

Section Emits.

Variable P : event -> bool.

Lemma QP_sequential : sequential (all_events P).
Proof.
  split; unfold all_events; [reflexivity|].
  intros e1 e2 _ H1 H2. rewrite forallb_app, H1, H2. reflexivity.
Qed.

Lemma emits_ret {A} (a : A) : emits P (ret a).
Proof. intros h. reflexivity. Qed.

Lemma emits_raise {A} e : emits P (@raise A e).
Proof. intros h. reflexivity. Qed.

Lemma emits_crash {A} : emits P (@crash A).
Proof. intros h. reflexivity. Qed.

Lemma emits_ask {A} (f : history -> A) : emits P (ask f).
Proof. intros h. reflexivity. Qed.

Lemma emits_emit e : P e = true -> emits P (emit e).
Proof. intros H h. cbn. rewrite H. reflexivity. Qed.

Lemma emits_call {A} (f : history -> A) (ev : A -> event) :
  (forall a, P (ev a) = true) -> emits P (call f ev).
Proof. intros H h. cbn. rewrite H. reflexivity. Qed.

Lemma emits_bind {A B} (m : M A) (f : A -> M B) :
  emits P m -> (forall a, emits P (f a)) -> emits P (bind m f).
Proof. intros Hm Hf. apply (sat_bind (all_events P) QP_sequential m f Hm Hf). Qed.

Lemma emits_foreach {A} (l : list A) (body : A -> M unit) :
  (forall x, emits P (body x)) -> emits P (foreach l body).
Proof. intros Hb. apply (sat_foreach (all_events P) QP_sequential l body Hb). Qed.

Lemma emits_run {A} (m : M A) h r evs :
  emits P m -> m h = (r, evs) -> forallb P evs = true.
Proof. intros Hm E. specialize (Hm h). rewrite E in Hm. exact Hm. Qed.

Lemma emits_In {A} (m : M A) h r evs e :
  emits P m -> m h = (r, evs) -> In e evs -> P e = true.
Proof.
  intros Hm E Hin. pose proof (emits_run m h r evs Hm E) as Hall.
  rewrite forallb_forall in Hall. auto.
Qed.

End Emits.

(** One step of a proof of [emits]: split a sequence, open a branch, or
    close a call. *)
Ltac emits_step :=
  match goal with
  | |- emits _ (bind _ _) => apply emits_bind; [ | intros ]
  | |- emits _ (ret _) => apply emits_ret
  | |- emits _ (raise _) => apply emits_raise
  | |- emits _ crash => apply emits_crash
  | |- emits _ (ask _) => apply emits_ask
  | |- emits _ (emit _) => apply emits_emit; reflexivity
  | |- emits _ (call _ _) => apply emits_call; intros; reflexivity
  | |- emits _ (foreach _ _) => apply emits_foreach; intros
  | |- emits _ (match ?x with _ => _ end) => destruct x
  | |- emits _ (let _ := _ in _) => cbv zeta
  | |- emits _ _ => assumption
  end.

(** ** Stepping through a run *)

Section Steps.

Context {A B : Type}.

Lemma bind_ret_run (a : A) (k : A -> M B) h : bind (ret a) k h = k a h.
Proof.
  rewrite bind_run. cbn. rewrite app_nil_r. destruct (k a h); reflexivity.
Qed.

Lemma bind_raise_run (e : ErrorData) (k : A -> M B) h :
  bind (raise e) k h = (Raised e, []).
Proof. reflexivity. Qed.

Lemma bind_crash_run (k : A -> M B) h : bind crash k h = (Crashed, []).
Proof. reflexivity. Qed.

Lemma bind_call_inv (f : history -> A) (ev : A -> event) (k : A -> M B) h r evs :
  bind (call f ev) k h = (r, evs) ->
  exists a e2, a = f h /\ k a (h ++ [ev a]) = (r, e2) /\ evs = ev a :: e2.
Proof.
  rewrite bind_run. cbn. destruct (k (f h) (h ++ [ev (f h)])) as [r' e2] eqn:E.
  intros [= <- <-]. exists (f h), e2. repeat split. exact E.
Qed.

Lemma bind_ask_inv (f : history -> A) (k : A -> M B) h r evs :
  bind (ask f) k h = (r, evs) -> exists a, a = f h /\ k a h = (r, evs).
Proof.
  rewrite bind_run. cbn. rewrite app_nil_r. destruct (k (f h) h) as [r' e2] eqn:E.
  intros [= <- <-]. exists (f h). repeat split. exact E.
Qed.

Lemma bind_assoc {C} (m : M A) (f : A -> M B) (g : B -> M C) h :
  bind (bind m f) g h = bind m (fun a => bind (f a) g) h.
Proof.
  rewrite !bind_run. destruct (m h) as [[a| |] e1]; try reflexivity.
  rewrite !bind_run. destruct (f a (h ++ e1)) as [[b| |] e2]; try reflexivity.
  rewrite <- app_assoc. destruct (g b (h ++ e1 ++ e2)) as [r e3].
  rewrite <- app_assoc. reflexivity.
Qed.

End Steps.

Lemma bind_emit_inv {B} (e : event) (k : unit -> M B) h r evs :
  bind (emit e) k h = (r, evs) ->
  exists e2, k tt (h ++ [e]) = (r, e2) /\ evs = e :: e2.
Proof.
  rewrite bind_run. cbn. destruct (k tt (h ++ [e])) as [r' e2].
  intros [= <- <-]. exists e2. auto.
Qed.

Lemma ret_inv {A} (a : A) h r evs : ret a h = (r, evs) -> r = Ok a /\ evs = [].
Proof. intros [= <- <-]. auto. Qed.

Lemma raise_inv {A} e h (r : outcome A) evs :
  raise e h = (r, evs) -> r = Raised e /\ evs = [].
Proof. intros [= <- <-]. auto. Qed.

Lemma crash_inv {A} h (r : outcome A) evs :
  crash h = (r, evs) -> r = Crashed /\ evs = [].
Proof. intros [= <- <-]. auto. Qed.

Lemma emit_inv e h r evs : emit e h = (r, evs) -> r = Ok tt /\ evs = [e].
Proof. intros [= <- <-]. auto. Qed.

Lemma call_inv {A} (f : history -> A) ev h r evs :
  call f ev h = (r, evs) -> exists a, a = f h /\ r = Ok a /\ evs = [ev a].
Proof. intros [= <- <-]. exists (f h). repeat split. Qed.

(** One step along the hypothesis [H : m h = (r, evs)]: the head of [m]
    is consumed, its answer is named, and [H] speaks of the rest. *)
Ltac step H :=
  let e := fresh "e" in
  lazymatch type of H with
  | bind (bind _ _) _ _ = _ => rewrite bind_assoc in H
  | bind (ret _) _ _ = _ => rewrite bind_ret_run in H
  | bind (ask _) _ _ = _ =>
      let a := fresh "a" in
      let Ha := fresh "A" in
      apply bind_ask_inv in H; destruct H as (a & Ha & H)
  | bind (raise _) _ _ = _ => rewrite bind_raise_run in H
  | bind crash _ _ = _ => rewrite bind_crash_run in H
  | bind (call _ _) _ _ = _ =>
      let a := fresh "a" in
      let Ha := fresh "A" in
      apply bind_call_inv in H; destruct H as (a & e & Ha & H & ->)
  | bind (emit _) _ _ = _ =>
      apply bind_emit_inv in H; destruct H as (e & H & ->)
  | bind (match ?x with _ => _ end) _ _ = _ =>
      let E := fresh "E" in
      destruct x eqn:E; try discriminate E; try (cbn in E; discriminate E)
  | (match ?x with _ => _ end) _ = _ =>
      let E := fresh "E" in
      destruct x eqn:E; try discriminate E; try (cbn in E; discriminate E)
  | ret _ _ = _ => apply ret_inv in H; destruct H as (-> & ->)
  | raise _ _ = _ => apply raise_inv in H; destruct H as (-> & ->)
  | crash _ = _ => apply crash_inv in H; destruct H as (-> & ->)
  | emit _ _ = _ => apply emit_inv in H; destruct H as (-> & ->)
  | call _ _ _ = _ =>
      let a := fresh "a" in
      let Ha := fresh "A" in
      apply call_inv in H; destruct H as (a & Ha & -> & ->)
  | (_, _) = (_, _) => injection H as <- <-
  | bind _ _ _ = _ =>
      let R := fresh "R" in
      let a := fresh "a" in
      let e1 := fresh "e" in
      let x := fresh "x" in
      apply bind_inv in H;
      destruct H as [(a & e1 & e & R & H & ->) | [(x & R & ->) | (R & ->)]]
  end; cbv beta in *.

Ltac steps H := repeat (step H).

(** Case analysis on a membership in an explicit list of events. *)
Ltac in_cases Hin :=
  repeat match type of Hin with
         | _ \/ _ => destruct Hin as [Hin|Hin]
         | False => destruct Hin
         | ?x = ?y =>
             first [ is_var y; subst y | is_var x; subst x
                   | discriminate Hin | injection Hin as; subst ]
         end.

(** ** The entry guard *)

(** C10: entered with status READY, pglogical_init_replica raises the
    non-recoverable error and performs no action at all: no event is
    emitted, so no phase has run. *)
Theorem ready_entry_is_rejected (w : world) (conn : PGLogicalConnection) (h : history) :
  node_status (target conn) = NODE_STATUS_READY ->
  pglogical_init_replica w conn h = (Raised nonrecoverable_error, []).
Proof.
  intros Hst. unfold pglogical_init_replica. rewrite Hst. reflexivity.
Qed.

Lemma ready_entry_is_rejected_witness :
  node_status (target (Scenario.connection NODE_STATUS_READY ["default"]))
  = NODE_STATUS_READY
  /\ pglogical_init_replica Scenario.healthy
       (Scenario.connection NODE_STATUS_READY ["default"]) []
     = (Raised nonrecoverable_error, []).
Proof.
  split; [reflexivity | apply ready_entry_is_rejected; reflexivity].
Defined.

(** C1, as the code has it: entered with status SYNC_SCHEMA,
    pglogical_init_replica raises the non-recoverable error and performs
    no action; SYNC_SCHEMA is not among the statuses it resumes from. *)
Theorem sync_schema_entry_is_rejected (w : world) (conn : PGLogicalConnection) (h : history) :
  node_status (target conn) = NODE_STATUS_SYNC_SCHEMA ->
  pglogical_init_replica w conn h = (Raised nonrecoverable_error, []).
Proof.
  intros Hst. unfold pglogical_init_replica. rewrite Hst. reflexivity.
Qed.

Lemma sync_schema_entry_is_rejected_witness :
  node_status (target (Scenario.connection NODE_STATUS_SYNC_SCHEMA ["default"]))
  = NODE_STATUS_SYNC_SCHEMA
  /\ pglogical_init_replica Scenario.healthy
       (Scenario.connection NODE_STATUS_SYNC_SCHEMA ["default"])
       [EvSetNodeStatus 2 NODE_STATUS_SYNC_SCHEMA]
     = (Raised nonrecoverable_error, []).
Proof.
  split; [reflexivity | apply sync_schema_entry_is_rejected; reflexivity].
Defined.

(** C1 as stated fails: a node whose persisted status is SYNC_SCHEMA is not
    resumed; the invocation ends in the non-recoverable error, with nothing
    done. *)
Lemma sync_schema_entry_not_resumed :
  let run := pglogical_init_replica Scenario.healthy
               (Scenario.connection NODE_STATUS_SYNC_SCHEMA ["default"]) [] in
  fst run = Raised nonrecoverable_error /\ snd run = []
  /\ fst run <> Ok tt.
Proof. vm_compute. repeat split. discriminate. Qed.

(** ** The version check of the dump and restore tools *)

Lemma major_version_check (pre_dot post_dot pg : Z) :
  0 <= pre_dot -> 0 <= post_dot < 100 ->
  (pre_dot * 100 + post_dot) * 100 < 2 ^ 31 ->
  (to_uint32 ((pre_dot * 100 + post_dot) * 100) / 100 =? pg / 100)%Z = true ->
  (pre_dot, post_dot) = (pg / 10000, pg / 100 mod 100).
Proof.
  intros Hpre Hpost Hsmall Heq. apply Z.eqb_eq in Heq.
  assert (Hint : 2 ^ 31 < 2 ^ 32) by reflexivity.
  unfold to_uint32 in Heq. rewrite Z.mod_small in Heq by lia.
  rewrite Z.div_mul in Heq by lia.
  replace (pg / 10000) with (pg / 100 / 100) by (rewrite Z.div_div by lia; reflexivity).
  rewrite <- Heq. f_equal.
  - rewrite Z.div_add_l by lia. rewrite Z.div_small by lia. lia.
  - rewrite Z.add_comm, Z.mod_add by lia. rewrite Z.mod_small by lia. reflexivity.
Qed.

(** C5: when the version [pre_dot.post_dot] printed by the located tool
    (two numbers as PostgreSQL numbers its releases: a second number below
    100, and [(pre_dot * 100 + post_dot) * 100] within an [int]) differs
    from the server's major version, dump_structure raises the
    wrong-major-version error having only looked for the tool and asked its
    version: no command was run through [system] and no status was
    written.  The same holds for restore_structure. *)
Theorem tool_major_mismatch_is_fatal (w : world) (conn : PGLogicalConnection)
    (snapshot section : string) (h : history) (pre_dot post_dot : Z) :
  0 <= pre_dot -> 0 <= post_dot < 100 ->
  (pre_dot * 100 + post_dot) * 100 < 2 ^ 31 ->
  (pre_dot, post_dot) <> server_major w ->
  (forall cmd,
     In (EvPopen cmd (PROBE_VERSION pre_dot post_dot))
        (snd (dump_structure w conn snapshot h)) ->
     exists dir,
       dump_structure w conn snapshot h
       = (Raised (wrong_major_error w "pg_dump" pre_dot post_dot),
          [EvFindMyExec (my_exec_path w) (Some dir);
           EvPopen cmd (PROBE_VERSION pre_dot post_dot)]))
  /\
  (forall cmd,
     In (EvPopen cmd (PROBE_VERSION pre_dot post_dot))
        (snd (restore_structure w conn section h)) ->
     exists dir,
       restore_structure w conn section h
       = (Raised (wrong_major_error w "pg_restore" pre_dot post_dot),
          [EvFindMyExec (my_exec_path w) (Some dir);
           EvPopen cmd (PROBE_VERSION pre_dot post_dot)])).
Proof.
  intros Hpre Hpost Hsmall Hdiff. split; intros cmd.
  - destruct (dump_structure w conn snapshot h) as [r evs] eqn:H. cbn [snd].
    unfold dump_structure, find_other_exec_version, find_my_exec, popen_version,
      system, strerror_errno, elog, ereport in H.
    steps H; cbn [In]; intros Hin; in_cases Hin;
      try (exfalso; apply Hdiff; eapply major_version_check; eassumption).
    all: eexists; reflexivity.
  - destruct (restore_structure w conn section h) as [r evs] eqn:H. cbn [snd].
    unfold restore_structure, find_other_exec_version, find_my_exec, popen_version,
      system, strerror_errno, elog, ereport in H.
    steps H; cbn [In]; intros Hin; in_cases Hin;
      try (exfalso; apply Hdiff; eapply major_version_check; eassumption).
    all: eexists; reflexivity.
Qed.

Lemma tool_major_mismatch_is_fatal_witness :
  let w := Scenario.old_tools in
  let conn := Scenario.connection NODE_STATUS_INIT ["default"] in
  let asked tool :=
    EvPopen (dq +++ "/usr/lib/postgresql/9.4/bin" +++ "/" +++ tool +++ dq +++ " -V")
            (PROBE_VERSION 9 3) in
  (9, 3) <> server_major w
  /\ (exists dir,
        dump_structure w conn "000003E9-1" []
        = (Raised (wrong_major_error w "pg_dump" 9 3),
           [EvFindMyExec (my_exec_path w) (Some dir); asked "pg_dump"]))
  /\ (exists dir,
        restore_structure w conn "pre-data" []
        = (Raised (wrong_major_error w "pg_restore" 9 3),
           [EvFindMyExec (my_exec_path w) (Some dir); asked "pg_restore"])).
Proof.
  cbv zeta.
  destruct (tool_major_mismatch_is_fatal Scenario.old_tools
              (Scenario.connection NODE_STATUS_INIT ["default"])
              "000003E9-1" "pre-data" [] 9 3) as [Hd Hr];
    [lia | lia | reflexivity | discriminate | ].
  split; [discriminate | split].
  - apply Hd. right; left; reflexivity.
  - apply Hr. right; left; reflexivity.
Defined.



(** ** The table-selection query *)

Lemma concat_strings_merge (a b : string) (l : list string) :
  concat_strings (a :: b :: l) = concat_strings ((a +++ b) :: l).
Proof.
  cbn [concat_strings]. induction a as [|c a IH]; cbn; [reflexivity|].
  f_equal. exact IH.
Qed.

(** The array literal of two sets is the array literal of the one set
    whose name is the two names put together. *)
Lemma repsetarr_merge (a b : PGLogicalRepSet) (l : list PGLogicalRepSet) :
  repsetarr (a :: b :: l)
  = repsetarr ({| repset_name := repset_name a +++ repset_name b |} :: l).
Proof.
  unfold repsetarr. cbn [map repset_name]. rewrite concat_strings_merge. reflexivity.
Qed.

(** C2, the code at the failing input: for the two replication sets
    default and audit the array literal of get_copy_tables is
    [{defaultaudit}], with the single element defaultaudit; the query sent
    is the query for the one set named defaultaudit, and for every world
    and every list of at least two sets the whole run is the run for the
    list with the first two names merged. *)
Theorem get_copy_tables_merges_set_names :
  let sets := map Build_PGLogicalRepSet ["default"; "audit"] in
  let merged := map Build_PGLogicalRepSet ["defaultaudit"] in
  repsetarr sets = "{defaultaudit}"
  /\ array_items (concat_strings (map repset_name sets)) = ["defaultaudit"]
  /\ array_items "default,audit" = ["default"; "audit"]
  /\ (exists res tables,
        get_copy_tables Scenario.healthy 1%nat sets []
        = (Ok tables,
           [EvPQescapeLiteral 1%nat "{defaultaudit}" "'{defaultaudit}'";
            EvPQexec 1%nat
              "SELECT nspname, relname FROM pglogical.tables WHERE set_name = ANY('{defaultaudit}')"
              res]))
  /\ (forall w origin_conn a b l h,
        get_copy_tables w origin_conn (a :: b :: l) h
        = get_copy_tables w origin_conn
            ({| repset_name := repset_name a +++ repset_name b |} :: l) h).
Proof.
  cbv zeta. repeat split.
  - do 2 eexists. vm_compute. reflexivity.
  - intros. unfold get_copy_tables. rewrite repsetarr_merge. reflexivity.
Qed.

(** ** Which events the copy functions emit *)

Section CopyEvents.

Variable w : world.
Variable P : event -> bool.

Hypothesis P_get : forall c b s, P (EvPQgetCopyData c b s) = true.
Hypothesis P_put : forall c s n r, P (EvPQputCopyData c s n r) = true.
Hypothesis P_end : forall c r, P (EvPQputCopyEnd c r) = true.
Hypothesis P_msg : forall c s, P (EvPQerrorMessage c s) = true.
Hypothesis P_int : forall r, P (EvCheckForInterrupts r) = true.

Lemma copy_rows_emits oc tc rows last : emits P (copy_rows w oc tc rows last).
Proof.
  induction rows as [|buf rows IH]; cbn [copy_rows].
  - apply emits_bind; [apply emits_emit; apply P_get | intros; apply emits_ret].
  - apply emits_bind; [apply emits_emit; apply P_get | intros].
    destruct (0 <? Z.of_nat (String.length buf))%Z; [|apply emits_ret].
    apply emits_bind; [apply emits_call; intros; apply P_put | intros r].
    apply emits_bind.
    { destruct (r =? 1)%Z; [apply emits_ret|].
      apply emits_bind; [apply emits_call; intros; apply P_msg | intros].
      unfold ereport. apply emits_raise. }
    intros. apply emits_bind; [|intros; exact IH].
    unfold CHECK_FOR_INTERRUPTS.
    apply emits_bind; [apply emits_call; intros; apply P_int | intros [e|]].
    + apply emits_raise.
    + apply emits_ret.
Qed.

Lemma result_tables_emits res idx : emits P (result_tables res idx).
Proof.
  induction idx as [|i idx IH]; cbn [result_tables]; [apply emits_ret|].
  destruct (PQgetvalue res i 0); [|apply emits_crash].
  destruct (PQgetvalue res i 1); [|apply emits_crash].
  apply emits_bind; [exact IH | intros; apply emits_ret].
Qed.

End CopyEvents.

(** Proofs of [emits] for the functions of the program. *)
Ltac emits_prog :=
  repeat first
    [ apply copy_rows_emits; intros; reflexivity
    | apply result_tables_emits
    | emits_step
    | progress unfold dump_structure, restore_structure, find_other_exec_version,
        pg_connect, pg_connect_replica, start_copy_origin_tx, start_copy_target_tx,
        copy_table_data, args2, table_copy_failed, get_copy_tables, copy_node_data,
        ensure_replication_slot_snapshot, ensure_replication_origin,
        find_my_exec, popen_version, system, strerror_errno, PQconnectdb,
        PQstatus, PQerrorMessage, PQfinish, PQexec, PQescapeIdentifier,
        PQescapeLiteral, PQputCopyData, PQputCopyEnd, CHECK_FOR_INTERRUPTS,
        StartTransactionCommand, CommitTransactionCommand, get_database_name,
        replorigin_by_name, replorigin_create, replorigin_advance,
        set_node_status, set_remote_node_status, elog, ereport ].

Ltac unfold_calls H :=
  unfold find_my_exec, popen_version, system, strerror_errno, PQconnectdb,
    PQstatus, PQerrorMessage, PQfinish, PQexec, PQescapeIdentifier,
    PQescapeLiteral, PQputCopyData, PQputCopyEnd, CHECK_FOR_INTERRUPTS,
    StartTransactionCommand, CommitTransactionCommand, get_database_name,
    replorigin_by_name, replorigin_create, replorigin_advance,
    set_node_status, set_remote_node_status, table_copy_failed, args2, elog,
    ereport in H.

(** Membership in a list of events built with [::] and [++]. *)
Ltac in_split Hin :=
  repeat first [ rewrite in_app_iff in Hin | progress cbn [In] in Hin ].

(** ** Strings *)

Lemma prefix_append (x b : string) : String.prefix x (x +++ b) = true.
Proof.
  induction x as [|c x IH]; cbn.
  - destruct b; reflexivity.
  - destruct (ascii_dec c c); [exact IH | congruence].
Qed.

Lemma contains_here (x b : string) : contains x (x +++ b) = true.
Proof.
  pose proof (prefix_append x b) as Hp.
  destruct (x +++ b); cbn [contains]; rewrite Hp; reflexivity.
Qed.

Lemma contains_append_r (x a y : string) :
  contains x y = true -> contains x (a +++ y) = true.
Proof.
  intros H. induction a as [|c a IH]; cbn [String.append]; [exact H|].
  cbn [contains]. destruct (String.prefix x (String c (a +++ y))); auto.
Qed.

(** ** How the statements are built *)

Lemma contains_copy_schema (s r d : string) :
  contains s ("COPY " +++ s +++ "." +++ r +++ d) = true.
Proof. apply contains_append_r, contains_here. Qed.

Lemma contains_copy_rel (s r d : string) :
  contains r ("COPY " +++ s +++ "." +++ r +++ d) = true.
Proof. do 3 apply contains_append_r. apply contains_here. Qed.

Lemma contains_copy_tables_query (w : world) (lit : string) :
  contains lit (copy_tables_query w lit) = true.
Proof. unfold copy_tables_query. do 3 apply contains_append_r. apply contains_here. Qed.

(** C9, as the code has it: the statements that embed a schema name, a
    table name or the replication-set names take them from an escaping
    primitive (PQescapeIdentifier for the two names of both COPY
    statements, PQescapeLiteral of the origin session for the array literal
    of the table-selection query; the COPY TO statement is escaped by the
    session that runs it), and the slot-creation command is sent with the
    slot name between double quotes and no escaping primitive called. *)
Theorem statements_embed_escaped_names (w : world) (oc tc : PGconn)
    (schema rel slot : string) (sets : list PGLogicalRepSet) (h : history) :
  (forall c q res,
     In (EvPQexec c q res) (snd (copy_table_data w oc tc schema rel h)) ->
     exists cs direction,
       q = "COPY " +++ w_PQescapeIdentifier w cs schema +++ "."
           +++ w_PQescapeIdentifier w cs rel +++ direction
       /\ escaped_in (snd (copy_table_data w oc tc schema rel h)) cs schema q
       /\ escaped_in (snd (copy_table_data w oc tc schema rel h)) cs rel q
       /\ ((c = oc /\ cs = oc /\ direction = " TO stdout")
           \/ (c = tc /\ direction = " FROM stdin")))
  /\ (forall c q res,
        In (EvPQexec c q res) (snd (get_copy_tables w oc sets h)) ->
        c = oc
        /\ q = copy_tables_query w (w_PQescapeLiteral w oc (repsetarr sets))
        /\ escaped_in (snd (get_copy_tables w oc sets h)) oc (repsetarr sets) q)
  /\ (exists res,
        snd (ensure_replication_slot_snapshot w oc slot h)
        = [EvPQexec oc ("CREATE_REPLICATION_SLOT " +++ dq +++ slot +++ dq
                        +++ " LOGICAL pg_logical_output") res]
        /\ forall c q,
             ~ escaped_in (snd (ensure_replication_slot_snapshot w oc slot h)) c slot q).
Proof.
  split; [|split].
  - intros c q res.
    destruct (copy_table_data w oc tc schema rel h) as [r evs] eqn:H. cbn [snd].
    unfold copy_table_data in H. unfold_calls H.
    assert (Hrows : forall rows last, emits (is_not is_exec) (copy_rows w oc tc rows last))
      by (intros; apply copy_rows_emits; intros; reflexivity).
    steps H; intros Hin; in_split Hin; in_cases Hin;
      try match goal with
          | R : copy_rows _ _ _ _ _ _ = _, Hin : In _ _ |- _ =>
              apply (emits_In _ _ _ _ _ _ (Hrows _ _) R) in Hin; discriminate Hin
          end;
      repeat match goal with
             | A : ?a = w_PQescapeIdentifier _ _ _ |- _ => subst a
             end;
      eexists;
      first [ exists " TO stdout"; split; [reflexivity|]; split; [|split];
              [ eexists; split; [left; cbn [In]; auto 8 | apply contains_copy_schema]
              | eexists; split; [left; cbn [In]; auto 8 | apply contains_copy_rel]
              | left; auto ]
            | exists " FROM stdin"; split; [reflexivity|]; split; [|split];
              [ eexists; split; [left; cbn [In]; auto 8 | apply contains_copy_schema]
              | eexists; split; [left; cbn [In]; auto 8 | apply contains_copy_rel]
              | right; auto ] ].
  - intros c q res.
    destruct (get_copy_tables w oc sets h) as [r evs] eqn:H. cbn [snd].
    unfold get_copy_tables in H. unfold_calls H.
    assert (Htab : forall res idx, emits (is_not is_exec) (result_tables res idx))
      by (intros; apply result_tables_emits).
    steps H; intros Hin; in_split Hin; in_cases Hin;
      try match goal with
          | R : result_tables _ _ _ = _, Hin : In _ _ |- _ =>
              apply (emits_In _ _ _ _ _ _ (Htab _ _) R) in Hin; discriminate Hin
          end;
      repeat match goal with
             | A : ?a = w_PQescapeLiteral _ _ _ |- _ => subst a
             end;
      (split; [reflexivity|]); (split; [reflexivity|]);
      eexists; (split; [right; cbn [In]; auto | apply contains_copy_tables_query]).
  - destruct (ensure_replication_slot_snapshot w oc slot h) as [r evs] eqn:H. cbn [snd].
    unfold ensure_replication_slot_snapshot in H. unfold_calls H.
    steps H; eexists; (split; [reflexivity|]);
      intros c q (esc & [Hin|Hin] & _); in_split Hin; in_cases Hin.
Qed.

Lemma statements_embed_escaped_names_witness :
  let w := Scenario.healthy in
  let copy := copy_table_data w 1%nat 2%nat "public" "orders" [] in
  let select := get_copy_tables w 1%nat (map Build_PGLogicalRepSet ["default"]) [] in
  let copy_to := "COPY " +++ dq +++ "public" +++ dq +++ "." +++ dq +++ "orders" +++ dq
                 +++ " TO stdout" in
  let query := "SELECT nspname, relname FROM pglogical.tables WHERE set_name = ANY('{default}')" in
  In (EvPQexec 1%nat copy_to (Scenario.result PGRES_COPY_OUT EmptyString [])) (snd copy)
  /\ escaped_in (snd copy) 1%nat "public" copy_to
  /\ escaped_in (snd copy) 1%nat "orders" copy_to
  /\ In (EvPQexec 1%nat query
           (Scenario.result PGRES_TUPLES_OK EmptyString Scenario.two_tables))
        (snd select)
  /\ escaped_in (snd select) 1%nat "{default}" query.
Proof.
  cbv zeta.
  destruct (statements_embed_escaped_names Scenario.healthy 1%nat 2%nat
              "public" "orders" "pgl_postgres_provider_subscriber"
              (map Build_PGLogicalRepSet ["default"]) []) as (Hcopy & Hselect & _).
  assert (Hin1 : In (EvPQexec 1%nat
                       ("COPY " +++ dq +++ "public" +++ dq +++ "." +++ dq +++ "orders"
                        +++ dq +++ " TO stdout")
                       (Scenario.result PGRES_COPY_OUT EmptyString []))
                    (snd (copy_table_data Scenario.healthy 1%nat 2%nat "public" "orders" [])))
    by (vm_compute; repeat first [left; reflexivity | right]).
  assert (Hin2 : In (EvPQexec 1%nat
                       "SELECT nspname, relname FROM pglogical.tables WHERE set_name = ANY('{default}')"
                       (Scenario.result PGRES_TUPLES_OK EmptyString Scenario.two_tables))
                    (snd (get_copy_tables Scenario.healthy 1%nat
                            (map Build_PGLogicalRepSet ["default"]) [])))
    by (vm_compute; repeat first [left; reflexivity | right]).
  destruct (Hcopy _ _ _ Hin1) as (cs & direction & Hq & Hs & Hr & [(_ & -> & _) | (Hc & _)]);
    [ | discriminate Hc ].
  destruct (Hselect _ _ _ Hin2) as (_ & _ & Hlit).
  split; [exact Hin1|]. split; [exact Hs|]. split; [exact Hr|].
  split; [exact Hin2 | exact Hlit].
Defined.

(** C9 as stated fails: the slot-creation command is built by plain
    interpolation.  For a slot name that holds a double quote no escaping
    primitive is called, the name is in the command as it is, and the
    escaped form of the name is not. *)
Lemma slot_name_is_not_escaped :
  let slot := "pgl_my" +++ dq +++ "db_provider_subscriber" in
  let run := ensure_replication_slot_snapshot Scenario.healthy 1%nat slot [] in
  exists q res,
    snd run = [EvPQexec 1%nat q res]
    /\ ~ escaped_in (snd run) 1%nat slot q
    /\ contains slot q = true
    /\ contains (w_PQescapeIdentifier Scenario.healthy 1%nat slot) q = false.
Proof.
  cbv zeta. do 2 eexists. split; [vm_compute; reflexivity|].
  split; [|split; vm_compute; reflexivity].
  intros (esc & [Hin|Hin] & _); vm_compute in Hin;
    destruct Hin as [Hin|[]]; discriminate Hin.
Qed.

(** ** Failures of the streamed copy *)

Lemma no_failure_in (pre : list event) (f : event) :
  forallb (is_not chunk_failure) pre = true ->
  In f pre -> chunk_failure f = true -> False.
Proof.
  intros Hall Hin Hf. rewrite forallb_forall in Hall.
  specialize (Hall f Hin). unfold is_not in Hall. rewrite Hf in Hall. discriminate.
Qed.

Lemma aborts_sequential : sequential aborts_on_chunk_failure.
Proof.
  split.
  - intros f [].
  - intros e1 e2 x H1 H2 f Hin Hf. apply in_app_or in Hin as [Hin|Hin].
    + destruct (H1 f Hin Hf) as (? & ? & _ & Habs). discriminate Habs.
    + destruct (H2 f Hin Hf) as (pre & text & -> & ->).
      exists (e1 ++ pre), text. rewrite app_assoc. auto.
Qed.

Lemma emits_aborts {A} (m : M A) :
  emits (is_not chunk_failure) m -> sat aborts_on_chunk_failure m.
Proof.
  intros Hm h f Hin Hf. exfalso.
  apply (no_failure_in (snd (m h)) f (Hm h) Hin Hf).
Qed.

(** Boolean tests of the code, as propositions. *)
Ltac tests :=
  repeat match goal with
         | H : (_ && _)%bool = true |- _ => apply andb_true_iff in H; destruct H
         | H : negb _ = true |- _ => apply negb_true_iff in H
         | H : negb _ = false |- _ => apply negb_false_iff in H
         | H : (_ <=? _)%Z = true |- _ => apply Z.leb_le in H
         | H : (_ <=? _)%Z = false |- _ => apply Z.leb_gt in H
         | H : (_ <? _)%Z = true |- _ => apply Z.ltb_lt in H
         | H : (_ <? _)%Z = false |- _ => apply Z.ltb_ge in H
         | H : (_ =? _)%Z = true |- _ => apply Z.eqb_eq in H
         | H : (_ =? _)%Z = false |- _ => apply Z.eqb_neq in H
         end.

Section CopyRows.

Variable w : world.
Variables oc tc : PGconn.

(** The loop either leaves with [bytes], the value of the last
    PQgetCopyData, and no failed chunk before it, or does not return and
    has aborted as [aborts_on_chunk_failure] says. *)
Lemma copy_rows_run rows last : forall h r evs,
  copy_rows w oc tc rows last h = (r, evs) ->
  (exists bytes buf pre,
     r = Ok bytes /\ evs = pre ++ [EvPQgetCopyData oc bytes buf]
     /\ bytes <= 0 /\ forallb (is_not chunk_failure) pre = true)
  \/ ((forall b, r <> Ok b) /\ aborts_on_chunk_failure (exit_of r) evs).
Proof.
  induction rows as [|copybuf rows IH]; intros h r evs H; cbn [copy_rows] in H.
  - steps H. left. exists (CopyEnd_code last), EmptyString, [].
    repeat split. destruct last; cbn; lia.
  - unfold_calls H. steps H.
    + (* interrupted *)
      right. split; [discriminate|].
      intros f Hin Hf. in_split Hin. in_cases Hin; cbn [chunk_failure] in Hf; tests;
        try lia; try congruence; try discriminate.
    + (* the row went through *)
      apply IH in H. destruct H as [(bytes & buf & pre & -> & -> & Hle & Hpre) | [Hno Hab]].
      * left. exists bytes, buf.
        eexists (_ :: _ :: _ :: pre). repeat split; auto.
        cbn [forallb]. rewrite Hpre. unfold is_not at 1 2 3. cbn [chunk_failure].
        rewrite E0.
        replace (Z.of_nat (String.length copybuf) <=? 0)%Z with false
          by (symmetry; apply Z.leb_gt; apply Z.ltb_lt; exact E).
        reflexivity.
      * right. split; [exact Hno|].
        apply (seq_app _ aborts_sequential (_ :: _ :: _ :: nil) e); [|exact Hab].
        intros f Hin Hf. in_split Hin. in_cases Hin; cbn [chunk_failure] in Hf; tests;
          try lia; try congruence.
    + (* the target refused the row *)
      right. split; [discriminate|].
      intros f Hin Hf. in_split Hin. in_cases Hin; cbn [chunk_failure] in Hf; tests;
        try lia; try congruence; try discriminate.
      eexists [_], _. split; reflexivity.
    + (* a row of no length ends the loop *)
      left. exists (Z.of_nat (String.length copybuf)), copybuf, [].
      tests. repeat split. lia.
Qed.

End CopyRows.



(** ** Lists of events that end with given events *)

(** [l] without its last element, for a list written with [::] and [++]. *)
Ltac drop_last l :=
  lazymatch l with
  | [_] => constr:(@nil event)
  | ?a :: ?t => let r := drop_last t in constr:(a :: r)
  | ?x ++ [_] => constr:(x)
  | ?x ++ ?y => let r := drop_last y in constr:(x ++ r)
  end.

Ltac drop_last2 l := let l1 := drop_last l in drop_last l1.

Ltac list_norm := repeat first [ rewrite <- app_assoc | rewrite app_nil_r | progress cbn [app] ].

(** Closes [exists pre text, l = pre ++ [f; m text] /\ _ = Threw _]. *)
Ltac ends_with :=
  lazymatch goal with
  | |- exists pre text, ?l = _ /\ _ =>
      let p := drop_last2 l in
      exists p; eexists; split; [ | reflexivity ]; list_norm; reflexivity
  end.

Section CopyTable.

Variable w : world.

Lemma copy_table_data_aborts oc tc schemaname relname :
  sat aborts_on_chunk_failure (copy_table_data w oc tc schemaname relname).
Proof.
  intros h.
  destruct (copy_table_data w oc tc schemaname relname h) as [r evs] eqn:H.
  cbn [fst snd]. unfold copy_table_data in H. unfold_calls H.
  steps H;
    try match goal with
        | R : copy_rows _ _ _ _ _ _ = _ |- _ =>
            apply copy_rows_run in R;
            destruct R as [(bytes & buf & pre & Hr & -> & Hle & Hpre) | [Hno Hab]];
            [ try discriminate Hr; try (injection Hr as ->)
            | try (exfalso; eapply Hno; reflexivity) ]
        end;
    intros f Hin Hf; in_split Hin; in_cases Hin;
    try (exfalso; eapply no_failure_in; eassumption);
    try match goal with
        | Hab : aborts_on_chunk_failure _ ?e0, Hin : In ?f ?e0 |- _ =>
            destruct (Hab f Hin Hf) as (pre' & text & -> & Hx);
            cbn in Hx; try discriminate Hx; injection Hx as ->;
            ends_with
        end;
    cbn [chunk_failure] in Hf; tests; try discriminate; try lia; try congruence.
  all: ends_with.
Qed.

(** Every function of the program but the copy of a table emits no failed
    chunk; the property goes through the sequencing of the callers. *)
Ltac aborts_prog :=
  repeat first
    [ apply copy_table_data_aborts
    | apply sat_bind; [exact aborts_sequential | | intros]
    | apply sat_foreach; [exact aborts_sequential | intros]
    | match goal with
      | |- sat _ (match ?x with _ => _ end) => destruct x
      end
    | solve [apply emits_aborts; emits_prog] ].

Lemma copy_node_data_aborts conn snapshot :
  sat aborts_on_chunk_failure (copy_node_data w conn snapshot).
Proof. unfold copy_node_data. aborts_prog. Qed.

Lemma pglogical_init_replica_aborts conn :
  sat aborts_on_chunk_failure (pglogical_init_replica w conn).
Proof.
  unfold pglogical_init_replica.
  repeat first
    [ apply copy_node_data_aborts
    | apply sat_bind; [exact aborts_sequential | | intros]
    | match goal with
      | |- sat _ (match ?x with _ => _ end) => destruct x
      end
    | solve [apply emits_aborts; emits_prog] ].
Qed.

End CopyTable.

Lemma exit_of_threw {A} (r : outcome A) e : exit_of r = Threw e -> r = Raised e.
Proof. destruct r; cbn; intros [=]; congruence. Qed.

(** C4, as the code has it: whenever a chunk of a streamed copy fails, on
    the origin (PQgetCopyData ends with anything but -1) or on the target
    (PQputCopyData or PQputCopyEnd does not return 1), the bootstrap reads
    the error message of the session on which it failed and aborts with an
    ERROR whose message says which side failed and whose detail carries
    that transport text; the report is made of fixed words and that text,
    the table is not part of it. *)
Theorem chunk_failure_aborts_bootstrap (w : world) (conn : PGLogicalConnection)
    (h : history) (f : event) :
  In f (snd (pglogical_init_replica w conn h)) ->
  chunk_failure f = true ->
  exists pre text,
    snd (pglogical_init_replica w conn h)
    = pre ++ [f; EvPQerrorMessage (chunk_session f) text]
    /\ fst (pglogical_init_replica w conn h) = Raised (chunk_error f text).
Proof.
  intros Hin Hf.
  destruct (pglogical_init_replica_aborts w conn h f Hin Hf) as (pre & text & E & Hx).
  exists pre, text. split; [exact E | apply exit_of_threw; exact Hx].
Qed.

Lemma chunk_failure_aborts_bootstrap_witness :
  let run := pglogical_init_replica Scenario.dropped
               (Scenario.connection NODE_STATUS_INIT ["default"]) [] in
  let f := EvPQputCopyData 3%nat ("gadget" +++ nl) 7 (-1) in
  In f (snd run)
  /\ chunk_failure f = true
  /\ exists pre text,
       snd run = pre ++ [f; EvPQerrorMessage 3%nat text]
       /\ fst run = Raised (chunk_error f text).
Proof.
  cbv zeta.
  assert (Hin : In (EvPQputCopyData 3%nat ("gadget" +++ nl) 7 (-1))
                   (snd (pglogical_init_replica Scenario.dropped
                           (Scenario.connection NODE_STATUS_INIT ["default"]) []))).
  { vm_compute. repeat first [left; reflexivity | right]. }
  split; [exact Hin | split; [reflexivity|]].
  apply (chunk_failure_aborts_bootstrap Scenario.dropped
           (Scenario.connection NODE_STATUS_INIT ["default"]) [] _ Hin).
  reflexivity.
Defined.

(** A failure on the origin side: PQgetCopyData returns -2 after the first
    row of orders. *)
Example origin_failure_run :
  let run := pglogical_init_replica Scenario.origin_cut
               (Scenario.connection NODE_STATUS_INIT ["default"]) [] in
  fst run
  = Raised {| elevel := ERROR;
              message := "reading from origin table failed";
              detail := "source connection returned -2: server closed the connection unexpectedly" |}
  /\ statuses (snd run) = [NODE_STATUS_SYNC_SCHEMA]
  /\ filter chunk_failure (snd run) = [EvPQgetCopyData 2%nat (-2) EmptyString].
Proof. vm_compute. repeat split. Qed.

(** C4 as stated fails: when the target drops the connection in the middle
    of the copy of public.orders, the bootstrap aborts with a report that
    carries the transport text and does not name the table. *)
Lemma copy_error_does_not_name_table :
  let run := pglogical_init_replica Scenario.dropped
               (Scenario.connection NODE_STATUS_INIT ["default"]) [] in
  exists res e,
    In (EvPQexec 3%nat ("COPY " +++ dq +++ "public" +++ dq +++ "." +++ dq
                        +++ "orders" +++ dq +++ " FROM stdin") res) (snd run)
    /\ In (EvPQputCopyData 3%nat ("gadget" +++ nl) 7 (-1)) (snd run)
    /\ fst run = Raised e
    /\ message e = "writing to target table failed"
    /\ detail e = "destination connection reported: server closed the connection unexpectedly"
    /\ contains "orders" (message e) = false
    /\ contains "orders" (detail e) = false.
Proof.
  cbv zeta. do 2 eexists.
  split; [vm_compute; repeat first [left; reflexivity | right]|].
  split; [vm_compute; repeat first [left; reflexivity | right]|].
  split; [vm_compute; reflexivity|].
  repeat split.
Qed.

(** ** The end of the copy *)

(** The events of the sub-runs in the context are of the class [P]. *)
Ltac quiet P :=
  repeat match goal with
         | R : ?m ?h = (?r, ?e) |- _ =>
             lazymatch goal with
             | _ : forallb P e = true |- _ => fail
             | _ => idtac
             end;
             assert (forallb P e = true)
               by (apply (emits_run P m h r e); [solve [emits_prog] | exact R])
         end.

Ltac all_quiet :=
  repeat first
    [ rewrite forallb_app
    | progress cbn [forallb]
    | match goal with
      | Hq : forallb _ _ = true |- _ => rewrite Hq
      end ];
  reflexivity.

Lemma split_at_marked (P : event -> bool) (a : list event) :
  forall pre x y b post,
    forallb (is_not P) a = true -> forallb (is_not P) b = true ->
    P x = true -> P y = true ->
    a ++ x :: b = pre ++ y :: post ->
    pre = a /\ y = x /\ post = b.
Proof.
  induction a as [|a0 a IH]; intros pre x y b post Ha Hb Hx Hy E.
  - destruct pre as [|p pre]; cbn in E.
    + injection E as -> ->. auto.
    + injection E as -> ->. exfalso.
      rewrite forallb_app in Hb. cbn in Hb. unfold is_not at 2 in Hb.
      rewrite Hy in Hb. cbn in Hb. rewrite Bool.andb_false_r in Hb. discriminate.
  - cbn in Ha. apply andb_true_iff in Ha as [Ha0 Ha].
    destruct pre as [|p pre]; cbn in E.
    + injection E as -> _. unfold is_not in Ha0. rewrite Hy in Ha0. discriminate.
    + injection E as -> E. destruct (IH pre x y b post Ha Hb Hx Hy E) as (-> & -> & ->).
      auto.
Qed.

Lemma not_marked (P : event -> bool) (a pre post : list event) (y : event) :
  forallb (is_not P) a = true -> P y = true -> a = pre ++ y :: post -> False.
Proof.
  intros Ha Hy ->. rewrite forallb_app in Ha. cbn in Ha. unfold is_not at 2 in Ha.
  rewrite Hy in Ha. cbn in Ha. rewrite Bool.andb_false_r in Ha. discriminate.
Qed.

(** The two runs of the witness, in full: the failed ROLLBACK leaves a
    warning and the copy returns; the failed COMMIT raises. *)
Example finalisation_runs :
  let conn := Scenario.connection NODE_STATUS_INIT ["default"] in
  skipn 35 (snd (copy_node_data Scenario.rollback_refused conn "000003E9-1" []))
  = [EvPQexec 1%nat "ROLLBACK" Scenario.refused;
     EvElog WARNING "ROLLBACK on origin node failed: no connection to the server";
     EvPQfinish 1%nat; EvPQexec 2%nat "COMMIT" Scenario.done; EvPQfinish 2%nat]
  /\ fst (copy_node_data Scenario.rollback_refused conn "000003E9-1" []) = Ok tt
  /\ skipn 35 (snd (copy_node_data Scenario.commit_refused conn "000003E9-1" []))
     = [EvPQexec 1%nat "ROLLBACK" Scenario.done; EvPQfinish 1%nat;
        EvPQexec 2%nat "COMMIT" Scenario.refused]
  /\ fst (copy_node_data Scenario.commit_refused conn "000003E9-1" [])
     = Raised (commit_failed Scenario.refused).
Proof. vm_compute. repeat split. Qed.

(** ** The order of the statuses *)

Lemma statuses_app (a b : list event) : statuses (a ++ b) = statuses a ++ statuses b.
Proof.
  induction a as [|e a IH]; cbn [app statuses]; [reflexivity|].
  destruct e; cbn [app]; rewrite ?IH; reflexivity.
Qed.

Lemma statuses_quiet (e : list event) :
  forallb (is_not is_set_status) e = true -> statuses e = [].
Proof.
  induction e as [|x e IH]; cbn [forallb statuses]; [reflexivity|].
  intros H. apply andb_true_iff in H as [Hx He].
  destruct x; try discriminate Hx; auto.
Qed.

(** C8: within one run of pglogical_init_replica, the status found on entry
    followed by the statuses written through set_node_status, in the order
    of writing, is strictly increasing in the order
    INIT, SYNC_SCHEMA, SLOTS, CATCHUP, CONNECT_BACK, READY: each status
    written is strictly later than every status seen before it. *)
Theorem statuses_only_advance (w : world) (conn : PGLogicalConnection) (h : history) :
  StronglySorted lt
    (map status_rank
         (node_status (target conn)
          :: statuses (snd (pglogical_init_replica w conn h)))).
Proof.
  destruct (pglogical_init_replica w conn h) as [r evs] eqn:H. cbn [snd].
  unfold pglogical_init_replica in H.
  unfold elog, ereport, StartTransactionCommand, CommitTransactionCommand,
    get_database_name, replorigin_advance, set_node_status, set_remote_node_status,
    PQfinish in H.
  destruct (node_status (target conn)) eqn:Hst; cbn [NodeStatus_eqb] in H.
  all: steps H.
  all: quiet (is_not is_set_status).
  all: repeat first
         [ rewrite statuses_app
         | progress cbn [statuses app]
         | match goal with
           | Hq : forallb (is_not is_set_status) ?e = true |- _ =>
               rewrite (statuses_quiet e Hq)
           end ].
  all: cbn [map status_rank]; repeat constructor.
Qed.

(** A full run from INIT writes the five statuses after INIT, in order. *)
Example healthy_run_statuses :
  let run := pglogical_init_replica Scenario.healthy
               (Scenario.connection NODE_STATUS_INIT ["default"]) [] in
  fst run = Ok tt
  /\ statuses (snd run)
     = [NODE_STATUS_SYNC_SCHEMA; NODE_STATUS_SLOTS; NODE_STATUS_CATCHUP;
        NODE_STATUS_CONNECT_BACK; NODE_STATUS_READY].
Proof. vm_compute. split; reflexivity. Qed.

(** ** Segments of a run *)

Lemma none_marked (P : event -> bool) (e : list event) (x : event) :
  forallb (is_not P) e = true -> In x e -> P x = true -> False.
Proof.
  intros Hall Hin Hx. rewrite forallb_forall in Hall.
  specialize (Hall x Hin). unfold is_not in Hall. rewrite Hx in Hall. discriminate.
Qed.

(** An event of a class cannot be in a segment that has none of it. *)
Ltac sealed :=
  match goal with
  | Hq : forallb (is_not ?P) ?e = true, Hin : In ?x ?e |- _ =>
      exact (none_marked P e x Hq Hin eq_refl)
  end.


Ltac step_to_dump H :=
  repeat lazymatch type of H with
         | bind (bind (dump_structure _ _ _) _) _ _ = _ => fail
         | _ => step H
         end.

(** ** The INIT phase *)

(** C7: in every bootstrap run that completes the INIT phase (SYNC_SCHEMA
    gets written), the events up to that writing are: the notice, the start
    of a local transaction, the name of the database, the replication
    connection, the slot-creation command with its reply [res], the lookup
    of the replication origin by the name of the slot, which either finds
    an origin (an id other than InvalidRepOriginId) or is followed by the
    creation of one, one replorigin_advance of that origin, found or
    created, to the LSN read from row 0, column 1 of [res], and the commit
    of the transaction.  Nothing after that advances the origin again. *)
Theorem origin_advanced_to_slot_lsn (w : world) (conn : PGLogicalConnection)
    (h : history) (r : outcome unit) (evs : list event) :
  node_status (target conn) = NODE_STATUS_INIT ->
  pglogical_init_replica w conn h = (r, evs) ->
  In (EvSetNodeStatus (node_id (target conn)) NODE_STATUS_SYNC_SCHEMA) evs ->
  exists dbname conninfo oc res lsn_text lsn originid local_commit lookup post,
    let slot_name := gen_slot_name w dbname (origin conn) (target conn) in
    evs = [EvElog INFO "initializing node";
           EvStartTransactionCommand;
           EvGetDatabaseName dbname;
           EvPQconnectdb conninfo oc;
           EvPQstatus oc CONNECTION_OK;
           EvPQexec oc (slot_command slot_name) res]
          ++ lookup
          ++ [EvReplOriginAdvance originid lsn local_commit true true;
              EvCommitTransactionCommand;
              EvSetNodeStatus (node_id (target conn)) NODE_STATUS_SYNC_SCHEMA]
          ++ post
    /\ PQgetvalue res 0 1 = Some lsn_text
    /\ pg_lsn_in w lsn_text = inr lsn
    /\ ((lookup = [EvReplOriginByName slot_name originid]
         /\ originid <> InvalidRepOriginId)
        \/ lookup = [EvReplOriginByName slot_name InvalidRepOriginId;
                     EvReplOriginCreate slot_name originid])
    /\ forallb (is_not is_advance) post = true.
Proof.
  intros Hst H Hin. unfold pglogical_init_replica in H. rewrite Hst in H.
  cbn [NodeStatus_eqb] in H.
  unfold pg_connect_replica, ensure_replication_slot_snapshot,
    ensure_replication_origin in H.
  unfold elog, ereport, StartTransactionCommand, CommitTransactionCommand,
    get_database_name, replorigin_advance, set_node_status, PQconnectdb, PQstatus,
    PQerrorMessage, PQexec, replorigin_by_name, replorigin_create in H.
  step_to_dump H; quiet (is_not is_advance).
  all: try (exfalso; in_split Hin; in_cases Hin; fail).
  all: tests.
  - (* no origin of that name: one is created *)
    rewrite E4 in *.
    do 8 eexists. eexists (_ :: _ :: nil). eexists. cbv zeta.
    split; [cbn [app]; reflexivity|].
    split; [exact E1|]. split; [exact E2|].
    split; [right; reflexivity|]. all_quiet.
  - (* the origin exists *)
    do 8 eexists. eexists (_ :: nil). eexists. cbv zeta.
    split; [cbn [app]; reflexivity|].
    split; [exact E1|]. split; [exact E2|].
    split; [left; split; [reflexivity | assumption]|]. all_quiet.
Qed.

Lemma origin_advanced_to_slot_lsn_witness :
  let conn := Scenario.connection NODE_STATUS_INIT ["default"] in
  let run := pglogical_init_replica Scenario.healthy conn [] in
  node_status (target conn) = NODE_STATUS_INIT
  /\ In (EvSetNodeStatus (node_id (target conn)) NODE_STATUS_SYNC_SCHEMA) (snd run)
  /\ exists dbname conninfo oc res lsn_text lsn originid local_commit lookup post,
       let slot_name := gen_slot_name Scenario.healthy dbname (origin conn) (target conn) in
       snd run
       = [EvElog INFO "initializing node";
          EvStartTransactionCommand;
          EvGetDatabaseName dbname;
          EvPQconnectdb conninfo oc;
          EvPQstatus oc CONNECTION_OK;
          EvPQexec oc (slot_command slot_name) res]
         ++ lookup
         ++ [EvReplOriginAdvance originid lsn local_commit true true;
             EvCommitTransactionCommand;
             EvSetNodeStatus (node_id (target conn)) NODE_STATUS_SYNC_SCHEMA]
         ++ post
       /\ PQgetvalue res 0 1 = Some lsn_text
       /\ pg_lsn_in Scenario.healthy lsn_text = inr lsn
       /\ ((lookup = [EvReplOriginByName slot_name originid]
            /\ originid <> InvalidRepOriginId)
           \/ lookup = [EvReplOriginByName slot_name InvalidRepOriginId;
                        EvReplOriginCreate slot_name originid])
       /\ forallb (is_not is_advance) post = true.
Proof.
  cbv zeta.
  pose (run := pglogical_init_replica Scenario.healthy
                 (Scenario.connection NODE_STATUS_INIT ["default"]) []).
  assert (Hin : In (EvSetNodeStatus 2 NODE_STATUS_SYNC_SCHEMA) (snd run))
    by (vm_compute; repeat first [left; reflexivity | right]).
  split; [reflexivity | split; [exact Hin|]].
  exact (origin_advanced_to_slot_lsn Scenario.healthy
           (Scenario.connection NODE_STATUS_INIT ["default"]) []
           (fst run) (snd run) eq_refl (surjective_pairing run) Hin).
Defined.

(** The LSN of the example reply, 0/16B3748, is the one the origin is
    advanced to. *)
Example healthy_run_advance :
  let run := pglogical_init_replica Scenario.healthy
               (Scenario.connection NODE_STATUS_INIT ["default"]) [] in
  filter is_advance (snd run) = [EvReplOriginAdvance 1 23803720 0 true true]
  /\ pg_lsn_in Scenario.healthy "0/16B3748" = inr 23803720.
Proof. vm_compute. split; reflexivity. Qed.

(** The same two worlds seen from the bootstrap: after the failed ROLLBACK
    it goes on to READY, after the failed COMMIT it stops with SYNC_SCHEMA
    as the last status written. *)
Example finalisation_in_the_bootstrap :
  let conn := Scenario.connection NODE_STATUS_INIT ["default"] in
  let run1 := pglogical_init_replica Scenario.rollback_refused conn [] in
  let run2 := pglogical_init_replica Scenario.commit_refused conn [] in
  fst run1 = Ok tt
  /\ statuses (snd run1)
     = [NODE_STATUS_SYNC_SCHEMA; NODE_STATUS_SLOTS; NODE_STATUS_CATCHUP;
        NODE_STATUS_CONNECT_BACK; NODE_STATUS_READY]
  /\ fst run2 = Raised (commit_failed Scenario.refused)
  /\ statuses (snd run2) = [NODE_STATUS_SYNC_SCHEMA].
Proof. vm_compute. repeat split. Qed.

(** * Further properties of the program *)

(** ** The dump and restore tools *)

(** X1: dump_structure runs at most one command through [system], and only
    after the tool was located and printed a version whose major part is
    the server's.  The path of the tool is the directory of the server
    binary followed by "/pg_dump" and EXE, cut to what its buffer of
    MAXPGPATH bytes holds; the version is asked by the quoted path with
    " -V", cut at MAXPGPATH as well; the command is the pg_dump command
    line made of that path, the snapshot and the dsn of the origin, of any
    length.  It returns exactly when that command exited with status 0;
    any other status raises the could-not-execute ERROR with the command
    and the text of errno. *)
Theorem dump_structure_runs_one_command (w : world) (conn : PGLogicalConnection)
    (snapshot : string) (h : history) :
  let run := dump_structure w conn snapshot h in
  (forall cmd res,
     In (EvSystem cmd res) (snd run) ->
     exists dir pre_dot post_dot tail,
       snd run
       = EvFindMyExec (my_exec_path w) (Some dir)
         :: EvPopen (version_command w (tool_path w dir "pg_dump"))
                    (PROBE_VERSION pre_dot post_dot)
         :: EvSystem cmd res :: tail
       /\ cmd = dump_command (tool_path w dir "pg_dump") snapshot (node_dsn (origin conn))
       /\ to_uint32 ((pre_dot * 100 + post_dot) * 100) / 100 = PG_VERSION_NUM w / 100
       /\ ((res = 0 /\ tail = [] /\ fst run = Ok tt)
           \/ (res <> 0
               /\ exists t, tail = [EvStrerror t]
                            /\ fst run = Raised (command_failed cmd t))))
  /\ (fst run = Ok tt -> exists cmd, In (EvSystem cmd 0) (snd run)).
Proof.
  cbv zeta. destruct (dump_structure w conn snapshot h) as [r evs] eqn:H.
  cbn [fst snd].
  unfold dump_structure, find_other_exec_version, find_my_exec, popen_version,
    system, strerror_errno, elog, ereport in H.
  split.
  - intros cmd res Hin.
    steps H; in_split Hin; in_cases Hin; tests.
    + do 3 eexists. exists []. repeat split; auto.
    + do 4 eexists. split; [reflexivity|]. repeat split; auto.
      right. split; [assumption|]. eexists. split; reflexivity.
  - intros Hok. steps H; try discriminate Hok; tests.
    eexists. cbn [In]. right. right. left. rewrite E3. reflexivity.
Qed.

(** X2: restore_structure runs at most one command through [system], and
    only after pg_restore was located and printed a version whose major
    part is the server's.  The path of the tool is the directory of the
    server binary followed by "/pg_restore" and EXE, cut to what its
    buffer of MAXPGPATH bytes holds; the version is asked by the quoted
    path with " -V", cut at MAXPGPATH as well; the command is the
    pg_restore command line made of that path, the section and the dsn of
    the target, of any length.  It returns exactly when that command
    exited with status 0; any other status raises the could-not-execute
    ERROR with the command and the text of errno. *)
Theorem restore_structure_runs_one_command (w : world) (conn : PGLogicalConnection)
    (section : string) (h : history) :
  let run := restore_structure w conn section h in
  (forall cmd res,
     In (EvSystem cmd res) (snd run) ->
     exists dir pre_dot post_dot tail,
       snd run
       = EvFindMyExec (my_exec_path w) (Some dir)
         :: EvPopen (version_command w (tool_path w dir "pg_restore"))
                    (PROBE_VERSION pre_dot post_dot)
         :: EvSystem cmd res :: tail
       /\ cmd = restore_command (tool_path w dir "pg_restore") section
                                (node_dsn (target conn))
       /\ to_uint32 ((pre_dot * 100 + post_dot) * 100) / 100 = PG_VERSION_NUM w / 100
       /\ ((res = 0 /\ tail = [] /\ fst run = Ok tt)
           \/ (res <> 0
               /\ exists t, tail = [EvStrerror t]
                            /\ fst run = Raised (command_failed cmd t))))
  /\ (fst run = Ok tt -> exists cmd, In (EvSystem cmd 0) (snd run)).
Proof.
  cbv zeta. destruct (restore_structure w conn section h) as [r evs] eqn:H.
  cbn [fst snd].
  unfold restore_structure, find_other_exec_version, find_my_exec, popen_version,
    system, strerror_errno, elog, ereport in H.
  split.
  - intros cmd res Hin.
    steps H; in_split Hin; in_cases Hin; tests.
    + do 3 eexists. exists []. repeat split; auto.
    + do 4 eexists. split; [reflexivity|]. repeat split; auto.
      right. split; [assumption|]. eexists. split; reflexivity.
  - intros Hok. steps H; try discriminate Hok; tests.
    eexists. cbn [In]. right. right. left. rewrite E3. reflexivity.
Qed.

(** ** Events that end the bootstrap *)

Section EndsRun.

Variable bad : event -> bool.
Variable R : list event -> event -> list event -> exit_kind -> Prop.

Hypothesis R_stops : forall pre f post, bad f = true -> ~ R pre f post Returned.
Hypothesis R_prefix :
  forall e1 pre f post x, R pre f post x -> R (e1 ++ pre) f post x.

Lemma ends_run_sequential : sequential (ends_run bad R).
Proof.
  split.
  - intros f [].
  - intros e1 e2 x H1 H2 f Hin Hf. apply in_app_or in Hin as [Hin|Hin].
    + destruct (H1 f Hin Hf) as (pre & post & _ & HR).
      exfalso. exact (R_stops pre f post Hf HR).
    + destruct (H2 f Hin Hf) as (pre & post & -> & HR).
      exists (e1 ++ pre), post. rewrite app_assoc. split; [reflexivity|].
      apply R_prefix. exact HR.
Qed.

Lemma emits_ends_run {A} (m : M A) :
  emits (is_not bad) m -> sat (ends_run bad R) m.
Proof.
  intros Hm h f Hin Hf. exfalso.
  exact (none_marked bad (snd (m h)) f (Hm h) Hin Hf).
Qed.

End EndsRun.

(** A property that passes through sequencing holds of a function when it
    holds of the functions it calls: [leaf] closes those, calls that emit
    no event of the class close by themselves. *)
Ltac sat_prog Hseq leaf :=
  repeat first
    [ leaf
    | apply sat_bind; [exact Hseq | | intros]
    | apply sat_foreach; [exact Hseq | intros]
    | match goal with
      | |- sat _ (match ?x with _ => _ end) => destruct x
      end
    | solve [apply emits_ends_run; emits_prog] ].

(** The run of [m] at [h], named. *)
Ltac run_of m h r evs H :=
  destruct (m h) as [r evs] eqn:H; cbn [fst snd].

(** ** A tool that cannot be probed *)

Lemma probe_failure_sequential (w : world) :
  sequential (ends_run tool_not_probed (probe_failure w)).
Proof.
  apply ends_run_sequential.
  - intros pre f post _ (_ & tool & _ & Hx & _). discriminate Hx.
  - intros e1 pre f post x HR. exact HR.
Qed.

Lemma dump_structure_probe (w : world) conn snapshot :
  sat (ends_run tool_not_probed (probe_failure w)) (dump_structure w conn snapshot).
Proof.
  intros h. run_of (dump_structure w conn snapshot) h r evs H.
  unfold dump_structure, find_other_exec_version in H. unfold_calls H.
  steps H; intros f Hin Hf; in_split Hin; in_cases Hin; try discriminate Hf.
  all: lazymatch goal with
       | |- exists pre post, ?l = _ /\ _ =>
           let p := drop_last l in
           exists p, []; split; [reflexivity|]
       end.
  all: split; [reflexivity|]; exists "pg_dump"; split; [left; reflexivity|];
       split; [reflexivity|]; intros cmd reply [= <- _]; eexists; reflexivity.
Qed.

Lemma restore_structure_probe (w : world) conn section :
  sat (ends_run tool_not_probed (probe_failure w)) (restore_structure w conn section).
Proof.
  intros h. run_of (restore_structure w conn section) h r evs H.
  unfold restore_structure, find_other_exec_version in H. unfold_calls H.
  steps H; intros f Hin Hf; in_split Hin; in_cases Hin; try discriminate Hf.
  all: lazymatch goal with
       | |- exists pre post, ?l = _ /\ _ =>
           let p := drop_last l in
           exists p, []; split; [reflexivity|]
       end.
  all: split; [reflexivity|]; exists "pg_restore"; split; [right; reflexivity|];
       split; [reflexivity|]; intros cmd reply [= <- _]; eexists; reflexivity.
Qed.

Lemma pglogical_init_replica_probe (w : world) conn :
  sat (ends_run tool_not_probed (probe_failure w)) (pglogical_init_replica w conn).
Proof.
  unfold pglogical_init_replica.
  sat_prog (probe_failure_sequential w)
           ltac:(first [apply dump_structure_probe | apply restore_structure_probe]).
Qed.

(** X3: when a tool cannot be probed during the bootstrap (the directory of
    the server binary is not found, the tool prints nothing, or what it
    prints holds no version), that probe is the last thing the bootstrap
    does: it raises the failed-to-find ERROR naming pg_dump or pg_restore
    (the tool whose version was asked) and the path of the server
    binary.  The command of a probe that was made is the quoted path of
    that tool with " -V", path and command each cut to what a buffer of
    MAXPGPATH bytes holds. *)
Theorem failed_probe_ends_bootstrap (w : world) (conn : PGLogicalConnection)
    (h : history) (f : event) :
  In f (snd (pglogical_init_replica w conn h)) ->
  tool_not_probed f = true ->
  exists pre tool,
    snd (pglogical_init_replica w conn h) = pre ++ [f]
    /\ (tool = "pg_dump" \/ tool = "pg_restore")
    /\ fst (pglogical_init_replica w conn h) = Raised (not_found_error w tool)
    /\ forall cmd reply, f = EvPopen cmd reply ->
                         exists dir, cmd = version_command w (tool_path w dir tool).
Proof.
  intros Hin Hf.
  destruct (pglogical_init_replica_probe w conn h f Hin Hf)
    as (pre & post & E & -> & tool & Htool & Hx & Hcmd).
  exists pre, tool. repeat split; auto. apply exit_of_threw. exact Hx.
Qed.

(** Splits the list of the goal at its last event. *)
Ltac split_last :=
  lazymatch goal with
  | |- exists pre post, ?l = _ /\ _ =>
      let p := drop_last l in
      exists p, []; split; [list_norm; reflexivity|]
  end.

(** Splits the list of the goal at its last event but one. *)
Ltac split_last2 :=
  lazymatch goal with
  | |- exists pre post, ?l = _ /\ _ =>
      let p := drop_last2 l in
      exists p; eexists [_]; split; [list_norm; reflexivity|]
  end.

(** ** A session that does not come up *)

Lemma connection_failure_sequential :
  sequential (ends_run connection_bad connection_failure).
Proof.
  apply ends_run_sequential.
  - intros pre f post _ (p & ci & t & rp & _ & _ & Hx). discriminate Hx.
  - intros e1 pre f post x (p & ci & t & rp & -> & -> & ->).
    exists (e1 ++ p), ci, t, rp. rewrite app_assoc. auto.
Qed.

Lemma pg_connect_bad (w : world) connstring connname :
  sat (ends_run connection_bad connection_failure) (pg_connect w connstring connname).
Proof.
  intros h. run_of (pg_connect w connstring connname) h r evs H.
  unfold pg_connect in H. unfold_calls H.
  steps H; intros f Hin Hf; in_split Hin; in_cases Hin; try discriminate Hf.
  split_last2. exists []. do 2 eexists. exists false. repeat split.
Qed.

Lemma pg_connect_replica_bad (w : world) connstring connname :
  sat (ends_run connection_bad connection_failure)
      (pg_connect_replica w connstring connname).
Proof.
  intros h. run_of (pg_connect_replica w connstring connname) h r evs H.
  unfold pg_connect_replica in H. unfold_calls H.
  steps H; intros f Hin Hf; in_split Hin; in_cases Hin; try discriminate Hf.
  split_last2. exists []. do 2 eexists. exists true. repeat split.
Qed.

Lemma pglogical_init_replica_bad (w : world) conn :
  sat (ends_run connection_bad connection_failure) (pglogical_init_replica w conn).
Proof.
  unfold pglogical_init_replica.
  sat_prog connection_failure_sequential
           ltac:(first [ apply pg_connect_bad | apply pg_connect_replica_bad
                       | progress unfold copy_node_data ]).
Qed.

(** X4: whenever a session opened by the bootstrap does not come up
    (PQstatus is not CONNECTION_OK), the bootstrap reads the error message
    of that session and ends with a FATAL report made of this message and,
    as detail, the connection string that was handed to PQconnectdb; the
    session is not used and not closed. *)
Theorem failed_connection_is_fatal (w : world) (conn : PGLogicalConnection)
    (h : history) (c : PGconn) (st : ConnStatusType) :
  In (EvPQstatus c st) (snd (pglogical_init_replica w conn h)) ->
  st <> CONNECTION_OK ->
  exists pre conninfo text replication,
    snd (pglogical_init_replica w conn h)
    = pre ++ [EvPQconnectdb conninfo c; EvPQstatus c st; EvPQerrorMessage c text]
    /\ fst (pglogical_init_replica w conn h)
       = Raised (could_not_connect replication conninfo text).
Proof.
  intros Hin Hst.
  assert (Hbad : connection_bad (EvPQstatus c st) = true)
    by (destruct st; [congruence | reflexivity]).
  destruct (pglogical_init_replica_bad w conn h _ Hin Hbad)
    as (pre & post & E & p & ci & t & rp & -> & -> & Hx).
  exists p, ci, t, rp. split.
  - rewrite E. list_norm. reflexivity.
  - apply exit_of_threw. exact Hx.
Qed.

(** ** Statements that fail *)

Lemma statement_failure_sequential :
  sequential (ends_run failed_statement statement_failure).
Proof.
  apply ends_run_sequential.
  - intros pre f post _ (_ & e & Hx & _). discriminate Hx.
  - intros e1 pre f post x HR. exact HR.
Qed.

(** A reply with the status the code tests for is not a failed one. *)
Ltac not_failed Hf :=
  cbn [failed_statement] in Hf; apply andb_true_iff in Hf as [_ Hf];
  unfold statement_failed in Hf;
  match goal with
  | E : ExecStatusType_eqb (PQresultStatus ?a) _ = true |- _ =>
      destruct (PQresultStatus a); discriminate
  end.

Ltac raised_error :=
  eexists; split; [reflexivity|]; cbn [elevel]; auto.

Ltac statement_cases :=
  intros f Hin Hf; in_split Hin; in_cases Hin; try discriminate Hf;
  try (exfalso; eapply none_marked; eassumption); try (exfalso; not_failed Hf).

Lemma start_copy_origin_tx_checked (w : world) c snapshot :
  sat (ends_run failed_statement statement_failure) (start_copy_origin_tx w c snapshot).
Proof.
  intros h. run_of (start_copy_origin_tx w c snapshot) h r evs H.
  unfold start_copy_origin_tx in H. unfold_calls H.
  steps H; statement_cases.
  split_last. split; [left; reflexivity | raised_error].
Qed.

Lemma start_copy_target_tx_checked (w : world) c snapshot :
  sat (ends_run failed_statement statement_failure) (start_copy_target_tx w c snapshot).
Proof.
  intros h. run_of (start_copy_target_tx w c snapshot) h r evs H.
  unfold start_copy_target_tx in H. unfold_calls H.
  steps H; statement_cases.
  split_last. split; [left; reflexivity | raised_error].
Qed.

Lemma get_copy_tables_checked (w : world) c sets :
  sat (ends_run failed_statement statement_failure) (get_copy_tables w c sets).
Proof.
  intros h. run_of (get_copy_tables w c sets) h r evs H.
  unfold get_copy_tables in H. unfold_calls H.
  steps H; quiet (is_not failed_statement); statement_cases.
  split_last. split; [left; reflexivity | raised_error].
Qed.

Lemma ensure_replication_slot_snapshot_checked (w : world) c slot_name :
  sat (ends_run failed_statement statement_failure)
      (ensure_replication_slot_snapshot w c slot_name).
Proof.
  intros h. run_of (ensure_replication_slot_snapshot w c slot_name) h r evs H.
  unfold ensure_replication_slot_snapshot in H. unfold_calls H.
  steps H; statement_cases.
  split_last. split; [left; reflexivity | raised_error].
Qed.

Lemma copy_table_data_checked (w : world) oc tc schemaname relname :
  sat (ends_run failed_statement statement_failure)
      (copy_table_data w oc tc schemaname relname).
Proof.
  intros h. run_of (copy_table_data w oc tc schemaname relname) h r evs H.
  unfold copy_table_data in H. unfold_calls H.
  steps H; quiet (is_not failed_statement); statement_cases.
  all: split_last2; split; [right; eexists _, _; reflexivity | raised_error].
Qed.

Lemma commit_checked (w : world) (c : PGconn) :
  sat (ends_run failed_statement statement_failure)
      (res <- PQexec w c "COMMIT" ;;
       (if ExecStatusType_eqb (PQresultStatus res) PGRES_COMMAND_OK then ret tt
        else elog ERROR ("COMMIT on target node failed: " +++ PQresultErrorMessage res)) ;;
       PQfinish c).
Proof.
  intros h.
  match goal with |- context [exit_of (fst (?m h))] => run_of m h r evs H end.
  unfold_calls H.
  steps H; statement_cases.
  split_last. split; [left; reflexivity | raised_error].
Qed.

Lemma pglogical_init_replica_checked (w : world) conn :
  sat (ends_run failed_statement statement_failure) (pglogical_init_replica w conn).
Proof.
  unfold pglogical_init_replica.
  sat_prog statement_failure_sequential
           ltac:(first [ apply start_copy_origin_tx_checked
                       | apply start_copy_target_tx_checked
                       | apply get_copy_tables_checked
                       | apply ensure_replication_slot_snapshot_checked
                       | apply copy_table_data_checked
                       | apply commit_checked
                       | progress unfold copy_node_data ]).
Qed.

(** X6: no statement of the bootstrap other than ROLLBACK may fail without
    ending it: when the reply to a statement is none of COMMAND_OK,
    TUPLES_OK, COPY_OUT and COPY_IN, the bootstrap does nothing more than
    read the error message of a session (it does so for the two COPY
    statements) and ends in an error of level ERROR or FATAL. *)
Theorem failed_statement_ends_bootstrap (w : world) (conn : PGLogicalConnection)
    (h : history) (c : PGconn) (q : string) (res : PGresult) :
  In (EvPQexec c q res) (snd (pglogical_init_replica w conn h)) ->
  q <> "ROLLBACK" ->
  statement_failed res = true ->
  exists pre post e,
    snd (pglogical_init_replica w conn h) = pre ++ EvPQexec c q res :: post
    /\ (post = [] \/ exists c' text, post = [EvPQerrorMessage c' text])
    /\ fst (pglogical_init_replica w conn h) = Raised e
    /\ (elevel e = ERROR \/ elevel e = FATAL).
Proof.
  intros Hin Hq Hres.
  assert (Hbad : failed_statement (EvPQexec c q res) = true).
  { cbn [failed_statement]. rewrite Hres.
    apply String.eqb_neq in Hq. rewrite Hq. reflexivity. }
  destruct (pglogical_init_replica_checked w conn h _ Hin Hbad)
    as (pre & post & E & Hpost & e & Hx & Hlvl).
  exists pre, post, e. repeat split; auto. apply exit_of_threw. exact Hx.
Qed.

(** ** The rows of a table go through unchanged *)

Lemma chunks_read_app (a b : list event) :
  chunks_read (a ++ b) = chunks_read a ++ chunks_read b.
Proof.
  induction a as [|e a IH]; cbn [app chunks_read]; [reflexivity|].
  destruct e; rewrite ?IH; try reflexivity.
  destruct (0 <? bytes)%Z; reflexivity.
Qed.

Lemma chunks_written_app (a b : list event) :
  chunks_written (a ++ b) = chunks_written a ++ chunks_written b.
Proof.
  induction a as [|e a IH]; cbn [app chunks_written]; [reflexivity|].
  destruct e; rewrite ?IH; reflexivity.
Qed.

Lemma forwarded_sequential : sequential forwarded.
Proof.
  split; [reflexivity|].
  unfold forwarded. intros e1 e2 x H1 H2.
  rewrite chunks_read_app, chunks_written_app, H1, H2. reflexivity.
Qed.

Lemma no_chunk_forwarded {A} (m : M A) : emits (is_not is_chunk) m -> sat forwarded m.
Proof.
  intros Hm h. specialize (Hm h). unfold forwarded.
  induction (snd (m h)) as [|e evs IH]; [reflexivity|].
  cbn [forallb] in Hm. apply andb_true_iff in Hm as [He Hevs].
  destruct e; try discriminate He; cbn [chunks_read chunks_written]; auto.
Qed.

(** As [sat_prog], for a property whose silent calls are closed by
    [close]. *)
Ltac sat_by Hseq leaf close :=
  repeat first
    [ leaf
    | apply sat_bind; [exact Hseq | | intros]
    | apply sat_foreach; [exact Hseq | intros]
    | match goal with
      | |- sat _ (match ?x with _ => _ end) => destruct x
      end
    | solve [close] ].

Lemma copy_rows_forwarded (w : world) oc tc rows last :
  sat forwarded (copy_rows w oc tc rows last).
Proof.
  induction rows as [|copybuf rows IH]; intros h.
  - destruct last; reflexivity.
  - run_of (copy_rows w oc tc (copybuf :: rows) last) h r evs H.
    cbn [copy_rows] in H. unfold_calls H.
    steps H; unfold forwarded; cbn [chunks_read chunks_written];
      rewrite ?E; try reflexivity.
    f_equal.
    match type of H with
    | copy_rows _ _ _ _ _ ?hh = _ => specialize (IH hh)
    end.
    rewrite H in IH. exact IH.
Qed.

Lemma pglogical_init_replica_forwarded (w : world) conn :
  sat forwarded (pglogical_init_replica w conn).
Proof.
  unfold pglogical_init_replica.
  sat_by forwarded_sequential
         ltac:(first [ apply copy_rows_forwarded
                     | progress unfold copy_node_data, copy_table_data ])
         ltac:(apply no_chunk_forwarded; emits_prog).
Qed.

(** X7: in every run of the bootstrap, however it ends, what was passed to
    PQputCopyData is what PQgetCopyData handed over: the same buffers with
    the same lengths, in the same order, none left out and none written
    twice. *)
Theorem chunks_are_forwarded (w : world) (conn : PGLogicalConnection) (h : history) :
  chunks_written (snd (pglogical_init_replica w conn h))
  = chunks_read (snd (pglogical_init_replica w conn h)).
Proof. exact (pglogical_init_replica_forwarded w conn h). Qed.

(** ** A table copy that returns *)

Lemma ExecStatusType_eqb_eq (a b : ExecStatusType) :
  ExecStatusType_eqb a b = true -> a = b.
Proof. destruct a, b; cbn; intros H; try discriminate H; reflexivity. Qed.

(** The loop is left with -1 only when every row went through and the
    origin then ended the stream. *)
Lemma copy_rows_done (w : world) oc tc rows last : forall h evs,
  copy_rows w oc tc rows last h = (Ok (-1), evs) ->
  last = COPY_DONE
  /\ Forall (fun b => b <> EmptyString) rows
  /\ evs = flat_map (chunk_events oc tc) rows ++ [EvPQgetCopyData oc (-1) EmptyString].
Proof.
  induction rows as [|copybuf rows IH]; intros h evs H; cbn [copy_rows] in H.
  - steps H. destruct last; try discriminate H. injection H as <-.
    repeat split. constructor.
  - unfold_calls H.
    assert (Hlen : Z.of_nat (String.length copybuf) <> -1) by lia.
    steps H; tests; try congruence.
    + apply IH in H. destruct H as (-> & Hrows & ->).
      split; [reflexivity|]. split.
      * constructor; [|exact Hrows]. intros ->. cbn in E. lia.
      * rewrite E0. reflexivity.
    + apply ret_inv in H. destruct H as [H _]. congruence.
Qed.

(** Closes the goal of [copy_table_data_returned] for given orders of
    evaluation, replies and rows. *)
Ltac copy_returned oo oi ro ri rows :=
  exists oo, oi, ro, ri, rows; cbv zeta;
  unfold copy_opening, escaped_names, copy_to_statement, copy_from_statement;
  split; [cbn [app]; list_norm; reflexivity|];
  split; [assumption|]; split; [assumption|]; split; [|assumption];
  symmetry;
  match goal with
  | A : (_, COPY_DONE) = w_copy_out_rows _ _ _ |- _ => etransitivity; [exact A|]
  end;
  f_equal; cbn [app]; list_norm; reflexivity.

(** What a copy of a table that returned has done. *)
Lemma copy_table_data_returned (w : world) (oc tc : PGconn)
    (schemaname relname : string) (h : history) (evs : list event) :
  copy_table_data w oc tc schemaname relname h = (Ok tt, evs) ->
  exists order_out order_in res_out res_in rows,
    let opening :=
      copy_opening oc tc schemaname relname
                   (w_PQescapeIdentifier w oc schemaname)
                   (w_PQescapeIdentifier w oc relname)
                   order_out order_in res_out res_in in
    evs = opening
          ++ flat_map (chunk_events oc tc) rows
          ++ [EvPQgetCopyData oc (-1) EmptyString; EvPQputCopyEnd tc 1]
    /\ PQresultStatus res_out = PGRES_COPY_OUT
    /\ PQresultStatus res_in = PGRES_COPY_IN
    /\ w_copy_out_rows w (h ++ opening) oc = (rows, COPY_DONE)
    /\ Forall (fun b => b <> EmptyString) rows.
Proof.
  intros H. remember (@Ok unit tt) as ok eqn:Hok.
  unfold copy_table_data in H. unfold_calls H.
  steps H; try discriminate Hok; tests.
  all: match goal with
       | R : copy_rows _ _ _ _ _ _ = (Ok ?b, _), Eb : ?b = -1 |- _ =>
           rewrite Eb in R; apply copy_rows_done in R; destruct R as (-> & Hrows & ->)
       end.
  all: repeat match goal with
              | E : ExecStatusType_eqb _ _ = true |- _ => apply ExecStatusType_eqb_eq in E
              end.
  all: repeat match goal with
              | A : ?a = w_PQescapeIdentifier _ _ _ |- _ => subst a
              end.
  all: match goal with
       | E : ?a = 1 |- context [EvPQputCopyEnd _ ?a] => rewrite E
       end.
  all: lazymatch goal with
       | |- exists order_out order_in res_out res_in rows,
              let _ := _ in ?l = _ /\ _ =>
           lazymatch l with
           | context [EvPQexec _ _ ?ro :: _ :: _ :: EvPQexec _ _ ?ri :: _] =>
               lazymatch l with
               | context [flat_map _ ?rows] =>
                   first [ copy_returned true true ro ri rows
                         | copy_returned true false ro ri rows
                         | copy_returned false true ro ri rows
                         | copy_returned false false ro ri rows ]
               end
           end
       end.
Qed.

(** X8: a copy of a table that returns has had both COPY statements
    accepted (COPY_OUT on the origin, COPY_IN on the target), both naming
    the table by the same two identifiers escaped on the origin session
    before each statement, the two escapes of a statement being made in
    the order the compiled code evaluates the arguments of a call; it has
    then passed every row of the stream to the target, each one whole, in
    order and accepted, before the origin ended the stream with -1, and
    has sent the end of the copy, which the target accepted. *)
Theorem copy_table_data_forwards_stream (w : world) (oc tc : PGconn)
    (schemaname relname : string) (h : history) (evs : list event) :
  copy_table_data w oc tc schemaname relname h = (Ok tt, evs) ->
  exists order_out order_in res_out res_in rows,
    let opening :=
      copy_opening oc tc schemaname relname
                   (w_PQescapeIdentifier w oc schemaname)
                   (w_PQescapeIdentifier w oc relname)
                   order_out order_in res_out res_in in
    evs = opening
          ++ flat_map (chunk_events oc tc) rows
          ++ [EvPQgetCopyData oc (-1) EmptyString; EvPQputCopyEnd tc 1]
    /\ PQresultStatus res_out = PGRES_COPY_OUT
    /\ PQresultStatus res_in = PGRES_COPY_IN
    /\ w_copy_out_rows w (h ++ opening) oc = (rows, COPY_DONE)
    /\ Forall (fun b => b <> EmptyString) rows.
Proof. exact (copy_table_data_returned w oc tc schemaname relname h evs). Qed.

Lemma copy_table_data_forwards_stream_witness :
  let run := copy_table_data Scenario.healthy 1%nat 2%nat "public" "accounts" [] in
  run = (Ok tt, snd run)
  /\ exists order_out order_in res_out res_in rows,
       let opening :=
         copy_opening 1%nat 2%nat "public" "accounts"
                      (w_PQescapeIdentifier Scenario.healthy 1%nat "public")
                      (w_PQescapeIdentifier Scenario.healthy 1%nat "accounts")
                      order_out order_in res_out res_in in
       snd run = opening
                 ++ flat_map (chunk_events 1%nat 2%nat) rows
                 ++ [EvPQgetCopyData 1%nat (-1) EmptyString; EvPQputCopyEnd 2%nat 1]
       /\ PQresultStatus res_out = PGRES_COPY_OUT
       /\ PQresultStatus res_in = PGRES_COPY_IN
       /\ w_copy_out_rows Scenario.healthy ([] ++ opening) 1%nat = (rows, COPY_DONE)
       /\ Forall (fun b => b <> EmptyString) rows.
Proof.
  cbv zeta.
  assert (Hrun : copy_table_data Scenario.healthy 1%nat 2%nat "public" "accounts" []
                 = (Ok tt, snd (copy_table_data Scenario.healthy 1%nat 2%nat
                                  "public" "accounts" [])))
    by (vm_compute; reflexivity).
  split; [exact Hrun|].
  exact (copy_table_data_forwards_stream Scenario.healthy 1%nat 2%nat
           "public" "accounts" [] _ Hrun).
Defined.

(** Both orders of evaluation, run: the two escapes of a statement
    change places and nothing else does. *)
Example escapes_in_either_order :
  let in_order :=
    Faults.with_order Scenario.healthy (fun _ => true) in
  let run1 := copy_table_data in_order 1%nat 2%nat "public" "orders" [] in
  let run2 := copy_table_data Scenario.healthy 1%nat 2%nat "public" "orders" [] in
  firstn 2 (snd run1)
  = [EvPQescapeIdentifier 1%nat "public" (dq +++ "public" +++ dq);
     EvPQescapeIdentifier 1%nat "orders" (dq +++ "orders" +++ dq)]
  /\ firstn 2 (snd run2)
     = [EvPQescapeIdentifier 1%nat "orders" (dq +++ "orders" +++ dq);
        EvPQescapeIdentifier 1%nat "public" (dq +++ "public" +++ dq)]
  /\ skipn 2 (firstn 3 (snd run1)) = skipn 2 (firstn 3 (snd run2))
  /\ fst run1 = Ok tt /\ fst run2 = Ok tt.
Proof. vm_compute. repeat split. Qed.

(** ** The list of the tables *)

(** The loop over the rows of a reply whose rows [rows] are still to be
    read, [pre] having been read. *)
Lemma result_tables_run (res : PGresult) (rows : list (list string)) :
  forall pre h r evs,
    PQtuples res = pre ++ rows ->
    result_tables res (seq (List.length pre) (List.length rows)) h = (r, evs) ->
    evs = []
    /\ match r with
       | Ok tables => map row_names tables = map (firstn 2) rows
       | Raised _ => False
       | Crashed => exists row, In row rows /\ (List.length row < 2)%nat
       end.
Proof.
  induction rows as [|row rows IH]; intros pre h r evs Hres H;
    cbn [List.length seq result_tables] in H.
  - steps H. split; reflexivity.
  - assert (Hrow : forall c, PQgetvalue res (List.length pre) c = nth_error row c).
    { intros c. unfold PQgetvalue. rewrite Hres.
      rewrite nth_error_app2 by lia. rewrite Nat.sub_diag. reflexivity. }
    rewrite !Hrow in H.
    assert (Hnext : PQtuples res = (pre ++ [row]) ++ rows)
      by (rewrite Hres, <- app_assoc; reflexivity).
    assert (Hlen : S (List.length pre) = List.length (pre ++ [row]))
      by (rewrite length_app; cbn; lia).
    rewrite Hlen in H.
    destruct row as [|nspname [|rel row]]; cbn [nth_error] in H.
    + steps H. split; [reflexivity|]. exists []. split; [left; reflexivity | cbn; lia].
    + steps H. split; [reflexivity|]. exists [nspname].
      split; [left; reflexivity | cbn; lia].
    + steps H.
      * destruct (IH _ _ _ _ Hnext R) as (-> & Htables). split; [reflexivity|].
        cbn [map row_names firstn schemaname relname]. f_equal. exact Htables.
      * destruct (IH _ _ _ _ Hnext R) as (_ & []).
      * destruct (IH _ _ _ _ Hnext R) as (-> & row' & Hin & Hshort).
        split; [reflexivity|]. exists row'. split; [right; exact Hin | exact Hshort].
Qed.

(** What get_copy_tables has done and how it ended, by the reply to its
    query. *)
Lemma get_copy_tables_run (w : world) (oc : PGconn) (sets : list PGLogicalRepSet)
    (h : history) (r : outcome (list RangeVar)) (evs : list event) :
  get_copy_tables w oc sets h = (r, evs) ->
  exists res,
    let lit := w_PQescapeLiteral w oc (repsetarr sets) in
    evs = [EvPQescapeLiteral oc (repsetarr sets) lit;
           EvPQexec oc (copy_tables_query w lit) res]
    /\ match r with
       | Ok tables =>
           PQresultStatus res = PGRES_TUPLES_OK
           /\ map row_names tables = map (firstn 2) (PQtuples res)
       | Raised e =>
           PQresultStatus res <> PGRES_TUPLES_OK /\ e = no_table_list
       | Crashed =>
           PQresultStatus res = PGRES_TUPLES_OK
           /\ exists row, In row (PQtuples res) /\ (List.length row < 2)%nat
       end.
Proof.
  intros H. unfold get_copy_tables in H. unfold_calls H.
  steps H.
  - apply ExecStatusType_eqb_eq in E.
    destruct (result_tables_run a0 (PQtuples a0) [] _ _ _ eq_refl H) as (-> & Hr).
    exists a0. cbv zeta. subst a. split; [reflexivity|].
    destruct r as [tables|e|]; [split; assumption | destruct Hr | split; assumption].
  - exists a0. cbv zeta. subst a. split; [reflexivity|]. split; [|reflexivity].
    intros Hst. rewrite Hst in E. discriminate E.
Qed.

(** X9: get_copy_tables escapes the array of the set names as one literal,
    sends one query, and ends by the reply alone.  A reply that is not
    TUPLES_OK raises the ERROR "could not get table list".  Otherwise the
    tables returned are the rows of the reply, in order, each named by its
    first two fields (so an empty reply gives no table); a row of fewer
    than two fields hands a NULL to pstrdup. *)
Theorem get_copy_tables_returns_reply_rows (w : world) (oc : PGconn)
    (sets : list PGLogicalRepSet) (h : history) :
  exists res,
    let lit := w_PQescapeLiteral w oc (repsetarr sets) in
    snd (get_copy_tables w oc sets h)
    = [EvPQescapeLiteral oc (repsetarr sets) lit;
       EvPQexec oc (copy_tables_query w lit) res]
    /\ match fst (get_copy_tables w oc sets h) with
       | Ok tables =>
           PQresultStatus res = PGRES_TUPLES_OK
           /\ map row_names tables = map (firstn 2) (PQtuples res)
       | Raised e =>
           PQresultStatus res <> PGRES_TUPLES_OK /\ e = no_table_list
       | Crashed =>
           PQresultStatus res = PGRES_TUPLES_OK
           /\ exists row, In row (PQtuples res) /\ (List.length row < 2)%nat
       end.
Proof.
  exact (get_copy_tables_run w oc sets h _ _ (surjective_pairing _)).
Qed.

(** ** The reply to the slot command *)

(** X10: ensure_replication_slot_snapshot sends the one slot command and
    ends by its reply alone.  A reply that is not TUPLES_OK is FATAL, the
    report naming the command, the status and the error of the reply.
    Otherwise the LSN is parsed from row 0, column 1, an LSN that does not
    parse raising the error of pg_lsn_in, and the snapshot is row 0,
    column 2; column 0, the name of the slot, is not read.  A reply with
    no row, or a row that lacks one of the two fields, hands a NULL to a
    string function. *)
Theorem slot_reply_is_read_or_fatal (w : world) (oc : PGconn) (slot_name : string)
    (h : history) :
  let run := ensure_replication_slot_snapshot w oc slot_name h in
  let query := slot_command slot_name in
  let res := w_PQexec w h oc query in
  snd run = [EvPQexec oc query res]
  /\ match fst run with
     | Ok (snapshot, lsn) =>
         PQresultStatus res = PGRES_TUPLES_OK
         /\ PQgetvalue res 0 2 = Some snapshot
         /\ exists lsn_text,
              PQgetvalue res 0 1 = Some lsn_text /\ pg_lsn_in w lsn_text = inr lsn
     | Raised e =>
         (PQresultStatus res <> PGRES_TUPLES_OK /\ e = slot_command_failed query res)
         \/ (PQresultStatus res = PGRES_TUPLES_OK
             /\ exists lsn_text,
                  PQgetvalue res 0 1 = Some lsn_text /\ pg_lsn_in w lsn_text = inl e)
     | Crashed =>
         PQresultStatus res = PGRES_TUPLES_OK
         /\ (PQgetvalue res 0 1 = None \/ PQgetvalue res 0 2 = None)
     end.
Proof.
  cbv zeta.
  run_of (ensure_replication_slot_snapshot w oc slot_name) h r evs H.
  unfold ensure_replication_slot_snapshot in H. unfold_calls H.
  steps H; subst a; (split; [reflexivity|]);
    try apply ExecStatusType_eqb_eq in E.
  - right. split; [exact E|]. eexists; split; eassumption.
  - split; [exact E|]. split; [assumption|]. eexists; split; eassumption.
  - split; [exact E|]. right. assumption.
  - split; [exact E|]. left. assumption.
  - left. split; [|reflexivity]. intros Hst. rewrite Hst in E. discriminate E.
Qed.

(** ** The last phase *)

(** X12: a bootstrap entered at SLOTS, CATCHUP or CONNECT_BACK with a
    subscriber as target redoes nothing of the phases before: it writes the
    statuses it has left, up to READY, then connects back to the origin;
    with the session up it sets the status of the node on the origin to
    READY, closes the session and returns; otherwise it ends in the FATAL
    report of the connection, READY being written locally. *)
Theorem resumed_bootstrap_only_finishes (w : world) (conn : PGLogicalConnection)
    (h : history) (r : outcome unit) (evs : list event) :
  node_role (target conn) = NODE_ROLE_SUBSCRIBER ->
  In (node_status (target conn))
     [NODE_STATUS_SLOTS; NODE_STATUS_CATCHUP; NODE_STATUS_CONNECT_BACK] ->
  pglogical_init_replica w conn h = (r, evs) ->
  exists before c st tail,
    map (EvSetNodeStatus (node_id (target conn)))
        (resumed_statuses (node_status (target conn)))
    = before ++ [EvSetNodeStatus (node_id (target conn)) NODE_STATUS_READY]
    /\ evs = before ++ ready_events w conn c st tail
    /\ ready_outcome w conn c st tail r.
Proof.
  intros Hrole Hst H. unfold pglogical_init_replica in H. rewrite Hrole in H.
  unfold pg_connect in H. unfold_calls H.
  unfold ready_events, ready_outcome, connect_string.
  cbn [In] in Hst.
  destruct Hst as [Hst|[Hst|[Hst|[]]]]; rewrite <- Hst in *; cbn [NodeStatus_eqb] in H;
    steps H; cbn [resumed_statuses map].
  all: lazymatch goal with
       | |- exists before c st tail, ?l = _ /\ _ =>
           let p := drop_last l in
           exists p; do 3 eexists; split; [reflexivity|]; split; [reflexivity|]
       end.
  all: first [ left; repeat split; reflexivity
             | right; split; [discriminate|]; eexists; split; reflexivity ].
Qed.

Lemma resumed_bootstrap_only_finishes_witness :
  let conn := Scenario.connection NODE_STATUS_SLOTS ["default"] in
  let run := pglogical_init_replica Scenario.healthy conn [] in
  node_role (target conn) = NODE_ROLE_SUBSCRIBER
  /\ In (node_status (target conn))
        [NODE_STATUS_SLOTS; NODE_STATUS_CATCHUP; NODE_STATUS_CONNECT_BACK]
  /\ exists before c st tail,
       map (EvSetNodeStatus (node_id (target conn)))
           (resumed_statuses (node_status (target conn)))
       = before ++ [EvSetNodeStatus (node_id (target conn)) NODE_STATUS_READY]
       /\ snd run = before ++ ready_events Scenario.healthy conn c st tail
       /\ ready_outcome Scenario.healthy conn c st tail (fst run).
Proof.
  cbv zeta. split; [reflexivity|]. split; [left; reflexivity|].
  exact (resumed_bootstrap_only_finishes Scenario.healthy
           (Scenario.connection NODE_STATUS_SLOTS ["default"]) [] _ _
           eq_refl (or_introl eq_refl) (surjective_pairing _)).
Defined.

(** The events of [l] that come before the writing of READY. *)
Ltac before_ready l :=
  lazymatch l with
  | EvSetNodeStatus _ NODE_STATUS_READY :: _ => constr:(@nil event)
  | ?a :: ?t => let r := before_ready t in constr:(a :: r)
  | ?x ++ ?t => let r := before_ready t in constr:(x ++ r)
  end.

(** Finds an event in a list written with [::] and [++]. *)
Ltac find_in := repeat first [ left; reflexivity | right | apply in_or_app; right ].

(** What the bootstrap does once READY is written, whatever the status it
    was entered with. *)
Lemma ready_written_run (w : world) (conn : PGLogicalConnection)
    (h : history) (r : outcome unit) (evs : list event) :
  pglogical_init_replica w conn h = (r, evs) ->
  (In (EvSetNodeStatus (node_id (target conn)) NODE_STATUS_READY) evs ->
   exists before c st tail,
     evs = before ++ ready_events w conn c st tail
     /\ ready_outcome w conn c st tail r)
  /\ (r = Ok tt -> In (EvSetNodeStatus (node_id (target conn)) NODE_STATUS_READY) evs)
  /\ (forall c n s, In (EvSetRemoteNodeStatus c n s) evs -> r = Ok tt).
Proof.
  intros H. unfold pglogical_init_replica in H.
  unfold pg_connect at 1 in H.
  unfold elog, ereport, StartTransactionCommand, CommitTransactionCommand,
    get_database_name, replorigin_advance, set_node_status, set_remote_node_status,
    PQfinish, PQconnectdb, PQstatus, PQerrorMessage in H.
  unfold ready_events, ready_outcome, connect_string.
  destruct (node_status (target conn)) eqn:Hst; cbn [NodeStatus_eqb] in H.
  all: steps H.
  all: quiet (is_not is_ready_written); quiet (is_not is_remote_status).
  all: split; [|split].
  all: lazymatch goal with
       | |- forall c n s, In _ _ -> _ =>
           intros c' n' s' Hin;
           first [ reflexivity | exfalso; in_split Hin; in_cases Hin; sealed ]
       | |- _ = Ok tt -> _ =>
           intros Hok; first [ discriminate Hok | solve [find_in] ]
       | |- In _ _ -> _ =>
           intros Hin; try (exfalso; in_split Hin; in_cases Hin; sealed)
       end.
  all: lazymatch goal with
       | |- exists before c st tail, ?l = _ /\ _ =>
           let p := before_ready l in
           lazymatch l with
           | context [EvSetNodeStatus _ NODE_STATUS_READY
                      :: EvPQconnectdb _ ?c :: EvPQstatus _ ?st :: ?tail] =>
               exists p, c, st, tail; split; [list_norm; reflexivity|]
           end
       end.
  all: first [ left; repeat split; reflexivity
             | right; split; [discriminate|]; eexists; split; reflexivity ].
Qed.

(** X13: the bootstrap tells the origin last.  READY is written locally
    before the connection back to the origin is made; a bootstrap that
    wrote it ends by the state of that connection alone: with the session
    up, the status of the node is set to READY on the origin, the session
    is closed and the bootstrap returns; otherwise it ends in the FATAL
    report of the connection with READY written locally and the origin not
    told.  A bootstrap returns only this way, and the origin is told only
    by a bootstrap that returns. *)
Theorem origin_is_told_last (w : world) (conn : PGLogicalConnection) (h : history) :
  let run := pglogical_init_replica w conn h in
  (In (EvSetNodeStatus (node_id (target conn)) NODE_STATUS_READY) (snd run) ->
   exists before c st tail,
     snd run = before ++ ready_events w conn c st tail
     /\ ready_outcome w conn c st tail (fst run))
  /\ (fst run = Ok tt ->
      In (EvSetNodeStatus (node_id (target conn)) NODE_STATUS_READY) (snd run))
  /\ (forall c n s, In (EvSetRemoteNodeStatus c n s) (snd run) -> fst run = Ok tt).
Proof.
  exact (ready_written_run w conn h _ _ (surjective_pairing _)).
Qed.

(** ** A target that is not a subscriber *)

(** X14: a target whose role is not subscriber is rejected, but late: the
    role is looked at only once CATCHUP is the status, so a bootstrap
    entered at INIT first goes through the whole of the INIT and
    SYNC_SCHEMA phases.  Such a bootstrap never returns, writes no status
    past CATCHUP, and once CATCHUP is reached (on entry, or written) ends
    in the ERROR "only subscriber node can be replication target". *)
Theorem other_role_is_rejected_late (w : world) (conn : PGLogicalConnection)
    (h : history) (r : outcome unit) (evs : list event) :
  node_role (target conn) <> NODE_ROLE_SUBSCRIBER ->
  pglogical_init_replica w conn h = (r, evs) ->
  r <> Ok tt
  /\ (forall s, In s (statuses evs) ->
                s = NODE_STATUS_SYNC_SCHEMA \/ s = NODE_STATUS_SLOTS
                \/ s = NODE_STATUS_CATCHUP)
  /\ (node_status (target conn) = NODE_STATUS_CATCHUP
      \/ node_status (target conn) = NODE_STATUS_CONNECT_BACK
      \/ In NODE_STATUS_CATCHUP (statuses evs) ->
      r = Raised only_subscriber_error).
Proof.
  intros Hrole H. unfold pglogical_init_replica in H.
  destruct (node_role (target conn)) eqn:Er; [clear Hrole | congruence].
  unfold elog, ereport, StartTransactionCommand, CommitTransactionCommand,
    get_database_name, replorigin_advance, set_node_status, set_remote_node_status,
    PQfinish in H.
  destruct (node_status (target conn)) eqn:Hst; cbn [NodeStatus_eqb] in H.
  all: steps H.
  all: quiet (is_not is_set_status).
  all: repeat first
         [ rewrite statuses_app
         | progress cbn [statuses app]
         | match goal with
           | Hq : forallb (is_not is_set_status) ?e = true |- _ =>
               rewrite (statuses_quiet e Hq)
           end ].
  all: split; [discriminate|]; split.
  all: try (intros s' Hin; cbn [In] in Hin; in_cases Hin; auto; fail).
  all: intros [Hc|[Hc|Hc]]; try discriminate Hc; try reflexivity.
  all: cbn [In] in Hc; in_cases Hc.
Qed.

Lemma other_role_is_rejected_late_witness :
  let conn := Faults.misassigned NODE_STATUS_INIT in
  let run := pglogical_init_replica Scenario.healthy conn [] in
  node_role (target conn) <> NODE_ROLE_SUBSCRIBER
  /\ fst run <> Ok tt
  /\ (forall s, In s (statuses (snd run)) ->
                s = NODE_STATUS_SYNC_SCHEMA \/ s = NODE_STATUS_SLOTS
                \/ s = NODE_STATUS_CATCHUP)
  /\ (node_status (target conn) = NODE_STATUS_CATCHUP
      \/ node_status (target conn) = NODE_STATUS_CONNECT_BACK
      \/ In NODE_STATUS_CATCHUP (statuses (snd run)) ->
      fst run = Raised only_subscriber_error).
Proof.
  cbv zeta.
  assert (Hrole : node_role (target (Faults.misassigned NODE_STATUS_INIT))
                  <> NODE_ROLE_SUBSCRIBER) by discriminate.
  split; [exact Hrole|].
  exact (other_role_is_rejected_late Scenario.healthy
           (Faults.misassigned NODE_STATUS_INIT) [] _ _ Hrole (surjective_pairing _)).
Defined.

(** The mis-assigned target of the example gets the schema and the rows
    before it is rejected. *)
Example misassigned_target_is_copied_first :
  let run := pglogical_init_replica Scenario.healthy
               (Faults.misassigned NODE_STATUS_INIT) [] in
  fst run = Raised only_subscriber_error
  /\ statuses (snd run)
     = [NODE_STATUS_SYNC_SCHEMA; NODE_STATUS_SLOTS; NODE_STATUS_CATCHUP]
  /\ List.length (chunks_written (snd run)) = 3%nat.
Proof. vm_compute. repeat split. Qed.

(** ** Sessions *)

Lemma sessions_quiet (e : list event) :
  forallb (is_not is_session) e = true -> filter is_session e = [].
Proof.
  induction e as [|x e IH]; cbn [forallb filter]; [reflexivity|].
  intros H. apply andb_true_iff in H as [Hx He].
  unfold is_not in Hx. apply negb_true_iff in Hx. rewrite Hx. auto.
Qed.

(** Brings [filter is_session] of the events of a run to the session
    events it holds. *)
Ltac sessions :=
  repeat first
    [ rewrite filter_app
    | progress cbn [filter is_session app]
    | match goal with
      | Hq : forallb (is_not is_session) ?e = true |- _ =>
          rewrite (sessions_quiet e Hq)
      end ].

(** The sessions of copy_node_data, however it ends. *)
Lemma copy_node_data_sessions (w : world) (conn : PGLogicalConnection)
    (snapshot : string) (h : history) (r : outcome unit) (evs : list event) :
  copy_node_data w conn snapshot h = (r, evs) ->
  exists oc tc n,
    filter is_session evs = firstn n (copy_sessions w conn oc tc)
    /\ (1 <= n <= 4)%nat
    /\ (r = Ok tt <-> n = 4%nat).
Proof.
  intros H. unfold copy_node_data, pg_connect in H.
  unfold PQconnectdb, PQstatus, PQerrorMessage, PQexec, PQfinish, elog, ereport in H.
  unfold copy_sessions, connect_string.
  steps H; quiet (is_not is_session); sessions.
  all: lazymatch goal with
       | |- exists oc tc n, ?l = _ /\ _ =>
           lazymatch l with
           | EvPQconnectdb _ ?oc :: EvPQconnectdb _ ?tc :: ?rest =>
               exists oc, tc, (S (S (List.length rest)))
           | [EvPQconnectdb _ ?oc] => exists oc, 0%nat, 1%nat
           end
       end.
  all: cbn [List.length firstn]; split; [reflexivity|]; split; [lia|].
  all: split; intros Hx; first [reflexivity | discriminate Hx].
Qed.

(** X15: copy_node_data opens the session on the origin, then the one on
    the target, and closes them in the same order; its session events are
    always the first of these four, and all four exactly when it returns.
    A copy that does not return has not closed the session on the target,
    and has closed the one on the origin only when it is the COMMIT that
    failed. *)
Theorem copy_sessions_closed_on_return (w : world) (conn : PGLogicalConnection)
    (snapshot : string) (h : history) :
  exists oc tc n,
    filter is_session (snd (copy_node_data w conn snapshot h))
    = firstn n (copy_sessions w conn oc tc)
    /\ (1 <= n <= 4)%nat
    /\ (fst (copy_node_data w conn snapshot h) = Ok tt <-> n = 4%nat).
Proof.
  exact (copy_node_data_sessions w conn snapshot h _ _ (surjective_pairing _)).
Qed.

(** X16: the sessions of a bootstrap entered at INIT that returns: the
    replication session on the origin, the two sessions of the copy, and
    the session that tells the origin.  The last three are closed; the
    replication session, whose snapshot the dump and the copy read, is
    never closed by the bootstrap. *)
Theorem replication_session_stays_open (w : world) (conn : PGLogicalConnection)
    (h : history) (evs : list event) :
  node_status (target conn) = NODE_STATUS_INIT ->
  pglogical_init_replica w conn h = (Ok tt, evs) ->
  exists rc oc tc bc,
    filter is_session evs
    = EvPQconnectdb (replication_string (node_dsn (origin conn))
                                        (EXTENSION_NAME w +++ "_snapshot")) rc
      :: copy_sessions w conn oc tc
      ++ [EvPQconnectdb (connect_string (node_dsn (origin conn))
                                        (EXTENSION_NAME w +++ "_init")) bc;
          EvPQfinish bc].
Proof.
  intros Hst H. remember (@Ok unit tt) as ok eqn:Hok.
  unfold pglogical_init_replica in H. rewrite Hst in H. cbn [NodeStatus_eqb] in H.
  unfold pg_connect, pg_connect_replica in H.
  unfold elog, ereport, StartTransactionCommand, CommitTransactionCommand,
    get_database_name, replorigin_advance, set_node_status, set_remote_node_status,
    PQfinish, PQconnectdb, PQstatus, PQerrorMessage in H.
  steps H; try discriminate Hok.
  match goal with
  | Rc : copy_node_data _ _ _ _ = _ |- _ =>
      pose proof (copy_node_data_sessions _ _ _ _ _ _ Rc) as (oc & tc & n & Hs & _ & Hn)
  end.
  assert (n = 4%nat)
    by (apply Hn; match goal with |- Ok ?u = Ok tt => destruct u; reflexivity end).
  subst n.
  cbn [firstn] in Hs.
  quiet (is_not is_session). sessions. rewrite Hs.
  unfold replication_string, connect_string.
  do 4 eexists. reflexivity.
Qed.

Lemma replication_session_stays_open_witness :
  let conn := Scenario.connection NODE_STATUS_INIT ["default"] in
  let run := pglogical_init_replica Scenario.healthy conn [] in
  node_status (target conn) = NODE_STATUS_INIT
  /\ run = (Ok tt, snd run)
  /\ exists rc oc tc bc,
       filter is_session (snd run)
       = EvPQconnectdb (replication_string (node_dsn (origin conn))
                          (EXTENSION_NAME Scenario.healthy +++ "_snapshot")) rc
         :: copy_sessions Scenario.healthy conn oc tc
         ++ [EvPQconnectdb (connect_string (node_dsn (origin conn))
                              (EXTENSION_NAME Scenario.healthy +++ "_init")) bc;
             EvPQfinish bc].
Proof.
  cbv zeta.
  assert (Hrun : pglogical_init_replica Scenario.healthy
                   (Scenario.connection NODE_STATUS_INIT ["default"]) []
                 = (Ok tt, snd (pglogical_init_replica Scenario.healthy
                                  (Scenario.connection NODE_STATUS_INIT ["default"]) [])))
    by (vm_compute; reflexivity).
  split; [reflexivity|]. split; [exact Hrun|].
  exact (replication_session_stays_open Scenario.healthy
           (Scenario.connection NODE_STATUS_INIT ["default"]) [] _ eq_refl Hrun).
Defined.

(** ** Runs with a fault *)

Lemma failed_probe_ends_bootstrap_witness :
  let conn := Scenario.connection NODE_STATUS_INIT ["default"] in
  let run := pglogical_init_replica Faults.unversioned_tools conn [] in
  let f := EvPopen (version_command Faults.unversioned_tools
                      (tool_path Faults.unversioned_tools
                                 "/usr/lib/postgresql/9.4/bin" "pg_dump"))
                   PROBE_NO_MATCH in
  In f (snd run)
  /\ tool_not_probed f = true
  /\ exists pre tool,
       snd run = pre ++ [f]
       /\ (tool = "pg_dump" \/ tool = "pg_restore")
       /\ fst run = Raised (not_found_error Faults.unversioned_tools tool)
       /\ forall cmd reply, f = EvPopen cmd reply ->
            exists dir,
              cmd = version_command Faults.unversioned_tools
                      (tool_path Faults.unversioned_tools dir tool).
Proof.
  cbv zeta.
  assert (Hin : In (EvPopen (version_command Faults.unversioned_tools
                               (tool_path Faults.unversioned_tools
                                          "/usr/lib/postgresql/9.4/bin" "pg_dump"))
                            PROBE_NO_MATCH)
                   (snd (pglogical_init_replica Faults.unversioned_tools
                           (Scenario.connection NODE_STATUS_INIT ["default"]) [])))
    by (vm_compute; repeat first [left; reflexivity | right]).
  split; [exact Hin|]. split; [reflexivity|].
  exact (failed_probe_ends_bootstrap Faults.unversioned_tools
           (Scenario.connection NODE_STATUS_INIT ["default"]) [] _ Hin eq_refl).
Defined.

Lemma failed_connection_is_fatal_witness :
  let conn := Scenario.connection NODE_STATUS_INIT ["default"] in
  let run := pglogical_init_replica Faults.target_down conn [] in
  In (EvPQstatus 3%nat CONNECTION_BAD) (snd run)
  /\ CONNECTION_BAD <> CONNECTION_OK
  /\ exists pre conninfo text replication,
       snd run = pre ++ [EvPQconnectdb conninfo 3%nat; EvPQstatus 3%nat CONNECTION_BAD;
                         EvPQerrorMessage 3%nat text]
       /\ fst run = Raised (could_not_connect replication conninfo text).
Proof.
  cbv zeta.
  assert (Hin : In (EvPQstatus 3%nat CONNECTION_BAD)
                   (snd (pglogical_init_replica Faults.target_down
                           (Scenario.connection NODE_STATUS_INIT ["default"]) [])))
    by (vm_compute; repeat first [left; reflexivity | right]).
  assert (Hbad : CONNECTION_BAD <> CONNECTION_OK) by discriminate.
  split; [exact Hin|]. split; [exact Hbad|].
  exact (failed_connection_is_fatal Faults.target_down
           (Scenario.connection NODE_STATUS_INIT ["default"]) [] _ _ Hin Hbad).
Defined.

(** The target that cannot be reached is found so after the dump and the
    restore of pre-data, the session on the origin being open in its
    transaction; SYNC_SCHEMA is the last status written. *)
Example target_down_run :
  let run := pglogical_init_replica Faults.target_down
               (Scenario.connection NODE_STATUS_INIT ["default"]) [] in
  fst run = Raised (could_not_connect false
                      "host=target dbname=postgres fallback_application_name='pglogical_init'"
                      "server closed the connection unexpectedly")
  /\ statuses (snd run) = [NODE_STATUS_SYNC_SCHEMA]
  /\ List.length (filter is_system (snd run)) = 2%nat
  /\ filter is_session (snd run)
     = [EvPQconnectdb
          "host=origin dbname=postgres replication=database fallback_application_name='pglogical_snapshot'"
          1%nat;
        EvPQconnectdb
          "host=origin dbname=postgres fallback_application_name='pglogical_init'" 2%nat;
        EvPQconnectdb
          "host=target dbname=postgres fallback_application_name='pglogical_init'" 3%nat].
Proof. vm_compute. repeat split. Qed.

(** The cancelled copy has written two of the three rows of accounts. *)
Example cancelled_run :
  let run := pglogical_init_replica Faults.cancelled
               (Scenario.connection NODE_STATUS_INIT ["default"]) [] in
  fst run = Raised Faults.query_canceled
  /\ chunks_written (snd run) = [("alice" +++ nl, 6); ("bob" +++ nl, 4)]
  /\ statuses (snd run) = [NODE_STATUS_SYNC_SCHEMA].
Proof. vm_compute. repeat split. Qed.

Lemma failed_statement_ends_bootstrap_witness :
  let conn := Scenario.connection NODE_STATUS_INIT ["default"] in
  let run := pglogical_init_replica Scenario.commit_refused conn [] in
  In (EvPQexec 3%nat "COMMIT" Scenario.refused) (snd run)
  /\ "COMMIT" <> "ROLLBACK"
  /\ statement_failed Scenario.refused = true
  /\ exists pre post e,
       snd run = pre ++ EvPQexec 3%nat "COMMIT" Scenario.refused :: post
       /\ (post = [] \/ exists c' text, post = [EvPQerrorMessage c' text])
       /\ fst run = Raised e
       /\ (elevel e = ERROR \/ elevel e = FATAL).
Proof.
  cbv zeta.
  assert (Hin : In (EvPQexec 3%nat "COMMIT" Scenario.refused)
                   (snd (pglogical_init_replica Scenario.commit_refused
                           (Scenario.connection NODE_STATUS_INIT ["default"]) [])))
    by (vm_compute; repeat first [left; reflexivity | right]).
  assert (Hq : "COMMIT" <> "ROLLBACK") by discriminate.
  split; [exact Hin|]. split; [exact Hq|]. split; [reflexivity|].
  exact (failed_statement_ends_bootstrap Scenario.commit_refused
           (Scenario.connection NODE_STATUS_INIT ["default"]) [] _ _ _ Hin Hq eq_refl).
Defined.

(** ** A failure in the INIT phase *)

(** X17: a bootstrap entered at INIT that does not get to write
    SYNC_SCHEMA has failed, and has left nothing behind on the target: no
    status is written, the replication origin is not advanced, the local
    transaction is not committed, no tool was run; the node is still at
    INIT. *)
Theorem init_failure_persists_nothing (w : world) (conn : PGLogicalConnection)
    (h : history) (r : outcome unit) (evs : list event) :
  node_status (target conn) = NODE_STATUS_INIT ->
  pglogical_init_replica w conn h = (r, evs) ->
  ~ In (EvSetNodeStatus (node_id (target conn)) NODE_STATUS_SYNC_SCHEMA) evs ->
  r <> Ok tt /\ forallb (is_not is_durable) evs = true.
Proof.
  intros Hst H Hno. unfold pglogical_init_replica in H. rewrite Hst in H.
  cbn [NodeStatus_eqb] in H.
  unfold elog, ereport, StartTransactionCommand, CommitTransactionCommand,
    get_database_name, replorigin_advance, set_node_status in H.
  step_to_dump H; quiet (is_not is_durable).
  all: try (exfalso; apply Hno; solve [find_in]).
  all: split; [discriminate | all_quiet].
Qed.

Lemma init_failure_persists_nothing_witness :
  let conn := Scenario.connection NODE_STATUS_INIT ["default"] in
  let w := Faults.with_sessions Scenario.healthy
             (fun _ _ => CONNECTION_BAD) (fun _ => None) in
  let run := pglogical_init_replica w conn [] in
  node_status (target conn) = NODE_STATUS_INIT
  /\ ~ In (EvSetNodeStatus (node_id (target conn)) NODE_STATUS_SYNC_SCHEMA) (snd run)
  /\ fst run <> Ok tt
  /\ forallb (is_not is_durable) (snd run) = true.
Proof.
  cbv zeta.
  assert (Hno : ~ In (EvSetNodeStatus
                        (node_id (target (Scenario.connection NODE_STATUS_INIT ["default"])))
                        NODE_STATUS_SYNC_SCHEMA)
                     (snd (pglogical_init_replica
                             (Faults.with_sessions Scenario.healthy
                                (fun _ _ => CONNECTION_BAD) (fun _ => None))
                             (Scenario.connection NODE_STATUS_INIT ["default"]) []))).
  { vm_compute. intros Hin.
    repeat match type of Hin with
           | _ \/ _ => destruct Hin as [Hin|Hin]; [discriminate Hin|]
           | False => exact Hin
           end. }
  split; [reflexivity|]. split; [exact Hno|].
  exact (init_failure_persists_nothing _
           (Scenario.connection NODE_STATUS_INIT ["default"]) [] _ _
           eq_refl (surjective_pairing _) Hno).
Defined.

(** ** A COPY statement that is not accepted *)

(** X18: when a statement of copy_table_data fails, be it COPY TO stdout
    on the origin or COPY FROM stdin on the target, the copy of the table
    ends in the ERROR "table copy failed" whose detail holds the statement
    and an error message; for either statement the message is read from
    the session on the origin. *)
Theorem refused_copy_reports_origin_message (w : world) (oc tc : PGconn)
    (schemaname relname : string) (h : history) (c : PGconn) (q : string)
    (res : PGresult) :
  In (EvPQexec c q res) (snd (copy_table_data w oc tc schemaname relname h)) ->
  statement_failed res = true ->
  exists pre text,
    snd (copy_table_data w oc tc schemaname relname h)
    = pre ++ [EvPQexec c q res; EvPQerrorMessage oc text]
    /\ fst (copy_table_data w oc tc schemaname relname h)
       = Raised (table_copy_error q text).
Proof.
  run_of (copy_table_data w oc tc schemaname relname) h r evs H.
  intros Hin Hf. unfold copy_table_data in H. unfold_calls H.
  assert (Hok : forall a st, ExecStatusType_eqb (PQresultStatus a) st = true ->
                             (st = PGRES_COPY_OUT \/ st = PGRES_COPY_IN) ->
                             statement_failed a = true -> False).
  { intros a st Ha Hs Hfa. apply ExecStatusType_eqb_eq in Ha.
    unfold statement_failed in Hfa. rewrite Ha in Hfa.
    destruct Hs as [-> | ->]; discriminate Hfa. }
  steps H; quiet (is_not is_exec); in_split Hin; in_cases Hin;
    try (exfalso; sealed);
    try (exfalso;
         match goal with
         | E : ExecStatusType_eqb (PQresultStatus ?a) _ = true |- _ =>
             refine (Hok a _ E _ Hf); auto
         end; fail).
  all: ends_with.
Qed.

Lemma refused_copy_reports_origin_message_witness :
  let run := copy_table_data Faults.read_only_target 1%nat 2%nat "public" "accounts" [] in
  let q := copy_from_statement (dq +++ "public" +++ dq) (dq +++ "accounts" +++ dq) in
  In (EvPQexec 2%nat q Faults.denied) (snd run)
  /\ statement_failed Faults.denied = true
  /\ exists pre text,
       snd run = pre ++ [EvPQexec 2%nat q Faults.denied; EvPQerrorMessage 1%nat text]
       /\ fst run = Raised (table_copy_error q text).
Proof.
  cbv zeta.
  assert (Hin : In (EvPQexec 2%nat
                      (copy_from_statement (dq +++ "public" +++ dq)
                                           (dq +++ "accounts" +++ dq))
                      Faults.denied)
                   (snd (copy_table_data Faults.read_only_target 1%nat 2%nat
                           "public" "accounts" [])))
    by (vm_compute; repeat first [left; reflexivity | right]).
  split; [exact Hin|]. split; [reflexivity|].
  exact (refused_copy_reports_origin_message Faults.read_only_target 1%nat 2%nat
           "public" "accounts" [] _ _ _ Hin eq_refl).
Defined.

(** ** The nodes a bootstrap connects to *)

Lemma connects_within_sequential (known : list string) :
  sequential (connects_within known).
Proof.
  split.
  - intros conninfo c [].
  - intros e1 e2 x H1 H2 conninfo c Hin. apply in_app_or in Hin as [Hin|Hin]; eauto.
Qed.

Lemma no_connect_within (known : list string) {A} (m : M A) :
  emits (is_not Scenario.is_connect) m -> sat (connects_within known) m.
Proof.
  intros Hm h conninfo c Hin. exfalso.
  exact (none_marked Scenario.is_connect (snd (m h)) _ (Hm h) Hin eq_refl).
Qed.

Lemma pg_connect_within (w : world) (known : list string) connstring connname :
  In (connect_string connstring connname) known ->
  sat (connects_within known) (pg_connect w connstring connname).
Proof.
  intros Hk h. run_of (pg_connect w connstring connname) h r evs H.
  unfold pg_connect in H. unfold_calls H.
  steps H; intros conninfo c Hin; in_split Hin; in_cases Hin; exact Hk.
Qed.

Lemma pg_connect_replica_within (w : world) (known : list string) connstring connname :
  In (replication_string connstring connname) known ->
  sat (connects_within known) (pg_connect_replica w connstring connname).
Proof.
  intros Hk h. run_of (pg_connect_replica w connstring connname) h r evs H.
  unfold pg_connect_replica in H. unfold_calls H.
  steps H; intros conninfo c Hin; in_split Hin; in_cases Hin; exact Hk.
Qed.

Lemma pglogical_init_replica_within (w : world) conn :
  sat (connects_within (bootstrap_conninfo w conn)) (pglogical_init_replica w conn).
Proof.
  unfold pglogical_init_replica.
  sat_by (connects_within_sequential (bootstrap_conninfo w conn))
         ltac:(first [ apply pg_connect_within; unfold bootstrap_conninfo; solve [find_in]
                     | apply pg_connect_replica_within; unfold bootstrap_conninfo;
                       solve [find_in]
                     | progress unfold copy_node_data ])
         ltac:(apply no_connect_within; emits_prog).
Qed.

(** X19: a bootstrap opens sessions on its two nodes only: every
    connection string handed to PQconnectdb is the dsn of the origin in
    replication mode under the name <extension>_snapshot, or the dsn of
    the origin or of the target under the name <extension>_init. *)
Theorem bootstrap_connects_to_its_nodes (w : world) (conn : PGLogicalConnection)
    (h : history) (conninfo : string) (c : PGconn) :
  In (EvPQconnectdb conninfo c) (snd (pglogical_init_replica w conn h)) ->
  conninfo = replication_string (node_dsn (origin conn)) (EXTENSION_NAME w +++ "_snapshot")
  \/ conninfo = connect_string (node_dsn (origin conn)) (EXTENSION_NAME w +++ "_init")
  \/ conninfo = connect_string (node_dsn (target conn)) (EXTENSION_NAME w +++ "_init").
Proof.
  intros Hin.
  pose proof (pglogical_init_replica_within w conn h conninfo c Hin) as Hk.
  unfold bootstrap_conninfo in Hk. cbn [In] in Hk.
  destruct Hk as [Hk|[Hk|[Hk|[]]]]; auto.
Qed.

Lemma bootstrap_connects_to_its_nodes_witness :
  let conn := Scenario.connection NODE_STATUS_INIT ["default"] in
  let run := pglogical_init_replica Scenario.healthy conn [] in
  let conninfo := "host=target dbname=postgres fallback_application_name='pglogical_init'" in
  In (EvPQconnectdb conninfo 3%nat) (snd run)
  /\ (conninfo = replication_string (node_dsn (origin conn))
                   (EXTENSION_NAME Scenario.healthy +++ "_snapshot")
      \/ conninfo = connect_string (node_dsn (origin conn))
                      (EXTENSION_NAME Scenario.healthy +++ "_init")
      \/ conninfo = connect_string (node_dsn (target conn))
                      (EXTENSION_NAME Scenario.healthy +++ "_init")).
Proof.
  cbv zeta.
  assert (Hin : In (EvPQconnectdb
                      "host=target dbname=postgres fallback_application_name='pglogical_init'"
                      3%nat)
                   (snd (pglogical_init_replica Scenario.healthy
                           (Scenario.connection NODE_STATUS_INIT ["default"]) [])))
    by (vm_compute; repeat first [left; reflexivity | right]).
  split; [exact Hin|].
  exact (bootstrap_connects_to_its_nodes Scenario.healthy
           (Scenario.connection NODE_STATUS_INIT ["default"]) [] _ _ Hin).
Defined.

(** ** One snapshot for the dump and for the copy *)

Lemma filter_quiet (P : event -> bool) (e : list event) :
  forallb (is_not P) e = true -> filter P e = [].
Proof.
  induction e as [|x e IH]; cbn [forallb filter]; [reflexivity|].
  intros H. apply andb_true_iff in H as [Hx He].
  unfold is_not in Hx. apply negb_true_iff in Hx. rewrite Hx. auto.
Qed.

Lemma dump_structure_returned (w : world) conn snapshot h evs :
  dump_structure w conn snapshot h = (Ok tt, evs) ->
  exists dir,
    filter is_system evs
    = [EvSystem (dump_command (tool_path w dir "pg_dump") snapshot
                              (node_dsn (origin conn))) 0].
Proof.
  intros H. remember (@Ok unit tt) as ok eqn:Hok.
  unfold dump_structure, find_other_exec_version in H. unfold_calls H.
  steps H; try discriminate Hok; tests.
  eexists. cbn [filter is_system]. rewrite E3. reflexivity.
Qed.

Lemma restore_structure_returned (w : world) conn section h evs :
  restore_structure w conn section h = (Ok tt, evs) ->
  exists dir,
    filter is_system evs
    = [EvSystem (restore_command (tool_path w dir "pg_restore") section
                                 (node_dsn (target conn))) 0].
Proof.
  intros H. remember (@Ok unit tt) as ok eqn:Hok.
  unfold restore_structure, find_other_exec_version in H. unfold_calls H.
  steps H; try discriminate Hok; tests.
  eexists. cbn [filter is_system]. rewrite E3. reflexivity.
Qed.

Lemma copy_node_data_begins (w : world) conn snapshot h evs :
  copy_node_data w conn snapshot h = (Ok tt, evs) ->
  exists oc res, In (EvPQexec oc (begin_origin snapshot) res) evs.
Proof.
  intros H. remember (@Ok unit tt) as ok eqn:Hok.
  unfold copy_node_data, pg_connect, start_copy_origin_tx in H.
  unfold PQconnectdb, PQstatus, PQerrorMessage, PQexec, PQfinish, elog, ereport in H.
  steps H; try discriminate Hok.
  all: eexists _, _; unfold begin_origin; solve [find_in].
Qed.

(** X20: in a bootstrap entered at INIT that returns, one snapshot serves
    throughout: the snapshot read from row 0, column 2 of the reply to the
    slot command is the one pg_dump is told to dump and the one the
    transaction of the copy on the origin is set to.  Three commands were
    run, each with exit status 0: the dump at that snapshot from the
    origin, the restore of pre-data and the restore of post-data into the
    target. *)
Theorem one_snapshot_for_dump_and_copy (w : world) (conn : PGLogicalConnection)
    (h : history) (evs : list event) :
  node_status (target conn) = NODE_STATUS_INIT ->
  pglogical_init_replica w conn h = (Ok tt, evs) ->
  exists rc slot_name reply snapshot dir1 dir2 dir3 oc res,
    In (EvPQexec rc (slot_command slot_name) reply) evs
    /\ PQgetvalue reply 0 2 = Some snapshot
    /\ filter is_system evs
       = [EvSystem (dump_command (tool_path w dir1 "pg_dump") snapshot
                                 (node_dsn (origin conn))) 0;
          EvSystem (restore_command (tool_path w dir2 "pg_restore") "pre-data"
                                    (node_dsn (target conn))) 0;
          EvSystem (restore_command (tool_path w dir3 "pg_restore") "post-data"
                                    (node_dsn (target conn))) 0]
    /\ In (EvPQexec oc (begin_origin snapshot) res) evs.
Proof.
  intros Hst H. remember (@Ok unit tt) as ok eqn:Hok.
  unfold pglogical_init_replica in H. rewrite Hst in H. cbn [NodeStatus_eqb] in H.
  unfold ensure_replication_slot_snapshot in H.
  unfold elog, ereport, StartTransactionCommand, CommitTransactionCommand,
    get_database_name, replorigin_advance, set_node_status, PQexec in H.
  steps H; try discriminate Hok.
  repeat match goal with
         | u : unit |- _ => destruct u
         end.
  match goal with
  | Rd : dump_structure _ _ _ _ = _,
    Rp : restore_structure _ _ "pre-data" _ = _,
    Rc : copy_node_data _ _ _ _ = _,
    Rq : restore_structure _ _ "post-data" _ = _ |- _ =>
      pose proof (dump_structure_returned _ _ _ _ _ Rd) as (d1 & Hd);
      pose proof (restore_structure_returned _ _ _ _ _ Rp) as (d2 & Hp);
      pose proof (copy_node_data_begins _ _ _ _ _ Rc) as (oc & res & Hb);
      pose proof (restore_structure_returned _ _ _ _ _ Rq) as (d3 & Hq)
  end.
  quiet (is_not is_system).
  lazymatch goal with
  | |- context [EvPQexec ?rc (slot_command ?sn) ?reply :: _] => exists rc, sn, reply
  end.
  lazymatch type of Hb with
  | In (EvPQexec _ (begin_origin ?s) _) _ => exists s
  end.
  exists d1, d2, d3, oc, res.
  split; [solve [find_in]|]. split; [assumption|]. split.
  - repeat first
      [ rewrite filter_app
      | progress cbn [filter is_system app]
      | rewrite Hd | rewrite Hp | rewrite Hq
      | match goal with
        | Hx : forallb (is_not is_system) ?e = true |- _ =>
            rewrite (filter_quiet is_system e Hx)
        end ].
    reflexivity.
  - repeat first [rewrite in_app_iff | progress cbn [In]]. tauto.
Qed.

Lemma one_snapshot_for_dump_and_copy_witness :
  let conn := Scenario.connection NODE_STATUS_INIT ["default"] in
  let run := pglogical_init_replica Scenario.healthy conn [] in
  node_status (target conn) = NODE_STATUS_INIT
  /\ run = (Ok tt, snd run)
  /\ exists rc slot_name reply snapshot dir1 dir2 dir3 oc res,
       In (EvPQexec rc (slot_command slot_name) reply) (snd run)
       /\ PQgetvalue reply 0 2 = Some snapshot
       /\ filter is_system (snd run)
          = [EvSystem (dump_command (tool_path Scenario.healthy dir1 "pg_dump") snapshot
                                    (node_dsn (origin conn))) 0;
             EvSystem (restore_command (tool_path Scenario.healthy dir2 "pg_restore")
                                       "pre-data" (node_dsn (target conn))) 0;
             EvSystem (restore_command (tool_path Scenario.healthy dir3 "pg_restore")
                                       "post-data" (node_dsn (target conn))) 0]
       /\ In (EvPQexec oc (begin_origin snapshot) res) (snd run).
Proof.
  cbv zeta.
  assert (Hrun : pglogical_init_replica Scenario.healthy
                   (Scenario.connection NODE_STATUS_INIT ["default"]) []
                 = (Ok tt, snd (pglogical_init_replica Scenario.healthy
                                  (Scenario.connection NODE_STATUS_INIT ["default"]) [])))
    by (vm_compute; reflexivity).
  split; [reflexivity|]. split; [exact Hrun|].
  exact (one_snapshot_for_dump_and_copy Scenario.healthy
           (Scenario.connection NODE_STATUS_INIT ["default"]) [] _ eq_refl Hrun).
Defined.

(** ** The end of a copy is sent after the end of the stream *)

Section EachPreceded.

Variable mark : event -> bool.
Variable R : list event -> Prop.

Hypothesis R_prefix : forall e1 pre, R pre -> R (e1 ++ pre).

Lemma each_preceded_sequential : sequential (each_preceded mark R).
Proof.
  split.
  - intros pre f post E. destruct pre; discriminate E.
  - intros e1 e2 x H1 H2 pre f post E Hf.
    apply app_eq_app in E. destruct E as (l & [[-> E]|[-> E]]).
    + destruct l as [|f' l'].
      * cbn in E.
        assert (HR : R (pre ++ []))
          by (apply R_prefix; apply (H2 [] f post); [symmetry; exact E | exact Hf]).
        rewrite app_nil_r in HR. exact HR.
      * injection E as -> E. apply (H1 pre f' l' eq_refl Hf).
    + apply R_prefix. apply (H2 l f post E Hf).
Qed.

Lemma emits_each_preceded {A} (m : M A) :
  emits (is_not mark) m -> sat (each_preceded mark R) m.
Proof.
  intros Hm h pre f post E Hf. exfalso.
  exact (not_marked mark (snd (m h)) pre post f (Hm h) Hf E).
Qed.

End EachPreceded.

Lemma stream_ended_prefix (e1 pre : list event) :
  stream_ended pre -> stream_ended (e1 ++ pre).
Proof.
  intros (pre' & oc & buf & ->). exists (e1 ++ pre'), oc, buf.
  rewrite app_assoc. reflexivity.
Qed.

(** The events of [l] before the end of a copy, that event, the events
    after it. *)
Ltac before_end l :=
  lazymatch l with
  | EvPQputCopyEnd _ _ :: _ => constr:(@nil event)
  | ?a :: ?t => let r := before_end t in constr:(a :: r)
  | ?x ++ ?t => let r := before_end t in constr:(x ++ r)
  end.

Ltac from_end l :=
  lazymatch l with
  | EvPQputCopyEnd _ _ :: _ => constr:(l)
  | _ :: ?t => from_end t
  | _ ++ ?t => from_end t
  end.

Lemma copy_table_data_ends_stream (w : world) oc tc schemaname relname :
  sat (each_preceded is_copy_end stream_ended)
      (copy_table_data w oc tc schemaname relname).
Proof.
  intros h. run_of (copy_table_data w oc tc schemaname relname) h r evs H.
  unfold copy_table_data in H. unfold_calls H.
  steps H; quiet (is_not is_copy_end);
    try match goal with
        | Rr : copy_rows _ _ _ _ _ _ = (Ok _, _) |- _ =>
            apply copy_rows_run in Rr;
            destruct Rr as [(bytes & buf & pre0 & Hr & -> & _ & _) | [Hno _]];
            [ injection Hr as <- | exfalso; eapply Hno; reflexivity ]
        end;
    intros pre f post Hsplit Hf; tests.
  all: repeat match goal with
              | Hq : forallb _ (_ ++ _) = true |- _ =>
                  rewrite forallb_app in Hq; apply andb_true_iff in Hq; destruct Hq
              end.
  all: try (exfalso;
            lazymatch type of Hsplit with
            | ?a = ?p ++ ?y :: ?q =>
                assert (Ha : forallb (is_not is_copy_end) a = true) by all_quiet;
                exact (not_marked is_copy_end a p q y Ha Hf Hsplit)
            end).
  all: lazymatch type of Hsplit with
       | ?l = _ =>
           let a := before_end l in
           let t := from_end l in
           lazymatch t with
           | ?x :: ?b =>
               assert (Hl : l = a ++ x :: b) by (list_norm; reflexivity);
               rewrite Hl in Hsplit;
               destruct (split_at_marked is_copy_end a pre x f b post) as (Hp & _ & _);
               [ all_quiet | reflexivity | reflexivity | exact Hf | exact Hsplit | ]
           end
       end.
  all: subst; rewrite ?app_nil_r; unfold stream_ended.
  all: lazymatch goal with
       | |- exists pre' oc' buffer, ?a = _ =>
           let p := drop_last a in
           lazymatch a with
           | context [_ ++ [EvPQgetCopyData ?c _ ?b]] => exists p, c, b
           end
       end; list_norm; reflexivity.
Qed.

Lemma pglogical_init_replica_ends_stream (w : world) conn :
  sat (each_preceded is_copy_end stream_ended) (pglogical_init_replica w conn).
Proof.
  unfold pglogical_init_replica.
  sat_by (each_preceded_sequential is_copy_end stream_ended stream_ended_prefix)
         ltac:(first [ apply copy_table_data_ends_stream
                     | progress unfold copy_node_data ])
         ltac:(apply emits_each_preceded; emits_prog).
Qed.

(** X21: the end of a copy is sent to the target only once the origin has
    ended its stream: at every PQputCopyEnd of a bootstrap, the call just
    before it is the PQgetCopyData that returned -1. *)
Theorem copy_end_follows_end_of_stream (w : world) (conn : PGLogicalConnection)
    (h : history) (pre post : list event) (c : PGconn) (res : Z) :
  snd (pglogical_init_replica w conn h) = pre ++ EvPQputCopyEnd c res :: post ->
  exists pre' oc buffer, pre = pre' ++ [EvPQgetCopyData oc (-1) buffer].
Proof.
  intros E.
  exact (pglogical_init_replica_ends_stream w conn h pre _ post E eq_refl).
Qed.

Lemma copy_end_follows_end_of_stream_witness :
  let run := pglogical_init_replica Scenario.healthy
               (Scenario.connection NODE_STATUS_INIT ["default"]) [] in
  snd run = firstn 42 (snd run) ++ EvPQputCopyEnd 3%nat 1 :: skipn 43 (snd run)
  /\ exists pre' oc buffer,
       firstn 42 (snd run) = pre' ++ [EvPQgetCopyData oc (-1) buffer].
Proof.
  cbv zeta.
  assert (E : snd (pglogical_init_replica Scenario.healthy
                     (Scenario.connection NODE_STATUS_INIT ["default"]) [])
              = firstn 42 (snd (pglogical_init_replica Scenario.healthy
                                  (Scenario.connection NODE_STATUS_INIT ["default"]) []))
                ++ EvPQputCopyEnd 3%nat 1
                :: skipn 43 (snd (pglogical_init_replica Scenario.healthy
                                    (Scenario.connection NODE_STATUS_INIT ["default"]) [])))
    by (vm_compute; reflexivity).
  split; [exact E|].
  exact (copy_end_follows_end_of_stream Scenario.healthy
           (Scenario.connection NODE_STATUS_INIT ["default"]) [] _ _ _ _ E).
Defined.

(** ** Whose status is written *)

Lemma status_of_target_sequential (conn : PGLogicalConnection) :
  sequential (status_of_target conn).
Proof.
  split.
  - split; [intros nodeid s [] | intros c n s []].
  - intros e1 e2 x [H1 H1'] [H2 H2']. split.
    + intros nodeid s Hin. apply in_app_or in Hin as [Hin|Hin]; eauto.
    + intros c n s Hin. apply in_app_or in Hin as [Hin|Hin]; eauto.
Qed.

Lemma no_status_of_target (conn : PGLogicalConnection) {A} (m : M A) :
  emits (is_not is_status_event) m -> sat (status_of_target conn) m.
Proof.
  intros Hm h. split.
  - intros nodeid s Hin. exfalso.
    exact (none_marked is_status_event (snd (m h)) _ (Hm h) Hin eq_refl).
  - intros c n s Hin. exfalso.
    exact (none_marked is_status_event (snd (m h)) _ (Hm h) Hin eq_refl).
Qed.

Lemma set_node_status_of_target (conn : PGLogicalConnection) (s : NodeStatus) :
  sat (status_of_target conn) (set_node_status (node_id (target conn)) s).
Proof.
  intros h. split.
  - intros nodeid s' [[= <- _]|[]]. reflexivity.
  - intros c n s' [[=]|[]].
Qed.

Lemma set_remote_node_status_of_target (conn : PGLogicalConnection) (c : PGconn) :
  sat (status_of_target conn)
      (set_remote_node_status c (node_name (target conn)) NODE_STATUS_READY).
Proof.
  intros h. split.
  - intros nodeid s' [[=]|[]].
  - intros c' n s' [[= _ <- <-]|[]]. split; reflexivity.
Qed.

Lemma pglogical_init_replica_status_of_target (w : world) conn :
  sat (status_of_target conn) (pglogical_init_replica w conn).
Proof.
  unfold pglogical_init_replica.
  sat_by (status_of_target_sequential conn)
         ltac:(first [ apply set_node_status_of_target
                     | apply set_remote_node_status_of_target ])
         ltac:(apply no_status_of_target; emits_prog).
Qed.

(** X22: a bootstrap writes the status of no node but its target: every
    set_node_status is for the id of the target, and what it sets on the
    origin is the status of the node of the target's name, and READY
    only. *)
Theorem only_the_target_status_is_written (w : world) (conn : PGLogicalConnection)
    (h : history) :
  (forall nodeid s,
     In (EvSetNodeStatus nodeid s) (snd (pglogical_init_replica w conn h)) ->
     nodeid = node_id (target conn))
  /\ (forall c nodename s,
        In (EvSetRemoteNodeStatus c nodename s) (snd (pglogical_init_replica w conn h)) ->
        nodename = node_name (target conn) /\ s = NODE_STATUS_READY).
Proof. exact (pglogical_init_replica_status_of_target w conn h). Qed.

(** ** No status is skipped *)

(** X23: the statuses a bootstrap writes are, in order and with none left
    out, the first of those that come after the status it was entered
    with; a bootstrap that returns has written them all, READY last. *)
Theorem no_status_is_skipped (w : world) (conn : PGLogicalConnection) (h : history) :
  exists n,
    statuses (snd (pglogical_init_replica w conn h))
    = firstn n (later_statuses (node_status (target conn)))
    /\ (fst (pglogical_init_replica w conn h) = Ok tt ->
        n = List.length (later_statuses (node_status (target conn)))).
Proof.
  run_of (pglogical_init_replica w conn) h r evs H.
  unfold pglogical_init_replica in H.
  unfold elog, ereport, StartTransactionCommand, CommitTransactionCommand,
    get_database_name, replorigin_advance, set_node_status, set_remote_node_status,
    PQfinish in H.
  destruct (node_status (target conn)) eqn:Hst; cbn [NodeStatus_eqb] in H.
  all: steps H.
  all: quiet (is_not is_set_status).
  all: repeat first
         [ rewrite statuses_app
         | progress cbn [statuses app]
         | match goal with
           | Hq : forallb (is_not is_set_status) ?e = true |- _ =>
               rewrite (statuses_quiet e Hq)
           end ].
  all: lazymatch goal with
       | |- exists n, ?l = _ /\ _ => exists (List.length l)
       end.
  all: split; [reflexivity | intros Hok; first [reflexivity | discriminate Hok]].
Qed.

(** ** Where interrupts are checked *)

Section EachFollowed.

Variable mark : event -> bool.
Variable R : event -> list event -> exit_kind -> Prop.

Hypothesis R_app :
  forall f post e2 x, mark f = true -> R f post Returned -> R f (post ++ e2) x.

Lemma each_followed_sequential : sequential (each_followed mark R).
Proof.
  split.
  - intros pre f post E. destruct pre; discriminate E.
  - intros e1 e2 x H1 H2 pre f post E Hf.
    apply app_eq_app in E. destruct E as (l & [[-> E]|[-> E]]).
    + destruct l as [|f' l'].
      * cbn in E. apply (H2 [] f post); [symmetry; exact E | exact Hf].
      * injection E as -> ->. apply R_app; [exact Hf|].
        apply (H1 pre f' l' eq_refl Hf).
    + apply (H2 l f post E Hf).
Qed.

Lemma emits_each_followed {A} (m : M A) :
  emits (is_not mark) m -> sat (each_followed mark R) m.
Proof.
  intros Hm h pre f post E Hf. exfalso.
  exact (not_marked mark (snd (m h)) pre post f (Hm h) Hf E).
Qed.

End EachFollowed.

Lemma sequential_and (Q1 Q2 : exit_kind -> list event -> Prop) :
  sequential Q1 -> sequential Q2 -> sequential (fun x evs => Q1 x evs /\ Q2 x evs).
Proof.
  intros [n1 a1] [n2 a2]. split; [split; assumption|].
  intros e1 e2 x [H1 H2] [H1' H2']. split; auto.
Qed.

Lemma emits_weaken (P Q : event -> bool) {A} (m : M A) :
  (forall e, P e = true -> Q e = true) -> emits P m -> emits Q m.
Proof.
  intros HPQ Hm h. specialize (Hm h). rewrite forallb_forall in *. auto.
Qed.

Lemma after_write_prefix (e1 pre : list event) : after_write pre -> after_write (e1 ++ pre).
Proof.
  intros (pre' & p & -> & Hp). exists (e1 ++ pre'), p.
  rewrite app_assoc. auto.
Qed.

Lemma checks_interrupts_sequential : sequential checks_interrupts.
Proof.
  unfold checks_interrupts.
  apply sequential_and; [|apply sequential_and].
  - apply each_followed_sequential.
    intros f post e2 x _ (raised & post' & ->). exists raised, (post' ++ e2). reflexivity.
  - apply each_preceded_sequential. exact after_write_prefix.
  - apply each_followed_sequential.
    intros f post e2 x Hf (_ & Hx).
    destruct f as [| | | | | | | | | | | | | | |[e|]| | | | | | | |]; try discriminate Hf.
    specialize (Hx e eq_refl). discriminate Hx.
Qed.

Lemma quiet_checks_interrupts {A} (m : M A) :
  emits (is_not is_write_or_check) m -> sat checks_interrupts m.
Proof.
  intros Hm h. split; [|split].
  - apply emits_each_followed. revert Hm. apply emits_weaken.
    intros [] He; try reflexivity; discriminate He.
  - apply emits_each_preceded. revert Hm. apply emits_weaken.
    intros [] He; try reflexivity; discriminate He.
  - apply emits_each_followed. revert Hm. apply emits_weaken.
    intros [] He; try reflexivity; discriminate He.
Qed.

Lemma sat_bind_assoc (Q : exit_kind -> list event -> Prop) {A B C}
    (m : M A) (f : A -> M B) (g : B -> M C) :
  sat Q (bind m (fun a => bind (f a) g)) -> sat Q (bind (bind m f) g).
Proof. intros H h. rewrite bind_assoc. apply H. Qed.

(** As [sat_by], through the calls of a function to the end of its
    body: what follows the body is part of what is proved. *)
Ltac sat_deep Hseq leaf close :=
  repeat first
    [ leaf
    | match goal with
      | |- sat _ (bind (bind _ _) _) => apply sat_bind_assoc
      | |- sat _ (bind (match ?x with _ => _ end) _) => destruct x
      | |- sat _ (match ?x with _ => _ end) => destruct x
      end
    | apply sat_bind; [exact Hseq | | intros]
    | apply sat_foreach; [exact Hseq | intros]
    | solve [close]
    | progress cbv beta ].

(** The place of an event in a list that begins with known events. *)
Ltac peel Hs :=
  repeat lazymatch type of Hs with
         | _ :: _ = ?pre ++ ?f :: ?post =>
             let p := fresh "p" in
             let pre' := fresh "pre" in
             destruct pre as [|p pre']; cbn [app] in Hs;
             [ injection Hs as ? ?; subst f post
             | let Hp := fresh "Hp" in injection Hs as Hp Hs; subst p ]
         | [] = ?pre ++ _ :: _ => exfalso; destruct pre; discriminate Hs
         end.

Lemma after_write_cons (p : event) (pre : list event) :
  after_write pre -> after_write (p :: pre).
Proof. exact (after_write_prefix [p] pre). Qed.

(** The three parts of [checks_interrupts] for a list of known events
    that may end with the events of a run of which [Hk] says it holds. *)
Ltac checks_here Hk :=
  split; [|split]; intros pre f post Hs Hm; peel Hs;
  cbn [accepted_write is_check interrupt_pending] in Hm;
  try discriminate Hm; try congruence;
  first
    [ exact (proj1 Hk _ _ _ Hs Hm)
    | exact (proj2 (proj2 Hk) _ _ _ Hs Hm)
    | repeat apply after_write_cons; exact (proj1 (proj2 Hk) _ _ _ Hs Hm)
    | eexists _, _; reflexivity
    | lazymatch goal with
      | |- after_write ?l =>
          let p := drop_last l in
          exists p; eexists; split; [reflexivity | cbn [accepted_write]; assumption]
      end
    | split; [reflexivity | intros e' He'; injection He' as <-; reflexivity] ].

Lemma put_then_check (w : world) (tc : PGconn) (buffer : string) (nbytes : Z)
    {A} (k : M A) :
  sat checks_interrupts k ->
  sat checks_interrupts
      (r <- PQputCopyData w tc buffer nbytes ;;
       (if (r =? 1)%Z then ret tt
        else m <- PQerrorMessage w tc ;;
             ereport ERROR "writing to target table failed"
                           ("destination connection reported: " +++ m)) ;;
       CHECK_FOR_INTERRUPTS w ;;
       k).
Proof.
  intros Hk h.
  match goal with |- context [exit_of (fst (?m h))] => run_of m h r evs H end.
  unfold_calls H. steps H.
  - checks_here I.
  - match type of H with
    | k ?hh = _ => pose proof (Hk hh) as Hk'; rewrite H in Hk'; cbn [fst snd] in Hk'
    end.
    checks_here Hk'.
  - checks_here I.
Qed.

Lemma end_then_check (w : world) (tc : PGconn) :
  sat checks_interrupts
      (e <- PQputCopyEnd w tc ;;
       (if (e =? 1)%Z then ret tt
        else m <- PQerrorMessage w tc ;;
             ereport ERROR "sending copy-completion to destination connection failed"
                           ("destination connection reported: " +++ m)) ;;
       CHECK_FOR_INTERRUPTS w).
Proof.
  intros h.
  match goal with |- context [exit_of (fst (?m h))] => run_of m h r evs H end.
  unfold_calls H. steps H; checks_here I.
Qed.

Lemma copy_rows_checks (w : world) (oc tc : PGconn) (rows : list string) (last : CopyEnd) :
  sat checks_interrupts (copy_rows w oc tc rows last).
Proof.
  induction rows as [|copybuf rows IH]; cbn [copy_rows].
  - apply quiet_checks_interrupts. emits_prog.
  - sat_deep checks_interrupts_sequential
             ltac:(apply put_then_check; exact IH)
             ltac:(apply quiet_checks_interrupts; emits_prog).
Qed.

Lemma pglogical_init_replica_checks (w : world) (conn : PGLogicalConnection) :
  sat checks_interrupts (pglogical_init_replica w conn).
Proof.
  unfold pglogical_init_replica.
  sat_deep checks_interrupts_sequential
           ltac:(first [ apply end_then_check
                       | apply copy_rows_checks
                       | progress unfold copy_node_data, copy_table_data ])
           ltac:(apply quiet_checks_interrupts; emits_prog).
Qed.

(** X5: where the bootstrap checks for interrupts, and what a pending one
    does.  Every chunk the target accepted and every end of copy it
    accepted is followed at once by CHECK_FOR_INTERRUPTS; the bootstrap
    checks nowhere else: every check comes right after such a write.  A
    check that finds a request to cancel or to terminate pending is the
    last event of the bootstrap, which ends in the error of the
    request. *)
Theorem interrupts_checked_after_each_write (w : world) (conn : PGLogicalConnection)
    (h : history) :
  (forall pre f post,
     snd (pglogical_init_replica w conn h) = pre ++ f :: post ->
     accepted_write f = true ->
     exists raised post', post = EvCheckForInterrupts raised :: post')
  /\ (forall pre raised post,
        snd (pglogical_init_replica w conn h)
        = pre ++ EvCheckForInterrupts raised :: post ->
        exists pre' p, pre = pre' ++ [p] /\ accepted_write p = true)
  /\ (forall pre e post,
        snd (pglogical_init_replica w conn h)
        = pre ++ EvCheckForInterrupts (Some e) :: post ->
        post = [] /\ fst (pglogical_init_replica w conn h) = Raised e).
Proof.
  destruct (pglogical_init_replica_checks w conn h) as (H1 & H2 & H3).
  split; [|split].
  - intros pre f post E Hf. exact (H1 pre f post E Hf).
  - intros pre raised post E. exact (H2 pre _ post E eq_refl).
  - intros pre e post E. destruct (H3 pre _ post E eq_refl) as [Hp Hx].
    split; [exact Hp|]. apply exit_of_threw. exact (Hx e eq_refl).
Qed.

(** ** The dialogue of a copy *)

Lemma dialogue_app (a b : list event) : dialogue (a ++ b) = dialogue a ++ dialogue b.
Proof.
  induction a as [|e a IH]; cbn [app dialogue]; [reflexivity|].
  destruct e; rewrite ?IH; reflexivity.
Qed.

Lemma dialogue_quiet (e : list event) :
  forallb (is_not is_dialogue) e = true -> dialogue e = [].
Proof.
  induction e as [|x e IH]; cbn [forallb dialogue]; [reflexivity|].
  intros H. apply andb_true_iff in H as [Hx He].
  destruct x; try discriminate Hx; auto.
Qed.

Lemma dialogue_chunks (oc tc : PGconn) (rows : list string) :
  dialogue (flat_map (chunk_events oc tc) rows) = [].
Proof.
  induction rows as [|b rows IH]; [reflexivity|].
  cbn [flat_map]. rewrite dialogue_app, IH. reflexivity.
Qed.

(** Brings [dialogue] of the events of a run to the exchanges it
    holds. *)
Ltac exchanges :=
  repeat first
    [ rewrite dialogue_app
    | progress cbn [dialogue app]
    | match goal with
      | Hq : forallb (is_not is_dialogue) ?e = true |- _ =>
          rewrite (dialogue_quiet e Hq)
      end ].

Lemma copy_table_data_dialogue (w : world) (oc tc : PGconn) (rv : RangeVar)
    (h : history) (evs : list event) :
  copy_table_data w oc tc (schemaname rv) (relname rv) h = (Ok tt, evs) ->
  dialogue evs = table_exchange w oc tc rv.
Proof.
  intros H. apply copy_table_data_returned in H.
  destruct H as (oo & oi & res_out & res_in & rows & -> & _).
  rewrite !dialogue_app, dialogue_chunks.
  unfold copy_opening, escaped_names. destruct oo, oi; reflexivity.
Qed.

Lemma foreach_dialogue (w : world) (oc tc : PGconn) (tables : list RangeVar) :
  forall h evs,
    foreach tables
      (fun rv => copy_table_data w oc tc (schemaname rv) (relname rv) ;;
                 CHECK_FOR_INTERRUPTS w) h = (Ok tt, evs) ->
    dialogue evs = flat_map (table_exchange w oc tc) tables.
Proof.
  induction tables as [|rv tables IH]; intros h evs H; cbn [foreach] in H.
  - injection H as <-. reflexivity.
  - remember (@Ok unit tt) as ok eqn:Hok. unfold CHECK_FOR_INTERRUPTS in H.
    steps H; try discriminate Hok. subst ok.
    destruct a. apply copy_table_data_dialogue in R. apply IH in H.
    cbn [flat_map]. exchanges. rewrite R, H. reflexivity.
Qed.

(** The events of a copy that returned. *)
Lemma copy_node_data_finished (w : world) (conn : PGLogicalConnection)
    (snapshot : string) (h : history) (u : unit) (evs : list event) :
  copy_node_data w conn snapshot h = (Ok u, evs) ->
  copy_finished w conn snapshot evs.
Proof.
  intros H. split.
  { apply (emits_run is_copy_event (copy_node_data w conn snapshot) h (Ok u) evs);
      [solve [emits_prog] | exact H]. }
  remember (Ok u) as ok eqn:Hok.
  unfold copy_node_data, pg_connect, start_copy_origin_tx, start_copy_target_tx in H.
  unfold PQconnectdb, PQstatus, PQerrorMessage, PQexec, PQfinish, elog, ereport in H.
  steps H; try discriminate Hok.
  all: match goal with
       | Rt : get_copy_tables _ _ _ _ = _ |- _ =>
           apply get_copy_tables_run in Rt; destruct Rt as (reply & Hev & _ & Htables);
           cbv zeta in Hev; subst
       end.
  all: match goal with
       | Rf : foreach _ _ _ = (Ok ?v, _) |- _ => destruct v; apply foreach_dialogue in Rf
       end.
  all: lazymatch goal with
       | |- context [EvPQconnectdb _ ?oc :: EvPQstatus _ _ :: _] =>
           lazymatch goal with
           | |- context [EvPQexec ?tc "COMMIT" _] =>
               lazymatch goal with
               | HT : map row_names ?tables = map (firstn 2) (PQtuples ?reply) |- _ =>
                   exists oc, tc, reply, tables
               end
           end
       end.
  all: split; [|split; [|assumption]].
  all: try (unfold copy_dialogue, connect_string, begin_origin, begin_target;
            exchanges;
            match goal with
            | Rf : dialogue _ = flat_map _ _ |- _ => rewrite Rf
            end;
            reflexivity).
  all: cbn [app]; find_in.
Qed.

(** X11: the dialogue of a copy_node_data that returns, in order.  A
    session is opened on the dsn of the origin: on it go the BEGIN that
    pins the snapshot and the query for the tables.  A second session is
    opened on the dsn of the target: on it goes its BEGIN.  Then, for
    every row of the reply to the query, in the order of the reply, COPY
    TO stdout is sent on the session of the origin and COPY FROM stdin on
    that of the target, for the table the row names.  At last ROLLBACK is
    sent on the session of the origin, which is closed, and COMMIT on the
    session of the target, which is closed.  No table is copied that the
    reply does not name, none twice; no other session is opened and
    nothing else is sent. *)
Theorem copy_node_data_statements (w : world) (conn : PGLogicalConnection)
    (snapshot : string) (h : history) (evs : list event) :
  copy_node_data w conn snapshot h = (Ok tt, evs) ->
  exists oc tc reply tables,
    dialogue evs = copy_dialogue w conn snapshot oc tc tables
    /\ In (EvPQexec oc (copy_tables_query w (w_PQescapeLiteral w oc
                          (repsetarr (replication_sets conn)))) reply) evs
    /\ map row_names tables = map (firstn 2) (PQtuples reply).
Proof.
  intros H. apply copy_node_data_finished in H. exact (proj2 H).
Qed.

Lemma copy_node_data_statements_witness :
  let conn := Scenario.connection NODE_STATUS_INIT ["default"] in
  let run := copy_node_data Scenario.healthy conn "000003E9-1" [] in
  run = (Ok tt, snd run)
  /\ exists oc tc reply tables,
       dialogue (snd run) = copy_dialogue Scenario.healthy conn "000003E9-1" oc tc tables
       /\ In (EvPQexec oc (copy_tables_query Scenario.healthy
                             (w_PQescapeLiteral Scenario.healthy oc
                                (repsetarr (replication_sets conn)))) reply) (snd run)
       /\ map row_names tables = map (firstn 2) (PQtuples reply).
Proof.
  cbv zeta.
  assert (Hrun : copy_node_data Scenario.healthy
                   (Scenario.connection NODE_STATUS_INIT ["default"]) "000003E9-1" []
                 = (Ok tt, snd (copy_node_data Scenario.healthy
                                  (Scenario.connection NODE_STATUS_INIT ["default"])
                                  "000003E9-1" [])))
    by (vm_compute; reflexivity).
  split; [exact Hrun|].
  exact (copy_node_data_statements Scenario.healthy
           (Scenario.connection NODE_STATUS_INIT ["default"]) "000003E9-1" [] _ Hrun).
Defined.

(** The dialogue of the copy of the healthy world: the session 1 is the
    one opened on the origin, the session 2 the one opened on the target. *)
Example healthy_copy_dialogue :
  let conn := Scenario.connection NODE_STATUS_INIT ["default"] in
  firstn 5 (dialogue (snd (copy_node_data Scenario.healthy conn "000003E9-1" [])))
  = firstn 5 (copy_dialogue Scenario.healthy conn "000003E9-1" 1%nat 2%nat []).
Proof. vm_compute. reflexivity. Qed.

(** ** The end of the copy, session by session *)

Lemma pg_connect_dialogue (w : world) (connstring connname : string) (h : history)
    (c : PGconn) (evs : list event) :
  pg_connect w connstring connname h = (Ok c, evs) ->
  dialogue evs = [Opened (connect_string connstring connname) c].
Proof.
  intros H. remember (Ok c) as ok eqn:Hok. unfold pg_connect in H. unfold_calls H.
  steps H; try discriminate Hok; injection Hok as ->; reflexivity.
Qed.

Lemma start_copy_origin_tx_dialogue (w : world) (c : PGconn) (snapshot : string)
    (h : history) (r : outcome unit) (evs : list event) :
  start_copy_origin_tx w c snapshot h = (r, evs) ->
  dialogue evs = [Sent c (begin_origin snapshot)].
Proof.
  intros H. unfold start_copy_origin_tx in H. unfold_calls H.
  steps H; reflexivity.
Qed.

Lemma start_copy_target_tx_dialogue (w : world) (c : PGconn) (snapshot : string)
    (h : history) (r : outcome unit) (evs : list event) :
  start_copy_target_tx w c snapshot h = (r, evs) ->
  dialogue evs = [Sent c begin_target].
Proof.
  intros H. unfold start_copy_target_tx in H. unfold_calls H.
  steps H; reflexivity.
Qed.

Lemma get_copy_tables_dialogue (w : world) (oc : PGconn) (sets : list PGLogicalRepSet)
    (h : history) (r : outcome (list RangeVar)) (evs : list event) :
  get_copy_tables w oc sets h = (r, evs) ->
  dialogue evs
  = [Sent oc (copy_tables_query w (w_PQescapeLiteral w oc (repsetarr sets)))].
Proof.
  intros H. apply get_copy_tables_run in H. destruct H as (res & -> & _). reflexivity.
Qed.

(** C6: the end of copy_node_data.  The ROLLBACK is sent on the session
    that was opened on the dsn of the origin and on which the read-only
    transaction at the snapshot was begun; whatever it answered, that
    session is closed and COMMIT is sent on the session that was opened on
    the dsn of the target and on which the transaction of the target was
    begun; a ROLLBACK that failed only leaves a WARNING before that.  The
    run then ends by the answer of COMMIT alone: it returns, the session of
    the target closed, when COMMIT succeeded, and raises the ERROR "COMMIT
    on target node failed" when it did not. *)
Theorem rollback_warns_commit_aborts (w : world) (conn : PGLogicalConnection)
    (snapshot : string) (h : history) (r : outcome unit) (evs pre post : list event)
    (c : PGconn) (res : PGresult) :
  copy_node_data w conn snapshot h = (r, evs) ->
  evs = pre ++ EvPQexec c "ROLLBACK" res :: post ->
  exists oc tc tables res2,
    dialogue pre
    = [Opened (connect_string (node_dsn (origin conn)) (EXTENSION_NAME w +++ "_init")) oc;
       Sent oc (begin_origin snapshot);
       Sent oc (copy_tables_query w (w_PQescapeLiteral w oc
                                       (repsetarr (replication_sets conn))));
       Opened (connect_string (node_dsn (target conn)) (EXTENSION_NAME w +++ "_init")) tc;
       Sent tc begin_target]
      ++ flat_map (table_exchange w oc tc) tables
    /\ c = oc
    /\ post = rollback_warning res
              ++ [EvPQfinish oc; EvPQexec tc "COMMIT" res2]
              ++ (if command_ok res2 then [EvPQfinish tc] else [])
    /\ r = (if command_ok res2 then Ok tt else Raised (commit_failed res2)).
Proof.
  intros H Hsplit. unfold copy_node_data in H.
  unfold PQexec, PQfinish, elog, ereport in H.
  steps H; quiet (is_not is_rollback); list_norm; rewrite ?app_assoc in Hsplit;
    try (exfalso;
         lazymatch type of Hsplit with
         | ?a = ?p ++ ?y :: ?q =>
             assert (Ha : forallb (is_not is_rollback) a = true) by all_quiet;
             exact (not_marked is_rollback a p q y Ha eq_refl Hsplit)
         end).
  all: lazymatch type of Hsplit with
       | ?a ++ ?x :: ?b = ?p ++ ?y :: ?q =>
           destruct (split_at_marked is_rollback a p x y b q) as (Hp & Hy & Hq);
           [ all_quiet | reflexivity | reflexivity | reflexivity | exact Hsplit | ]
       end;
       injection Hy as Hc Hr; subst.
  all: repeat match goal with
         | Rc : pg_connect _ _ _ _ = _ |- _ => apply pg_connect_dialogue in Rc
         | Rc : start_copy_origin_tx _ _ _ _ = _ |- _ =>
             apply start_copy_origin_tx_dialogue in Rc
         | Rc : start_copy_target_tx _ _ _ _ = _ |- _ =>
             apply start_copy_target_tx_dialogue in Rc
         | Rc : get_copy_tables _ _ _ _ = _ |- _ => apply get_copy_tables_dialogue in Rc
         | Rc : foreach _ _ _ = (Ok ?v, _) |- _ =>
             destruct v; apply foreach_dialogue in Rc
         end.
  all: lazymatch goal with
       | Ho : dialogue _ = [Sent ?oc (begin_origin _)],
         Ht : dialogue _ = [Sent ?tc begin_target],
         Hf : dialogue _ = flat_map _ ?tables |- _ =>
           exists oc, tc, tables
       end.
  all: eexists; rewrite !dialogue_app;
       repeat match goal with
              | Hd : dialogue _ = _ |- _ => rewrite Hd; clear Hd
              end;
       unfold rollback_warning, command_ok;
       repeat match goal with
              | E : ExecStatusType_eqb _ _ = _ |- _ => rewrite E; clear E
              end;
       cbn [app]; repeat split; reflexivity.
Qed.

Lemma rollback_warns_commit_aborts_witness :
  let w1 := Scenario.rollback_refused in
  let w2 := Scenario.commit_refused in
  let conn := Scenario.connection NODE_STATUS_INIT ["default"] in
  let run1 := copy_node_data w1 conn "000003E9-1" [] in
  let run2 := copy_node_data w2 conn "000003E9-1" [] in
  (snd run1 = firstn 35 (snd run1)
              ++ EvPQexec 1%nat "ROLLBACK" Scenario.refused :: skipn 36 (snd run1)
   /\ exists oc tc tables res2,
        dialogue (firstn 35 (snd run1))
        = [Opened (connect_string (node_dsn (origin conn)) (EXTENSION_NAME w1 +++ "_init")) oc;
           Sent oc (begin_origin "000003E9-1");
           Sent oc (copy_tables_query w1 (w_PQescapeLiteral w1 oc
                                            (repsetarr (replication_sets conn))));
           Opened (connect_string (node_dsn (target conn)) (EXTENSION_NAME w1 +++ "_init")) tc;
           Sent tc begin_target]
          ++ flat_map (table_exchange w1 oc tc) tables
        /\ 1%nat = oc
        /\ skipn 36 (snd run1)
           = rollback_warning Scenario.refused
             ++ [EvPQfinish oc; EvPQexec tc "COMMIT" res2]
             ++ (if command_ok res2 then [EvPQfinish tc] else [])
        /\ fst run1 = (if command_ok res2 then Ok tt else Raised (commit_failed res2)))
  /\
  (snd run2 = firstn 35 (snd run2)
              ++ EvPQexec 1%nat "ROLLBACK" Scenario.done :: skipn 36 (snd run2)
   /\ exists oc tc tables res2,
        dialogue (firstn 35 (snd run2))
        = [Opened (connect_string (node_dsn (origin conn)) (EXTENSION_NAME w2 +++ "_init")) oc;
           Sent oc (begin_origin "000003E9-1");
           Sent oc (copy_tables_query w2 (w_PQescapeLiteral w2 oc
                                            (repsetarr (replication_sets conn))));
           Opened (connect_string (node_dsn (target conn)) (EXTENSION_NAME w2 +++ "_init")) tc;
           Sent tc begin_target]
          ++ flat_map (table_exchange w2 oc tc) tables
        /\ 1%nat = oc
        /\ skipn 36 (snd run2)
           = rollback_warning Scenario.done
             ++ [EvPQfinish oc; EvPQexec tc "COMMIT" res2]
             ++ (if command_ok res2 then [EvPQfinish tc] else [])
        /\ fst run2 = (if command_ok res2 then Ok tt else Raised (commit_failed res2))).
Proof.
  cbv zeta. split.
  - pose (run := copy_node_data Scenario.rollback_refused
                   (Scenario.connection NODE_STATUS_INIT ["default"]) "000003E9-1" []).
    assert (Hsplit : snd run = firstn 35 (snd run)
                               ++ EvPQexec 1%nat "ROLLBACK" Scenario.refused
                               :: skipn 36 (snd run))
      by (vm_compute; reflexivity).
    split; [exact Hsplit|].
    exact (rollback_warns_commit_aborts Scenario.rollback_refused
             (Scenario.connection NODE_STATUS_INIT ["default"]) "000003E9-1" []
             (fst run) (snd run) _ _ 1%nat Scenario.refused
             (surjective_pairing run) Hsplit).
  - pose (run := copy_node_data Scenario.commit_refused
                   (Scenario.connection NODE_STATUS_INIT ["default"]) "000003E9-1" []).
    assert (Hsplit : snd run = firstn 35 (snd run)
                               ++ EvPQexec 1%nat "ROLLBACK" Scenario.done
                               :: skipn 36 (snd run))
      by (vm_compute; reflexivity).
    split; [exact Hsplit|].
    exact (rollback_warns_commit_aborts Scenario.commit_refused
             (Scenario.connection NODE_STATUS_INIT ["default"]) "000003E9-1" []
             (fst run) (snd run) _ _ 1%nat Scenario.done
             (surjective_pairing run) Hsplit).
Defined.

(** The sessions of the two runs: in both the ROLLBACK goes to the
    session opened on the origin, the COMMIT to the one opened on the
    target. *)
Example finalisation_sessions :
  let conn := Scenario.connection NODE_STATUS_INIT ["default"] in
  let run := copy_node_data Scenario.commit_refused conn "000003E9-1" [] in
  filter is_session (snd run)
  = [EvPQconnectdb (connect_string (node_dsn (origin conn)) "pglogical_init") 1%nat;
     EvPQconnectdb (connect_string (node_dsn (target conn)) "pglogical_init") 2%nat;
     EvPQfinish 1%nat]
  /\ skipn 35 (snd run)
     = [EvPQexec 1%nat "ROLLBACK" Scenario.done; EvPQfinish 1%nat;
        EvPQexec 2%nat "COMMIT" Scenario.refused].
Proof. vm_compute. repeat split. Qed.

(** ** The steps of the schema synchronisation, one by one *)




(** ** The order of the schema synchronisation *)






(** The healthy run: its commands, the COMMIT of the copy and the statuses
    written, in order. *)
Example healthy_sync_order :
  let run := pglogical_init_replica Scenario.healthy
               (Scenario.connection NODE_STATUS_INIT ["default"]) [] in
  filter (fun e => is_system e || is_committed e || is_set_status e) (snd run)
  = [EvSetNodeStatus 2 NODE_STATUS_SYNC_SCHEMA;
     EvSystem (dump_command "/usr/lib/postgresql/9.4/bin/pg_dump" "000003E9-1"
                            "host=origin dbname=postgres") 0;
     EvSystem (restore_command "/usr/lib/postgresql/9.4/bin/pg_restore" "pre-data"
                               "host=target dbname=postgres") 0;
     EvPQexec 3%nat "COMMIT" Scenario.done;
     EvSystem (restore_command "/usr/lib/postgresql/9.4/bin/pg_restore" "post-data"
                               "host=target dbname=postgres") 0;
     EvSetNodeStatus 2 NODE_STATUS_SLOTS;
     EvSetNodeStatus 2 NODE_STATUS_CATCHUP;
     EvSetNodeStatus 2 NODE_STATUS_CONNECT_BACK;
     EvSetNodeStatus 2 NODE_STATUS_READY].
Proof. vm_compute. reflexivity. Qed.
